(** * UQpy: Monte Carlo sampling, bootstrap confidence intervals and
    Grassmannian kernel matrices

    A shallow embedding of

    - [UQpy/sampling/MonteCarloSampling.py],
    - [UQpy/sensitivity/baseclass/sensitivity.py],
    - [UQpy/utilities/kernels/baseclass/GrassmannianKernel.py],

    together with the fragment of NumPy these three files rely on.
    Python exceptions are values of an error monad, the random sources are
    threaded explicitly, and the attributes of an object are the fields of a
    record that each method returns updated.  Where a property depends on
    the arithmetic of [float64], the numbers are the binary64 numbers of
    IEEE 754. *)

From Stdlib Require Import ZArith List Lia Reals Lra.
From Stdlib Require Floats.
From stdpp Require Import base tactics option list.


(** * Exceptions *)

(** The exceptions the modelled code can raise.  The comment of each
    constructor gives the Python exception it stands for. *)
Inductive exn : Type :=
  | EstimatorInputError (i : nat)
      (* ValueError("UQpy: estimator_inputs[i] should be either None or
         `ndarray` of dimension 1, 2 or 3") *)
  | RvsMissing          (* ValueError('UQpy: rvs method is missing.') *)
  | CdfMissing          (* ValueError('UQpy: All distributions must have a cdf method.') *)
  | BeartypeViolation   (* beartype.roar.BeartypeCallHintParamViolation *)
  | LenOfUnsized        (* TypeError('len() of unsized object') *)
  | NoneAsInteger       (* TypeError("'NoneType' object cannot be interpreted as an integer") *)
  | NotSubscriptable    (* TypeError("'NoneType' object is not subscriptable") *)
  | IndexError          (* IndexError: index out of range / too many indices *)
  | ShapeError          (* ValueError raised by NumPy on incompatible shapes *)
  | EstimatorError.     (* any exception raised by the user's estimator *)

Inductive result (A : Type) : Type :=
  | Ok (a : A)
  | Raise (e : exn).
Arguments Ok {A} a.
Arguments Raise {A} e.

#[global] Instance result_ret : MRet result := λ A a, Ok a.
#[global] Instance result_bind : MBind result := λ A B f m,
  match m with
  | Ok a => f a
  | Raise e => Raise e
  end.
#[global] Instance result_fmap : FMap result := λ A B f m,
  match m with
  | Ok a => Ok (f a)
  | Raise e => Raise e
  end.

(** A partial operation of the model raises [e] where it is undefined. *)
Definition of_option {A} (e : exn) (o : option A) : result A :=
  match o with
  | Some a => Ok a
  | None => Raise e
  end.

(** * The NumPy fragment *)

Module NumPy.

(** An array is its shape and its elements in row-major (C) order. *)
Record ndarray (A : Type) : Type := NdArray {
  shape : list nat;
  data : list A
}.
Arguments NdArray {A} shape data.
Arguments shape {A} _.
Arguments data {A} _.

Definition size (sh : list nat) : nat := foldr Nat.mul 1 sh.

Definition ndim {A} (a : ndarray A) : nat := length (shape a).

(** An array is well formed when it has as many elements as its shape says. *)
Definition wf {A} (a : ndarray A) : Prop := length (data a) = size (shape a).

(** [ravel sh idx]: the offset of the multi-index [idx] in an array of
    shape [sh]; [None] when an index is out of bounds or the number of
    indices is not the number of axes. *)
Fixpoint ravel (sh idx : list nat) : option nat :=
  match sh, idx with
  | [], [] => Some 0
  | n :: sh', i :: idx' =>
      if decide (i < n) then
        o ← ravel sh' idx'; Some (i * size sh' + o)
      else None
  | _, _ => None
  end.

(** All the multi-indices of a shape, in row-major order. *)
Fixpoint indices (sh : list nat) : list (list nat) :=
  match sh with
  | [] => [[]]
  | n :: sh' => mjoin ((λ i, (cons i) <$> indices sh') <$> seq 0 n)
  end.

(** [a[i0, i1, ...]] with one integer per axis. *)
Definition item {A} (a : ndarray A) (idx : list nat) : option A :=
  o ← ravel (shape a) idx; data a !! o.

(** The array of shape [sh] whose element at [idx] is [f idx]. *)
Definition tabulate {A} (sh : list nat) (f : list nat → A) : ndarray A :=
  NdArray sh (f <$> indices sh).

(** The same when reading an element may fail: the array exists when every
    element does.  NumPy's indexing operations are all of this form: the
    element at a position of the result is the element at some position of
    the operand.  A failed read is Python's [IndexError]. *)
Definition gather {A} (sh : list nat) (f : list nat → option A)
  : result (ndarray A) :=
  of_option IndexError (d ← mapM f (indices sh); Some (NdArray sh d)).

(** [np.zeros(sh)], for the zero [z] of the element type. *)
Definition zeros {A} (z : A) (sh : list nat) : ndarray A := tabulate sh (λ _, z).

(** [np.arange(n)]. *)
Definition arange (n : nat) : ndarray nat := NdArray [n] (seq 0 n).

(** [len(a)]. *)
Definition len {A} (a : ndarray A) : result nat :=
  match shape a with
  | [] => Raise LenOfUnsized
  | n :: _ => Ok n
  end.

(** [a[j]]: the [j]-th sub-array along the first axis. *)
Definition row {A} (a : ndarray A) (j : nat) : result (ndarray A) :=
  match shape a with
  | [] => Raise IndexError
  | n :: sh' =>
      if decide (j < n) then gather sh' (λ idx, item a (j :: idx))
      else Raise IndexError
  end.

(** Iterating over an array yields its sub-arrays along the first axis. *)
Definition iterate {A} (a : ndarray A) : result (list (ndarray A)) :=
  n ← len a; mapM (row a) (seq 0 n).

(** [a.T]: the axes reversed. *)
Definition transpose {A} (a : ndarray A) : result (ndarray A) :=
  gather (reverse (shape a)) (λ idx, item a (reverse idx)).

(** Broadcasting.  [broadcastable from to]: an array of shape [from] can be
    read as one of shape [to] (trailing axes aligned, every axis of [from]
    of the same extent as in [to], or of extent 1). *)
Fixpoint broadcastable_rev (from to : list nat) : bool :=
  match from, to with
  | [], _ => true
  | _ :: _, [] => false
  | m :: from', n :: to' =>
      (bool_decide (m = n) || bool_decide (m = 1)) && broadcastable_rev from' to'
  end.

Definition broadcastable (from to : list nat) : bool :=
  broadcastable_rev (reverse from) (reverse to).

(** The position read in an array of shape [sh] for position [idx] of the
    broadcast array. *)
Definition bindex (sh idx : list nat) : list nat :=
  zip_with (λ n i, if decide (n = 1) then 0 else i) sh
           (drop (length idx - length sh) idx).

Definition bitem {A} (a : ndarray A) (idx : list nat) : option A :=
  item a (bindex (shape a) idx).

(** The piece and the position inside it of position [c] along an axis made
    of pieces of extents [ws] laid end to end. *)
Fixpoint locate (ws : list nat) (c : nat) : option (nat * nat) :=
  match ws with
  | [] => None
  | w :: ws' =>
      if decide (c < w) then Some (0, c)
      else '(p, o) ← locate ws' (c - w); Some (S p, o)
  end.

(** [np.array(l)] for a list of arrays of one shape: a new first axis. *)
Definition stack {A} (l : list (ndarray A)) : result (ndarray A) :=
  match l with
  | [] => Ok (NdArray [0] [])
  | a :: _ =>
      if forallb (λ b, bool_decide (shape b = shape a)) l then
        gather (length l :: shape a)
          (λ idx, match idx with
                  | j :: idx' => b ← l !! j; item b idx'
                  | [] => None
                  end)
      else Raise ShapeError
  end.

(** [np.concatenate(l, axis=0)]. *)
Definition concatenate0 {A} (l : list (ndarray A)) : result (ndarray A) :=
  match l with
  | [] => Raise ShapeError
  | a :: _ =>
      match shape a with
      | [] => Raise ShapeError
      | _ :: sh' =>
          if forallb (λ b, bool_decide (tail (shape b) = sh') &&
                           bool_decide (shape b ≠ [])) l then
            let ns := (λ b, hd 0 (shape b)) <$> l in
            gather (sum_list ns :: sh')
              (λ idx, match idx with
                      | i :: idx' =>
                          '(p, o) ← locate ns i; b ← l !! p; item b (o :: idx')
                      | [] => None
                      end)
          else Raise ShapeError
      end
  end.

(** [np.concatenate(l, axis=1)]. *)
Definition concatenate1 {A} (l : list (ndarray A)) : result (ndarray A) :=
  match l with
  | [] => Raise ShapeError
  | a :: _ =>
      match shape a with
      | r :: _ :: sh' =>
          if forallb (λ b, bool_decide (hd_error (shape b) = Some r) &&
                           bool_decide (tail (tail (shape b)) = sh') &&
                           bool_decide (2 ≤ ndim b)) l then
            let cs := (λ b, hd 0 (tail (shape b))) <$> l in
            gather (r :: sum_list cs :: sh')
              (λ idx, match idx with
                      | i :: c :: idx' =>
                          '(p, o) ← locate cs c; b ← l !! p;
                          item b (i :: o :: idx')
                      | _ => None
                      end)
          else Raise ShapeError
      | _ => Raise ShapeError
      end
  end.

Definition atleast_1d {A} (a : ndarray A) : ndarray A :=
  match shape a with
  | [] => NdArray [1] (data a)
  | _ => a
  end.

Definition atleast_2d {A} (a : ndarray A) : ndarray A :=
  match shape a with
  | [] => NdArray [1; 1] (data a)
  | [n] => NdArray [1; n] (data a)
  | _ => a
  end.

(** [np.hstack(tup)] where [tup] is itself an array: its sub-arrays along the
    first axis are joined along their second axis, or along their only axis
    when they have one axis. *)
Definition hstack {A} (tup : ndarray A) : result (ndarray A) :=
  pieces ← iterate tup;
  let arrs := atleast_1d <$> pieces in
  match arrs with
  | a :: _ => if decide (ndim a = 1) then concatenate0 arrs else concatenate1 arrs
  | [] => concatenate1 arrs
  end.

(** [np.vstack(l)]. *)
Definition vstack {A} (l : list (ndarray A)) : result (ndarray A) :=
  concatenate0 (atleast_2d <$> l).

(** [a[:, :p]], with Python's slice bounds: a negative [p] counts from the
    end, and the bound is clipped to the extent. *)
Definition slice_stop (p : Z) (n : nat) : nat :=
  if decide (p < 0)%Z then Z.to_nat (Z.of_nat n + p) else Nat.min (Z.to_nat p) n.

Definition take_columns {A} (a : ndarray A) (p : Z) : result (ndarray A) :=
  match shape a with
  | r :: c :: sh' => gather (r :: slice_stop p c :: sh') (item a)
  | _ => Raise IndexError
  end.

(** The common shape two shapes broadcast to (trailing axes first). *)
Fixpoint broadcast_shape_rev (s1 s2 : list nat) : option (list nat) :=
  match s1, s2 with
  | [], _ => Some s2
  | _, [] => Some s1
  | m :: s1', n :: s2' =>
      if decide (m = n) then cons m <$> broadcast_shape_rev s1' s2'
      else if decide (m = 1) then cons n <$> broadcast_shape_rev s1' s2'
      else if decide (n = 1) then cons m <$> broadcast_shape_rev s1' s2'
      else None
  end.

Definition broadcast_shape (s1 s2 : list nat) : result (list nat) :=
  of_option ShapeError (reverse <$> broadcast_shape_rev (reverse s1) (reverse s2)).

(** An element-wise binary operation, e.g. [a - b]. *)
Definition map2 {A B C} (f : A → B → C) (a : ndarray A) (b : ndarray B)
  : result (ndarray C) :=
  sh ← broadcast_shape (shape a) (shape b);
  gather sh (λ idx, x ← bitem a idx; y ← bitem b idx; Some (f x y)).

(** Indexing with integer arrays.  [a[I]]: the sub-arrays of [a] along its
    first axis, picked by the entries of [I]. *)
Definition index_rows {A} (a : ndarray A) (I : ndarray nat) : result (ndarray A) :=
  match shape a with
  | [] => Raise IndexError
  | _ :: sh' =>
      let k := ndim I in
      gather (shape I ++ sh')
        (λ idx, i ← item I (take k idx); item a (i :: drop k idx))
  end.

(** [a[I, J]]: [I] and [J] are broadcast against each other, and position
    [idx] of the result holds [a[I[idx], J[idx]]]. *)
Definition index_pairs {A} (a : ndarray A) (I J : ndarray nat)
  : result (ndarray A) :=
  match shape a with
  | _ :: _ :: sh' =>
      bs ← broadcast_shape (shape I) (shape J);
      let k := length bs in
      gather (bs ++ sh')
        (λ idx, i ← bitem I (take k idx); j ← bitem J (take k idx);
                item a (i :: j :: drop k idx))
  | _ => Raise IndexError
  end.

(** [a[:, I, J]]: the same on every sub-array along the first axis. *)
Definition index_slice_pairs {A} (a : ndarray A) (I J : ndarray nat)
  : result (ndarray A) :=
  match shape a with
  | d :: _ :: _ :: sh' =>
      bs ← broadcast_shape (shape I) (shape J);
      let k := length bs in
      gather (d :: bs ++ sh')
        (λ idx, match idx with
                | s :: idx' =>
                    i ← bitem I (take k idx'); j ← bitem J (take k idx');
                    item a (s :: i :: j :: drop k idx')
                | [] => None
                end)
  | _ => Raise IndexError
  end.

(** [a[:, j]]. *)
Definition column {A} (a : ndarray A) (j : nat) : result (ndarray A) :=
  match shape a with
  | d0 :: d1 :: sh' =>
      if decide (j < d1) then
        gather (d0 :: sh')
          (λ idx, match idx with
                  | i :: idx' => item a (i :: j :: idx')
                  | [] => None
                  end)
      else Raise IndexError
  | _ => Raise IndexError
  end.

(** [a[..., j] = v]: the array [a] after the assignment; [v] is broadcast to
    the shape of [a] without its last axis. *)
Definition assign_last {A} (a : ndarray A) (j : nat) (v : ndarray A)
  : result (ndarray A) :=
  match reverse (shape a) with
  | [] => Raise IndexError
  | d :: rsh =>
      if decide (j < d) then
        if broadcastable (shape v) (reverse rsh) then
          gather (shape a)
            (λ idx, match reverse idx with
                    | t :: ridx =>
                        if decide (t = j) then bitem v (reverse ridx) else item a idx
                    | [] => None
                    end)
        else Raise ShapeError
      else Raise IndexError
  end.

(** [a[j, :, c] = v] on an array of three axes. *)
Definition assign_mid {A} (a : ndarray A) (j c : nat) (v : ndarray A)
  : result (ndarray A) :=
  match shape a with
  | [d0; d1; d2] =>
      if decide (j < d0 ∧ c < d2) then
        if broadcastable (shape v) [d1] then
          gather (shape a)
            (λ idx, match idx with
                    | [i; q; t] =>
                        if decide (i = j ∧ t = c) then bitem v [q] else item a idx
                    | _ => None
                    end)
        else Raise ShapeError
      else Raise IndexError
  | _ => Raise IndexError
  end.

(** [a[i, j] = v] and [a[i, j]] on an array of two axes. *)
Definition assign_item {A} (a : ndarray A) (i j : nat) (v : A)
  : result (ndarray A) :=
  o ← of_option IndexError (ravel (shape a) [i; j]);
  Ok (NdArray (shape a) (<[o := v]> (data a))).

(** Reals, and [nan] for the result of a division by zero.  These are the
    numbers of the module [Sensitivity]: arithmetic without rounding,
    without infinities and with one [nan].  What depends on rounding or on
    an infinity is stated on binary64 numbers, in [SensitivityBinary64]. *)
Abbreviation num := (option R).
Abbreviation nan := (@None R).

(** Arithmetic on [num]: an operation on [nan] gives [nan]. *)
Definition num_scale (c : R) (x : num) : num := (λ x', c * x')%R <$> x.
Definition num_sub (m : R) (x : num) : num := (λ x', m - x')%R <$> x.
Definition num_add (m : R) (x : num) : num := (λ x', m + x')%R <$> x.

(** The product of a number and an array. *)
Definition scale (c : R) (a : ndarray num) : ndarray num :=
  NdArray (shape a) (num_scale c <$> data a).

Definition sum_R (xs : list R) : R := foldr Rplus 0%R xs.

Definition mean (xs : list R) : R := (sum_R xs / INR (length xs))%R.

(** [np.std(xs, ddof=ddof)] of a sequence: the root of the sum of the squared
    deviations from the mean over [N - ddof].  With [N <= ddof] NumPy divides
    by zero and returns no finite number. *)
Definition std (ddof : nat) (xs : list R) : num :=
  if decide (ddof < length xs) then
    Some (sqrt (sum_R ((λ x, (x - mean xs) * (x - mean xs))%R <$> xs)
                / INR (length xs - ddof)))
  else None.

(** [np.std(a, axis=1, ddof=ddof)] on an array of two axes. *)
Definition std_axis1 (ddof : nat) (a : ndarray R) : result (ndarray num) :=
  match shape a with
  | [d0; d1] =>
      gather [d0]
        (λ idx, match idx with
                | [q] => xs ← mapM (λ t, item a [q; t]) (seq 0 d1);
                         Some (std ddof xs)
                | _ => None
                end)
  | _ => Raise IndexError
  end.

End NumPy.

(** * Loops *)

(** [for x in xs: s = body(s, x)], in the error monad. *)
Fixpoint for_each {S X} (xs : list X) (body : S → X → result S) (s : S)
  : result S :=
  match xs with
  | [] => Ok s
  | x :: xs' => s' ← body s x; for_each xs' body s'
  end.

(** * [UQpy/sensitivity/baseclass/sensitivity.py] *)

Module Sensitivity.
Import NumPy.

(** NumPy's global random source.  [randint g high size] is
    [np.random.randint(0, high=high, size=size)] run in state [g]: the array
    drawn and the state afterwards. *)
Class RandomSource : Type := {
  rng : Type;
  randint : rng → nat → list nat → ndarray nat * rng
}.

(** [scipy.stats.norm.ppf], the quantile function of the standard normal
    distribution, on real numbers.  (Its values [-inf], [inf] and [nan] at 0,
    at 1 and outside of the interval from 0 to 1 are no real numbers: for
    them see [SensitivityBinary64] below.) *)
Class NormalQuantile : Type := { norm_ppf : R → R }.

Section sensitivity.
Context `{RandomSource} `{NormalQuantile}.

(** A computation that reads the global random source and may raise. *)
Definition rand (A : Type) : Type := rng → result A * rng.

#[global] Instance rand_ret : MRet rand := λ A a g, (Ok a, g).
#[global] Instance rand_bind : MBind rand := λ A B f m g,
  match m g with
  | (Ok a, g') => f a g'
  | (Raise e, g') => (Raise e, g')
  end.

Definition lift {A} (r : result A) : rand A := λ g, (r, g).

Definition draw (high : nat) (size : list nat) : rand (ndarray nat) :=
  λ g, let '(a, g') := randint g high size in (Ok a, g').

(** [for x in xs: s = body(s, x)], with the random source. *)
Fixpoint for_each_rand {S X} (xs : list X) (body : S → X → rand S) (s : S)
  : rand S :=
  match xs with
  | [] => mret s
  | x :: xs' => s' ← body s x; for_each_rand xs' body s'
  end.

(** [a.shape[k]]. *)
Definition shape_at {A} (a : ndarray A) (k : nat) : result nat :=
  of_option IndexError (shape a !! k).

Section generators.
Context {A : Type}.

(** A generator object of one of the three generator functions: the array
    it was created on.  The statements before [while True] read the shape
    of that array only, so that every advance is the same computation. *)
Inductive generator : Type :=
  | bootstrap_sample_generator_1D (samples : ndarray A)
  | bootstrap_sample_generator_2D (samples : ndarray A)
  | bootstrap_sample_generator_3D (samples : ndarray A).

(** [gen.__next__()]: one turn of the loop, up to [yield]. *)
Definition next (gen : generator) : rand (ndarray A) :=
  match gen with
  | bootstrap_sample_generator_1D samples =>
      n_samples ← lift (shape_at samples 0);
      _indices ← draw n_samples [n_samples];
      lift (index_rows samples _indices)
  | bootstrap_sample_generator_2D samples =>
      n_samples ← lift (shape_at samples 0);
      num_cols ← lift (shape_at samples 1);
      let cols := arange num_cols in
      _indices ← draw n_samples (shape samples);
      lift (index_pairs samples _indices cols)
  | bootstrap_sample_generator_3D samples =>
      n_samples ← lift (shape_at samples 1);
      let array_shape := drop 1 (shape samples) in
      num_cols ← lift (shape_at samples 2);
      let cols := arange num_cols in
      _indices ← draw n_samples array_shape;
      lift (index_slice_pairs samples _indices cols)
  end.

(** An element of [estimator_inputs]: [None], an [ndarray], or any other
    Python value (a number, a list, a string: not an [ndarray], and not
    equal to [None]). *)
Inductive pyobj : Type :=
  | PyNone
  | PyArray (a : ndarray A)
  | PyOther.

(** The loop "CREATE GENERATORS": [input_generators] after the inputs from
    position [i] on have been visited.  An element of the result is a
    generator or [None]. *)
Fixpoint create_generators (i : nat) (estimator_inputs : list pyobj)
    (input_generators : list (option generator))
  : result (list (option generator)) :=
  match estimator_inputs with
  | [] => Ok input_generators
  | input :: rest =>
      match input with
      | PyArray a =>
          if decide (ndim a = 2 ∧ default 0 (shape a !! 1) = 1) then
            create_generators (S i) rest
              (input_generators ++ [Some (bootstrap_sample_generator_1D a)])
          else if decide (ndim a = 2 ∧ 1 < default 0 (shape a !! 1)) then
            create_generators (S i) rest
              (input_generators ++ [Some (bootstrap_sample_generator_2D a)])
          else if decide (ndim a = 3) then
            create_generators (S i) rest
              (input_generators ++ [Some (bootstrap_sample_generator_3D a)])
          else
            create_generators (S i) rest input_generators
      | PyNone =>
          create_generators (S i) rest (input_generators ++ [None])
      | PyOther => Raise (EstimatorInputError i)
      end
  end.

(** The inner loop of "BOOTSTRAPPING": the arguments of one call of the
    estimator. *)
Fixpoint generate_samples (input_generators : list (option generator))
    (args : list (option (ndarray A)))
  : rand (list (option (ndarray A))) :=
  match input_generators with
  | [] => mret args
  | None :: rest => generate_samples rest (args ++ [None])
  | Some gen_input :: rest =>
      a ← next gen_input; generate_samples rest (args ++ [Some a])
  end.

End generators.

(** The estimator with its keyword arguments: from the list of its
    positional arguments to the array it returns, or to an exception. *)
Definition estimator_fn : Type := list (option (ndarray R)) → result (ndarray R).

(** The loop "CONFIDENCE INTERVAL", one turn. *)
Definition confidence_interval_step (delta : R) (qoi_mean bootstrapped_qoi : ndarray R)
    (confidence_interval_qoi : ndarray num) (output_j : nat)
  : result (ndarray num) :=
  sub ← row bootstrapped_qoi output_j;
  std_qoi ← std_axis1 1 sub;
  mean_j ← column qoi_mean output_j;
  lower_bound ← map2 num_sub mean_j (scale delta std_qoi);
  upper_bound ← map2 num_add mean_j (scale delta std_qoi);
  ci ← assign_mid confidence_interval_qoi output_j 0 lower_bound;
  assign_mid ci output_j 1 upper_bound.

(** The part "CONFIDENCE INTERVAL" of [bootstrapping], from the filled
    [bootstrapped_qoi] to the value returned. *)
Definition confidence_interval (qoi_mean : ndarray R) (confidence_level : R)
    (n_qois n_outputs : nat) (bootstrapped_qoi : ndarray R)
  : result (ndarray num) :=
  let confidence_interval_qoi := zeros (Some 0%R) [n_outputs; n_qois; 2] in
  let delta := (- norm_ppf ((1 - confidence_level) / 2))%R in
  ci ← for_each (seq 0 n_outputs)
          (confidence_interval_step delta qoi_mean bootstrapped_qoi)
          confidence_interval_qoi;
  if decide (n_outputs = 1) then row ci 0 else Ok ci.

(** The part "BOOTSTRAPPING" of [bootstrapping], one turn. *)
Definition bootstrap_step (estimator : estimator_fn)
    (input_generators : list (option generator))
    (bootstrapped_qoi : ndarray R) (j : nat)
  : rand (ndarray R) :=
  args ← generate_samples input_generators [];
  lift (qoi ← estimator args;
        qoi_T ← transpose qoi;
        assign_last bootstrapped_qoi j qoi_T).

(** [Sensitivity.bootstrapping]. *)
Definition bootstrapping (estimator : estimator_fn)
    (estimator_inputs : list pyobj) (qoi_mean : ndarray R)
    (num_bootstrap_samples : nat) (confidence_level : R)
  : rand (ndarray num) :=
  n_qois ← lift (shape_at qoi_mean 0);
  n_outputs ← lift (shape_at qoi_mean 1);
  let bootstrapped_qoi := zeros 0%R [n_outputs; n_qois; num_bootstrap_samples] in
  input_generators ← lift (create_generators 0 estimator_inputs []);
  bootstrapped_qoi ← for_each_rand (seq 0 num_bootstrap_samples)
                        (bootstrap_step estimator input_generators)
                        bootstrapped_qoi;
  lift (confidence_interval qoi_mean confidence_level n_qois n_outputs
          bootstrapped_qoi).

(** [bootstrapped_qoi[output_j, q, :]] as a list: the values of one quantity
    of interest of one output over the bootstrap samples. *)
Definition bootstrap_values (bootstrapped_qoi : ndarray R) (output_j q n : nat)
  : option (list R) :=
  mapM (λ t, item bootstrapped_qoi [output_j; q; t]) (seq 0 n).

(** The entry for output [output_j], quantity [q] and bound [b] (0 for the
    lower bound, 1 for the upper one) of the array that [bootstrapping]
    returns: with one output the first axis is dropped. *)
Definition interval_bound (ci : ndarray num) (n_outputs output_j q b : nat)
  : option num :=
  if decide (n_outputs = 1) then item ci [q; b] else item ci [output_j; q; b].

(** The invariant of the loop "CONFIDENCE INTERVAL" for an output [j] that
    has had its turn: [confidence_interval_qoi[j, q, :]] is the interval
    around [qoi_mean[q, j]]. *)
Definition bounds_at (qoi_mean bq : ndarray R) (n : nat) (delta : R)
    (ci : ndarray num) (j q : nat) : Prop :=
  ∃ m xs,
    item qoi_mean [q; j] = Some m ∧
    bootstrap_values bq j q n = Some xs ∧ length xs = n ∧
    item ci [j; q; 0] = Some ((λ s, m - delta * s)%R <$> std 1 xs) ∧
    item ci [j; q; 1] = Some ((λ s, m + delta * s)%R <$> std 1 xs).

(** The interval [bootstrapping] has to return for output [j] and quantity
    [q], from the values [xs] of that quantity over the bootstrap samples:
    the mean minus and plus [delta] times the standard deviation of [xs] with
    divisor [n - 1], for [delta = -ppf((1 - confidence_level) / 2)]; and both
    bounds are the mean when that standard deviation is zero. *)
Definition interval_spec (qoi_mean bq : ndarray R) (confidence_level : R)
    (n_outputs n : nat) (ci : ndarray num) (j q : nat) : Prop :=
  ∃ m xs,
    item qoi_mean [q; j] = Some m ∧
    bootstrap_values bq j q n = Some xs ∧ length xs = n ∧
    let delta := (- norm_ppf ((1 - confidence_level) / 2))%R in
    let std_qoi :=
      if decide (1 < n) then
        Some (sqrt (sum_R ((λ x, (x - mean xs) * (x - mean xs))%R <$> xs)
                    / INR (n - 1)))
      else nan in
    interval_bound ci n_outputs j q 0 = Some ((λ s, m - delta * s)%R <$> std_qoi) ∧
    interval_bound ci n_outputs j q 1 = Some ((λ s, m + delta * s)%R <$> std_qoi) ∧
    (std_qoi = Some 0%R →
     interval_bound ci n_outputs j q 0 = Some (Some m) ∧
     interval_bound ci n_outputs j q 1 = Some (Some m)).

End sensitivity.

(** What NumPy promises of [randint]: an array of the shape asked for, with
    entries below [high].  (For [high = 0] NumPy raises unless the array
    asked for is empty; the generators ask for arrays that have [high] among
    their extents.) *)
Class RandomSourceLaws `{RandomSource} : Prop := {
  randint_shape g high sz : shape (randint g high sz).1 = sz;
  randint_wf g high sz : wf (randint g high sz).1;
  randint_range g high sz :
    0 < high → Forall (λ i, i < high) (data (randint g high sz).1)
}.

End Sensitivity.

(** * [UQpy/sampling/MonteCarloSampling.py] *)

Module MonteCarloSampling.
Import NumPy.

(** The states of a [numpy.random.RandomState] object, and
    [np.random.RandomState(seed)]. *)
Class RandomStates : Type := {
  rng : Type;
  RandomState : Z → rng
}.

Section sampler.
Context {val : Type} `{RandomStates}.

(** An element of an array of dtype [object]. *)
Inductive pyobj : Type :=
  | ONone
  | OFloat (v : val)
  | OArray (a : ndarray val).

(** An array of numbers or an array of objects. *)
Inductive pyarray : Type :=
  | FloatArray (a : ndarray val)
  | ObjectArray (a : ndarray pyobj).

Definition as_object (a : pyarray) : ndarray pyobj :=
  match a with
  | FloatArray a => NdArray (shape a) (OFloat <$> data a)
  | ObjectArray a => a
  end.

Definition as_float (a : pyarray) : option (ndarray val) :=
  match a with
  | FloatArray a => Some a
  | ObjectArray _ => None
  end.

(** An operation on arrays of any dtype, applied to a [pyarray]. *)
Definition py_lift1 (f : ∀ A, ndarray A → result (ndarray A)) (a : pyarray)
  : result pyarray :=
  match a with
  | FloatArray a => FloatArray <$> f val a
  | ObjectArray a => ObjectArray <$> f pyobj a
  end.

(** The same for a list of arrays: the result has dtype [object] as soon as
    one of them has. *)
Definition py_liftn (f : ∀ A, list (ndarray A) → result (ndarray A))
    (l : list pyarray) : result pyarray :=
  match mapM as_float l with
  | Some l' => FloatArray <$> f val l'
  | None => ObjectArray <$> f pyobj (as_object <$> l)
  end.

Definition py_len (a : pyarray) : result nat :=
  match a with
  | FloatArray a => len a
  | ObjectArray a => len a
  end.

Definition py_hstack : pyarray → result pyarray := py_lift1 (@hstack).
Definition py_transpose : pyarray → result pyarray := py_lift1 (@transpose).
Definition py_concatenate0 : list pyarray → result pyarray := py_liftn (@concatenate0).
Definition py_vstack : list pyarray → result pyarray := py_liftn (@vstack).

(** [np.array(y)] for a list [y] of numeric arrays.  Arrays of one shape
    are stacked.  Arrays of one axis and different lengths give an array of
    objects, one per array. *)
Definition np_array_rows (y : list (ndarray val)) : result pyarray :=
  if forallb (λ b, bool_decide (Some (shape b) = shape <$> head y)) y then
    FloatArray <$> stack y
  else if forallb (λ b, bool_decide (ndim b = 1)) y then
    Ok (ObjectArray (NdArray [length y] (OArray <$> y)))
  else Raise ShapeError.

(** [np.array(l)] for a list [l] of arrays of one dtype and one shape. *)
Definition np_array_list (l : list pyarray) : result pyarray :=
  match mapM as_float l with
  | Some l' => FloatArray <$> stack l'
  | None =>
      if forallb (λ a, bool_decide (as_float a = None)) l then
        ObjectArray <$> stack (as_object <$> l)
      else Raise ShapeError
  end.

(** The classes of [UQpy.distributions] that [_process_distributions]
    tells apart. *)
Inductive dist_class : Type :=
  | DistributionContinuous1D
  | DistributionND
  | OtherDistribution.

#[global] Instance dist_class_eq_dec : EqDecision dist_class.
Proof. solve_decision. Defined.

(** A [Distribution] object.  A method that the object does not have is
    [None]: [hasattr(d, 'rvs')] is [is_Some (rvs d)].  [rvs n g] is
    [d.rvs(nsamples=n, random_state=rs)] for a random state [rs] in state
    [g]: the array returned and the state of [rs] afterwards. *)
Record Distribution : Type := {
  class_of : dist_class;
  rvs : option (nat → rng → ndarray val * rng);
  cdf : option (ndarray val → ndarray val)
}.

(** The argument [distributions]: one object or a list. *)
Inductive distributions : Type :=
  | Single (d : Distribution)
  | DistList (l : list Distribution).

(** The type [RandomStateType]. *)
Inductive random_state_arg : Type :=
  | RSNone
  | RSInt (seed : Z)
  | RSObject (g : rng).

(** Modelled from the spec: [process_random_state] of
    [UQpy.utilities.Utilities], a file that is not among the sources.  The
    random-state argument is [None], an integer seed or a generator-state
    object; [None] stays [None], an integer seed is made a generator state
    at once ([numpy.random.RandomState(seed)]), and an object is passed on.
    The state of the object stands for the object. *)
Definition process_random_state (random_state : random_state_arg) : option rng :=
  match random_state with
  | RSNone => None
  | RSInt seed => Some (RandomState seed)
  | RSObject g => Some g
  end.

(** The values of the attribute [x]. *)
Inductive xvalue : Type :=
  | XNone
  | XArray (a : ndarray val)
  | XList (l : list pyarray).

(** The attributes of a [MonteCarloSampling] object ([list] and [array] are
    [list_flag] and [array_flag]) and, with them, the state of NumPy's
    global random source, which [rvs] uses when [random_state] is [None]. *)
Record sampler : Type := Sampler {
  dist_object : distributions;
  list_flag : bool;
  array_flag : bool;
  random_state : option rng;
  samples : option pyarray;
  x : xvalue;
  samplesU01 : option (list pyarray + pyarray);
  samples_number : option Z;
  np_random : rng
}.

Definition set_random_state (v : option rng) (s : sampler) : sampler :=
  Sampler (dist_object s) (list_flag s) (array_flag s) v (samples s) (x s)
          (samplesU01 s) (samples_number s) (np_random s).
Definition set_samples (v : option pyarray) (s : sampler) : sampler :=
  Sampler (dist_object s) (list_flag s) (array_flag s) (random_state s) v (x s)
          (samplesU01 s) (samples_number s) (np_random s).
Definition set_x (v : xvalue) (s : sampler) : sampler :=
  Sampler (dist_object s) (list_flag s) (array_flag s) (random_state s)
          (samples s) v (samplesU01 s) (samples_number s) (np_random s).
Definition set_samplesU01 (v : option (list pyarray + pyarray)) (s : sampler)
  : sampler :=
  Sampler (dist_object s) (list_flag s) (array_flag s) (random_state s)
          (samples s) (x s) v (samples_number s) (np_random s).
Definition set_samples_number (v : option Z) (s : sampler) : sampler :=
  Sampler (dist_object s) (list_flag s) (array_flag s) (random_state s)
          (samples s) (x s) (samplesU01 s) v (np_random s).
Definition set_np_random (v : rng) (s : sampler) : sampler :=
  Sampler (dist_object s) (list_flag s) (array_flag s) (random_state s)
          (samples s) (x s) (samplesU01 s) (samples_number s) v.

(** A method: it may change the attributes and it may raise; what it changed
    before it raised stays changed. *)
Definition method (A : Type) : Type := sampler → result A * sampler.

#[global] Instance method_ret : MRet method := λ A a s, (Ok a, s).
#[global] Instance method_bind : MBind method := λ A B f m s,
  match m s with
  | (Ok a, s') => f a s'
  | (Raise e, s') => (Raise e, s')
  end.

Definition raise {A} (e : exn) : method A := λ s, (Raise e, s).
Definition lift {A} (r : result A) : method A := λ s, (r, s).
Definition get {A} (field : sampler → A) : method A := λ s, (Ok (field s), s).
Definition set {A} (setter : A → sampler → sampler) (v : A) : method unit :=
  λ s, (Ok tt, setter v s).

(** [d.rvs(nsamples=n, random_state=self.random_state)]: the draw advances
    the random state of the object, or the global one when there is none. *)
Definition call_rvs (f : nat → rng → ndarray val * rng) (n : nat)
  : method (ndarray val) :=
  λ s, match random_state s with
       | Some g => let '(a, g') := f n g in (Ok a, set_random_state (Some g') s)
       | None => let '(a, g') := f n (np_random s) in (Ok a, set_np_random g' s)
       end.

(** [_process_distributions]: the flags [list] and [array]. *)
Definition _process_distributions (d : distributions) : bool * bool :=
  match d with
  | DistList l =>
      let add_continuous_1d :=
        length (filter (λ d, class_of d = DistributionContinuous1D) l) in
      if decide (add_continuous_1d = length l) then (false, true)
      else (true, false)
  | Single _ => (false, true)
  end.

(** The first loop of [run]: one call of [rvs] per distribution. *)
Fixpoint draw_all (n : nat) (ds : list Distribution)
    (temp_samples : list (ndarray val)) : method (list (ndarray val)) :=
  match ds with
  | [] => mret temp_samples
  | d :: ds' =>
      match rvs d with
      | Some f => a ← call_rvs f n; draw_all n ds' (temp_samples ++ [a])
      | None => raise RvsMissing
      end
  end.

(** [np.array(y)] for the list [y] of the [j]-th draws of the
    distributions: one realization. *)
Definition realization (temp_samples : list (ndarray val)) (j : nat)
  : result pyarray :=
  y ← mapM (λ t, row t j) temp_samples; np_array_rows y.

(** The second loop of [run]: [self.x] receives one array per realization. *)
Fixpoint assemble (js : list nat) (temp_samples : list (ndarray val))
  : method unit :=
  match js with
  | [] => mret tt
  | j :: js' =>
      xj ← lift (realization temp_samples j);
      x_old ← get x;
      _ ← set set_x (match x_old with
                     | XList l => XList (l ++ [xj])
                     | _ => XList [xj]
                     end);
      assemble js' temp_samples
  end.

(** [np.array(self.x)]. *)
Definition np_array_x (v : xvalue) : result pyarray :=
  match v with
  | XNone => Ok (ObjectArray (NdArray [] [ONone]))
  | XArray a => Ok (FloatArray a)
  | XList l => np_array_list l
  end.

Definition is_dist_list (d : distributions) : bool :=
  match d with
  | DistList _ => true
  | Single _ => false
  end.

(** [self.random_state] and [self.samples_number], for the methods whose
    parameters have the names of these attributes. *)
Definition self_random_state : sampler → option rng := random_state.
Definition self_samples_number : sampler → option Z := samples_number.

(** The first half of the body of [run]: [self.x] receives the new points. *)
Definition draw_samples (n : nat) : method unit :=
  dist ← get dist_object;
  match dist with
  | DistList ds =>
      temp_samples ← draw_all n ds [];
      _ ← set set_x (XList []);
      assemble (seq 0 n) temp_samples
  | Single d =>
      match rvs d with
      | Some f => temp_samples ← call_rvs f n; set set_x (XArray temp_samples)
      | None => mret tt
      end
  end.

(** The new points as an array: [np.hstack(np.array(self.x)).T] for a list
    of one-dimensional distributions, [np.array(self.x)] otherwise. *)
Definition batch (dist : distributions) (array : bool) (xv : xvalue)
  : result pyarray :=
  xa ← np_array_x xv;
  if (is_dist_list dist && array)%bool
  then h ← py_hstack xa; py_transpose h
  else Ok xa.

(** The second half of the body of [run]: [self.samples] receives the new
    points, after the ones it has, and [self.samples_number] its length. *)
Definition store_samples : method unit :=
  dist ← get dist_object;
  old_samples ← get samples;
  array ← get array_flag;
  xv ← get x;
  new ← lift (batch dist array xv);
  _ ← match old_samples with
      | None => set set_samples (Some new)
      | Some old =>
          s ← lift (if (is_dist_list dist && array)%bool
                    then py_concatenate0 [old; new]
                    else py_vstack [old; new]);
          set set_samples (Some s)
      end;
  cur ← get samples;
  l ← lift (match cur with
            | Some a => py_len a
            | None => Raise LenOfUnsized
            end);
  set set_samples_number (Some (Z.of_nat l)).

(** [MonteCarloSampling.run].  [PositiveInteger] is checked by [beartype]
    before the body runs.  The type is declared in
    [UQpy.utilities.ValidationTypes], a file that is not among the sources;
    its check is modelled from the spec: a count must be a positive
    integer, and zero and negative counts are rejected. *)
Definition run (samples_number : Z) (random_state : random_state_arg)
  : method unit :=
  if decide (0 < samples_number)%Z then
    old_state ← get self_random_state;
    _ ← set set_random_state
          (match random_state with
           | RSNone => old_state
           | _ => process_random_state random_state
           end);
    _ ← draw_samples (Z.to_nat samples_number);
    store_samples
  else raise BeartypeViolation.

(** [MonteCarloSampling.__init__]: the object before [run] is called, and
    the constructor. *)
Definition new (dist : distributions) (samples_number : option Z)
    (random_state : random_state_arg) (np_random : rng) : sampler :=
  let '(l, a) := _process_distributions dist in
  Sampler dist l a (process_random_state random_state) None XNone None
          samples_number np_random.

Definition __init__ (dist : distributions) (samples_number : option Z)
    (random_state : random_state_arg) (np_random : rng)
  : result unit * sampler :=
  let self := new dist samples_number random_state np_random in
  match samples_number with
  | Some n =>
      run n (match self_random_state self with
             | Some g => RSObject g
             | None => RSNone
             end) self
  | None => (Ok tt, self)
  end.

(** ** What the claims about [run] speak of *)

Definition py_shape (a : pyarray) : list nat :=
  match a with
  | FloatArray a => shape a
  | ObjectArray a => shape a
  end.

Definition py_wf (a : pyarray) : Prop :=
  match a with
  | FloatArray a => wf a
  | ObjectArray a => wf a
  end.

Definition py_is_float (a : pyarray) : bool :=
  match a with
  | FloatArray _ => true
  | ObjectArray _ => false
  end.

(** [samples[j]]: one point of the collection. *)
Definition py_row (a : pyarray) (j : nat) : result pyarray :=
  py_lift1 (λ A a, row a j) a.

(** The random state that [run] draws from: the one of its argument, or the
    one of the object, or NumPy's global one. *)
Definition start_state (random_state : random_state_arg) (s : sampler) : rng :=
  default (np_random s)
    (match random_state with
     | RSNone => self_random_state s
     | _ => process_random_state random_state
     end).

(** The random state that a call of [rvs] reads and advances. *)
Definition current_state (s : sampler) : rng :=
  default (np_random s) (random_state s).

(** Two states of an object that differ in the random states at most. *)
Definition same_attributes (s s' : sampler) : Prop :=
  dist_object s' = dist_object s ∧ list_flag s' = list_flag s ∧
  array_flag s' = array_flag s ∧ samples s' = samples s ∧ x s' = x s ∧
  samplesU01 s' = samplesU01 s ∧ samples_number s' = samples_number s.

(** The arrays that the [rvs] methods [fs] return when they are called for
    [n] points one after the other on one random state that starts in [g]:
    each draws from the state that the one before has left. *)
Fixpoint draws (n : nat) (fs : list (nat → rng → ndarray val * rng)) (g : rng)
  : list (ndarray val) :=
  match fs with
  | [] => []
  | f :: fs' => (f n g).1 :: draws n fs' (f n g).2
  end.

(** What a distribution promises of [rvs] (the contract of the distribution
    layer): the method is there, and called for [n] points with the
    distribution of dimension [dim] it returns an array of shape [(n, dim)];
    the dimension of a [DistributionContinuous1D] is 1. *)
Definition rvs_returns (d : Distribution) (dim : nat)
    (f : nat → rng → ndarray val * rng) : Prop :=
  rvs d = Some f ∧
  (class_of d = DistributionContinuous1D → dim = 1) ∧
  ∀ n g, shape (f n g).1 = [n; dim] ∧ wf (f n g).1.

(** The distributions of a sampler keep that promise; a list has at least
    one element. *)
Definition well_behaved (dist : distributions) (dims : list nat) : Prop :=
  match dist with
  | Single d => ∃ dim f, dims = [dim] ∧ rvs_returns d dim f
  | DistList ds =>
      ds ≠ [] ∧
      ∃ fs, Forall3 (λ d dim f, rvs_returns d dim f) ds dims fs
  end.

(** The shape of one realization of distributions of dimensions [dims], and
    whether it is an array of numbers: one row per distribution when they
    all have one dimension, and else one object per distribution. *)
Definition row_layout (dims : list nat) : list nat * bool :=
  match dims with
  | dim :: _ =>
      if forallb (λ d, bool_decide (d = dim)) dims
      then ([length dims; dim], true)
      else ([length dims], false)
  | [] => ([0], true)
  end.

(** The shape of one point of the collection, and whether the collection is
    an array of numbers: one number per dimension of the one distribution;
    one number per distribution of a list of one-dimensional distributions;
    for another list, one realization. *)
Definition point_layout (dist : distributions) (dims : list nat)
  : list nat * bool :=
  match dist with
  | Single _ => (dims, true)
  | DistList ds =>
      if snd (_process_distributions dist) then ([length ds], true)
      else row_layout dims
  end.

(** The collection of the object holds [n0] points of the layout of the
    distributions. *)
Definition holds (dist : distributions) (dims : list nat) (s : sampler)
    (n0 : nat) (a : pyarray) : Prop :=
  samples s = Some a ∧ py_wf a ∧
  py_shape a = n0 :: (point_layout dist dims).1 ∧
  py_is_float a = (point_layout dist dims).2.

(** Two calls of [run] on the object [s0], for [n1] and then [n2] points:
    both return, the collection has [n1 + n2] points, which is also
    [samples_number], and its first [n1] points are the points of the
    collection after the first call. *)
Definition run_twice_appends (s0 : sampler) (n1 : Z) (rs1 : random_state_arg)
    (n2 : Z) (rs2 : random_state_arg) : Prop :=
  ∃ s1 s2 a1 a2,
    run n1 rs1 s0 = (Ok tt, s1) ∧ samples s1 = Some a1 ∧
    run n2 rs2 s1 = (Ok tt, s2) ∧ samples s2 = Some a2 ∧
    py_len a1 = Ok (Z.to_nat n1) ∧
    py_len a2 = Ok (Z.to_nat n1 + Z.to_nat n2) ∧
    samples_number s2 = Some (n1 + n2)%Z ∧
    ∀ j, j < Z.to_nat n1 → ∃ r, py_row a1 j = Ok r ∧ py_row a2 j = Ok r.

(** A call of [run] for [n] points on the object [s0] with the list [ds] of
    distributions, whose [rvs] methods are [fs]: it returns, [samples] is an
    array of shape [(n, len(ds))], and its column [k] holds the draws of
    distribution [k], where the distributions draw in the order of the list
    from the one random state of the call. *)
Definition run_fills_columns (ds : list Distribution)
    (fs : list (nat → rng → ndarray val * rng)) (s0 : sampler)
    (n : Z) (rs : random_state_arg) : Prop :=
  ∃ s' a,
    run n rs s0 = (Ok tt, s') ∧ samples s' = Some (FloatArray a) ∧
    shape a = [Z.to_nat n; length ds] ∧
    ∀ j k, j < Z.to_nat n → k < length ds →
      ∃ t v, draws (Z.to_nat n) fs (start_state rs s0) !! k = Some t ∧
             item t [j; 0] = Some v ∧ item a [j; k] = Some v.

(** The reading of the columns that [run_fills_columns] is compared with:
    every column [k] is what distribution [k] draws when it samples alone
    from the random state that the call starts in, the state of the seed. *)
Definition columns_match_standalone (ds : list Distribution)
    (fs : list (nat → rng → ndarray val * rng)) (s0 : sampler)
    (n : Z) (rs : random_state_arg) : Prop :=
  ∃ s' a,
    run n rs s0 = (Ok tt, s') ∧ samples s' = Some (FloatArray a) ∧
    shape a = [Z.to_nat n; length ds] ∧
    ∀ j k, j < Z.to_nat n → k < length ds →
      ∃ f v, fs !! k = Some f ∧
             item (f (Z.to_nat n) (start_state rs s0)).1 [j; 0] = Some v ∧
             item a [j; k] = Some v.

End sampler.
End MonteCarloSampling.

(** * [UQpy/utilities/kernels/baseclass/GrassmannianKernel.py] *)

Module GrassmannianKernel.
Import NumPy.

Section kernel.
Context {val : Type}.

(** A [GrassmannPoint] object: its attribute [data], an array of two axes.
    The constructor validates its argument; on the leading columns of the
    data of a valid point the validation succeeds, so that the constructor
    is modelled as total. *)
Record GrassmannPoint : Type := { point_data : ndarray val }.

(** The abstract method [kernel_entry] of the subclasses. *)
Class Kernel : Type := { kernel_entry : GrassmannPoint → GrassmannPoint → val }.

Context `{Kernel}.

(** [list(itertools.combinations_with_replacement(range(n), 2))]. *)
Definition combinations_with_replacement (n : nat) : list (nat * nat) :=
  i ← seq 0 n; (λ j, (i, j)) <$> seq i (n - i).

(** The point passed to [kernel_entry] for [points[i]]: the point itself
    when [not p] holds ([p] is [None] or [0]), and else a new point on
    [points[i].data[:, :p]]. *)
Definition truncate (p : option Z) (x : GrassmannPoint) : result GrassmannPoint :=
  match p with
  | None => Ok x
  | Some p' =>
      if decide (p' = 0%Z) then Ok x
      else d ← take_columns (point_data x) p'; Ok {| point_data := d |}
  end.

(** The entry for the pair [(i, j)]: [self.kernel_entry(xi, xj)]. *)
Definition entry (points : list GrassmannPoint) (p : option Z) (i j : nat)
  : result val :=
  pi ← of_option IndexError (points !! i);
  pj ← of_option IndexError (points !! j);
  xi ← truncate p pi;
  xj ← truncate p pj;
  Ok (kernel_entry xi xj).

(** One turn of the loop over the pairs.  The state is [kernel] and the
    list of the pairs for which [kernel_entry] has been called. *)
Definition kernel_step (points : list GrassmannPoint) (p : option Z)
    (st : ndarray val * list (nat * nat)) (pair : nat * nat)
  : result (ndarray val * list (nat * nat)) :=
  let '(kernel, calls) := st in
  let '(i, j) := pair in
  e ← entry points p i j;
  kernel ← assign_item kernel i j e;
  kij ← of_option IndexError (item kernel [i; j]);
  kernel ← assign_item kernel j i kij;
  Ok (kernel, calls ++ [(i, j)]).

(** [calculate_kernel_matrix], with the calls of [kernel_entry] it made.
    [zero] is the number [0.0]. *)
Definition calculate_kernel_matrix_calls (zero : val)
    (points : list GrassmannPoint) (p : option Z)
  : result (ndarray val * list (nat * nat)) :=
  let nargs := length points in
  let pairs := combinations_with_replacement nargs in
  let kernel := zeros zero [nargs; nargs] in
  for_each pairs (kernel_step points p) (kernel, []).

Definition calculate_kernel_matrix (zero : val)
    (points : list GrassmannPoint) (p : option Z) : result (ndarray val) :=
  fst <$> calculate_kernel_matrix_calls zero points p.

(** The data of a point is an array of two axes. *)
Definition valid_point (x : GrassmannPoint) : Prop :=
  ∃ r c, shape (point_data x) = [r; c] ∧ wf (point_data x).


End kernel.
End GrassmannianKernel.

(** * The inputs of the estimator and their generators *)

Module EstimatorInputs.
Import NumPy Sensitivity.

Section inputs.
Context {A : Type}.

(** The generator that the loop "CREATE GENERATORS" stores for an input:
    [None] for [None], the 1-D generator for an array of shape [(n, 1)], the
    2-D generator for an array of shape [(n, m)] with [m > 1], the 3-D
    generator for an array of three axes.  There is none for another
    input. *)
Definition generator_for (input : @pyobj A) (gen : option (@generator A))
  : Prop :=
  match input with
  | PyNone => gen = None
  | PyArray a =>
      (∃ n, shape a = [n; 1] ∧ gen = Some (bootstrap_sample_generator_1D a)) ∨
      (∃ n m, shape a = [n; m] ∧ 1 < m ∧
              gen = Some (bootstrap_sample_generator_2D a)) ∨
      (∃ d n m, shape a = [d; n; m] ∧
                gen = Some (bootstrap_sample_generator_3D a))
  | PyOther => False
  end.

(** An input for which there is a generator: [None], or an array of two
    axes with at least one column, or an array of three axes. *)
Definition accepted (input : @pyobj A) : Prop :=
  match input with
  | PyNone => True
  | PyArray a =>
      wf a ∧ ((∃ n m, shape a = [n; m] ∧ 0 < m) ∨ ∃ d n m, shape a = [d; n; m])
  | PyOther => False
  end.

(** [b] holds entries of [a], each in its own column.  For two axes, the
    entry [(r, c)] of [b] is an entry [a[i, c]] of the same column of [a].
    For three axes, one row [i] serves every slice: the entries
    [b[k, r, c]] are the entries [a[k, i, c]], for every [k] with the same
    [i]. *)
Definition drawn_from (a b : ndarray A) : Prop :=
  match shape a with
  | [n; m] =>
      ∀ r c, r < n → c < m →
        ∃ i x, i < n ∧ item a [i; c] = Some x ∧ item b [r; c] = Some x
  | [d; n; m] =>
      ∀ r c, r < n → c < m →
        ∃ i, i < n ∧
             ∀ k, k < d → ∃ x, item a [k; i; c] = Some x ∧
                               item b [k; r; c] = Some x
  | _ => False
  end.

(** An argument of the estimator for an input: [None] for [None], and for
    an array an array of the same shape whose entries are drawn from the
    columns of the input. *)
Definition resampled (input : @pyobj A) (arg : option (ndarray A)) : Prop :=
  match input with
  | PyNone => arg = None
  | PyArray a => ∃ b, arg = Some b ∧ shape b = shape a ∧ wf b ∧ drawn_from a b
  | PyOther => False
  end.

End inputs.
End EstimatorInputs.

(** * What [run] leaves as it is *)

Module SamplerInvariants.
Import MonteCarloSampling.

Section invariants.
Context {val : Type} `{RandomStates}.

(** The attributes that [_process_distributions] has set, and [samplesU01],
    are in [s'] what they are in [s]. *)
Definition keeps_distributions (s s' : @sampler val _) : Prop :=
  dist_object s' = dist_object s ∧ list_flag s' = list_flag s ∧
  array_flag s' = array_flag s ∧ samplesU01 s' = samplesU01 s.

End invariants.
End SamplerInvariants.

(** * [MonteCarloSampling.transform_u01] *)

Module TransformU01.
Import NumPy MonteCarloSampling.

(** What a call of [transform_u01] comes to.  The method calls [cdf] on
    pieces of [samples] and stores what [cdf] returns.  The model follows it
    as long as these pieces are arrays of numbers; where [cdf] would be
    called on an object that is not an array of numbers, or its result be
    stored in an array of objects, the model stops with [Unmodelled]. *)
Inductive outcome (A : Type) : Type :=
  | Returns (a : A)
  | Raises (e : exn)
  | Unmodelled.
Arguments Returns {A} a.
Arguments Raises {A} e.
Arguments Unmodelled {A}.

(** [a[pre..., :, ...] = v] for integers [pre] followed by [slices] slices
    [:]: the array [a] after the assignment.  [v] is broadcast to the shape
    of the part assigned to; unit axes that [v] has in excess are dropped
    from the left first, so that an array with one element can be assigned
    to one position. *)
Fixpoint strip_ones (sh : list nat) (m : nat) : list nat :=
  match sh with
  | n :: sh' =>
      if decide (n = 1 ∧ m < length sh) then strip_ones sh' m else sh
  | [] => []
  end.

Definition assign_at {A} (a : ndarray A) (pre : list nat) (slices : nat)
    (v : ndarray A) : result (ndarray A) :=
  let k := length pre in
  if decide (k + slices ≤ ndim a ∧ is_Some (ravel (take k (shape a)) pre)) then
    let target := drop k (shape a) in
    let v' := NdArray (strip_ones (shape v) (length target)) (data v) in
    if broadcastable (shape v') target then
      gather (shape a)
        (λ idx, if decide (take k idx = pre) then bitem v' (drop k idx)
                else item a idx)
    else Raise ShapeError
  else Raise IndexError.

Section transform.
Context {val : Type} `{RandomStates}.

(** The number [0.0]. *)
Context (zero : val).

Local Abbreviation sampler := (@sampler val _).
Local Abbreviation pyarray := (@pyarray val).
Local Abbreviation pyobj := (@pyobj val).
Local Abbreviation Distribution := (@Distribution val _).
Local Abbreviation dist_object := (@dist_object val _).
Local Abbreviation array_flag := (@array_flag val _).
Local Abbreviation list_flag := (@list_flag val _).
Local Abbreviation samples := (@samples val _).
Local Abbreviation self_samples_number := (@self_samples_number val _).
Local Abbreviation set_samplesU01 := (@set_samplesU01 val _).

(** A method of the object in this model. *)
Definition umethod (A : Type) : Type := sampler → outcome A * sampler.

#[global] Instance umethod_ret : MRet umethod := λ A a s, (Returns a, s).
#[global] Instance umethod_bind : MBind umethod := λ A B f m s,
  match m s with
  | (Returns a, s') => f a s'
  | (Raises e, s') => (Raises e, s')
  | (Unmodelled, s') => (Unmodelled, s')
  end.

Definition uraise {A} (e : exn) : umethod A := λ s, (Raises e, s).
Definition unmodelled {A} : umethod A := λ s, (Unmodelled, s).
Definition ulift {A} (r : result A) : umethod A :=
  λ s, (match r with Ok a => Returns a | Raise e => Raises e end, s).
Definition uget {A} (field : sampler → A) : umethod A :=
  λ s, (Returns (field s), s).
Definition uset {A} (setter : A → sampler → sampler) (v : A) : umethod unit :=
  λ s, (Returns tt, setter v s).

(** [for x in xs: st = body(st, x)] inside a method. *)
Fixpoint for_each_u {S X} (xs : list X) (body : S → X → umethod S) (st : S)
  : umethod S :=
  match xs with
  | [] => mret st
  | x :: xs' => st' ← body st x; for_each_u xs' body st'
  end.

(** [np.zeros_like(self.samples)].  For [None] and for an array of objects
    the zeros are objects (the integer [0], which the model does not tell
    from the number [0.0]). *)
Definition zeros_like (a : option pyarray) : pyarray :=
  match a with
  | None => ObjectArray (NdArray [] [OFloat zero])
  | Some (FloatArray a) => FloatArray (zeros zero (shape a))
  | Some (ObjectArray a) => ObjectArray (zeros (OFloat zero) (shape a))
  end.

(** [range(self.samples_number)]. *)
Definition py_range (n : option Z) : result (list nat) :=
  match n with
  | None => Raise NoneAsInteger
  | Some n => Ok (seq 0 (Z.to_nat n))
  end.

(** [self.samples[i, :]]. *)
Definition row_slice (a : option pyarray) (i : nat) : result pyarray :=
  match a with
  | None => Raise NotSubscriptable
  | Some a =>
      if decide (2 ≤ length (py_shape a)) then py_row a i else Raise IndexError
  end.

(** An element of an array of objects that is an array of numbers is that
    array. *)
Definition unbox (a : ndarray pyobj) : pyarray :=
  match shape a, data a with
  | [], [OArray b] => FloatArray b
  | _, _ => ObjectArray a
  end.

(** [z[j]]: a sub-array, a number, or an object. *)
Definition py_item (z : pyarray) (j : nat) : result pyarray :=
  match z with
  | FloatArray a => FloatArray <$> row a j
  | ObjectArray a => unbox <$> row a j
  end.

(** [self.samples[i][:]].  A number cannot be sliced ([IndexError] for a
    NumPy number), and an object that is not an array cannot be
    subscripted ([TypeError]). *)
Definition item_slice (a : option pyarray) (i : nat) : result pyarray :=
  match a with
  | None => Raise NotSubscriptable
  | Some a =>
      z ← py_item a i;
      match z with
      | FloatArray b => if decide (ndim b = 0) then Raise IndexError else Ok z
      | ObjectArray b =>
          if decide (ndim b = 0) then Raise NotSubscriptable else Ok z
      end
  end.

(** [d.cdf(x)]. *)
Definition call_cdf (f : ndarray val → ndarray val) (x : pyarray)
  : umethod (ndarray val) :=
  match x with
  | FloatArray a => mret (f a)
  | ObjectArray _ => unmodelled
  end.

(** [zi[pre..., :, ...] = v]. *)
Definition store (zi : pyarray) (pre : list nat) (slices : nat)
    (v : ndarray val) : umethod pyarray :=
  match zi with
  | FloatArray a => ulift (FloatArray <$> assign_at a pre slices v)
  | ObjectArray _ => unmodelled
  end.

(** The body of the inner loop of the first branch:
    [zi[i, j] = self.dist_object[j].cdf(z[j])], or the error of the missing
    method. *)
Definition cdf_entry (ds : list Distribution) (z : pyarray) (i : nat)
    (zi : pyarray) (j : nat) : umethod pyarray :=
  d ← ulift (of_option IndexError (ds !! j));
  match cdf d with
  | Some f => zj ← ulift (py_item z j); v ← call_cdf f zj; store zi [i; j] 0 v
  | None => uraise CdfMissing
  end.

(** The body of the outer loop of the first branch: the row [i] of [zi]. *)
Definition cdf_entries (ds : list Distribution) (smp : option pyarray)
    (zi : pyarray) (i : nat) : umethod pyarray :=
  z ← ulift (row_slice smp i);
  for_each_u (seq 0 (length ds)) (cdf_entry ds z i) zi.

(** The body of the loop of the second branch:
    [z = self.samples[i, :]; zi[i, :] = self.dist_object.cdf(z)]. *)
Definition cdf_row (f : ndarray val → ndarray val) (smp : option pyarray)
    (zi : pyarray) (i : nat) : umethod pyarray :=
  z ← ulift (row_slice smp i); v ← call_cdf f z; store zi [i] 1 v.

(** The body of the inner loop of the third branch: [y[j]] receives
    [self.dist_object[j].cdf(z[j])]. *)
Definition cdf_object (ds : list Distribution) (z : pyarray)
    (y : list (option (ndarray val))) (j : nat)
  : umethod (list (option (ndarray val))) :=
  d ← ulift (of_option IndexError (ds !! j));
  match cdf d with
  | Some f => zj ← ulift (py_item z j); v ← call_cdf f zj; mret (<[j := Some v]> y)
  | None => uraise CdfMissing
  end.

(** [np.array(y)] for the list [y], once each of its places has received an
    array. *)
Definition np_array_y (y : list (option (ndarray val))) : umethod pyarray :=
  match mapM (M := option) (λ o : option (ndarray val), o) y with
  | Some l => ulift (np_array_rows l)
  | None => unmodelled
  end.

(** The body of the outer loop of the third branch: [temp_samples_u01]
    receives the array of the values of realization [i]. *)
Definition cdf_objects (ds : list Distribution) (smp : option pyarray)
    (temp_samples_u01 : list pyarray) (i : nat) : umethod (list pyarray) :=
  z ← ulift (item_slice smp i);
  y ← for_each_u (seq 0 (length ds)) (cdf_object ds z)
        (replicate (length ds) None);
  a ← np_array_y y;
  mret (temp_samples_u01 ++ [a]).

(** [MonteCarloSampling.transform_u01]. *)
Definition transform_u01 : umethod unit :=
  dist ← uget dist_object;
  array ← uget array_flag;
  list ← uget list_flag;
  smp ← uget samples;
  match dist with
  | DistList ds =>
      if (array : bool) then
        let zi := zeros_like smp in
        n ← uget self_samples_number;
        rows ← ulift (py_range n);
        zi ← for_each_u rows (cdf_entries ds smp) zi;
        uset set_samplesU01 (Some (inr zi))
      else if (list : bool) then
        n ← uget self_samples_number;
        rows ← ulift (py_range n);
        temp_samples_u01 ← for_each_u rows (cdf_objects ds smp) [];
        uset set_samplesU01 (Some (inl temp_samples_u01))
      else mret tt
  | Single d =>
      match cdf d with
      | Some f =>
          let zi := zeros_like smp in
          n ← uget self_samples_number;
          rows ← ulift (py_range n);
          zi ← for_each_u rows (cdf_row f smp) zi;
          uset set_samplesU01 (Some (inr zi))
      | None => uraise CdfMissing
      end
  end.

(** ** What the properties of [transform_u01] speak of *)

(** What a distribution promises of [cdf] on one number: an array with one
    element (the probability). *)
Definition cdf_of_number (d : Distribution) (F : val → val) : Prop :=
  ∃ f, cdf d = Some f ∧
       ∀ x, ∃ sh, f (NdArray [] [x]) = NdArray sh [F x] ∧ size sh = 1.

End transform.
End TransformU01.

(** * [Sensitivity.bootstrapping] on binary64 numbers *)

(** The numbers of a [float64] array are the binary64 numbers of IEEE 754,
    with their infinities, their two zeros and [nan]: Rocq's primitive
    floats, whose operations are those of the processor.  The module
    [Sensitivity] computes on real numbers.  This module is
    [bootstrapping] once more, statement by statement, on the numbers of the
    program; the generators and the loops are those of [Sensitivity]. *)

Module SensitivityBinary64.
Import NumPy Sensitivity.
Import PrimFloat.PrimFloatNotations.

Abbreviation float := PrimFloat.float.

(** The two functions of other libraries that [bootstrapping] calls on
    numbers.  [norm_ppf q] is [scipy.stats.norm.ppf(q)]; SciPy returns
    [-inf] at 0, [inf] at 1 and [nan] outside of the interval from 0 to 1.
    [np_std ddof xs] is the entry of [np.std(a, axis=1, ddof=ddof)] for a
    row [xs] of [a]: the standard deviation of [xs] with the divisor
    [len(xs) - ddof], as NumPy computes it. *)
Class Statistics : Type := {
  norm_ppf : float → float;
  np_std : nat → list float → float
}.

(** Two numbers are the same: the same binary64 number, or two zeros (the
    zeros [0.0] and [-0.0] are equal, and they are the one pair of numbers
    that differ and are equal). *)
Definition same_value (a b : float) : Prop :=
  a = b ∨ (PrimFloat.is_zero a = true ∧ PrimFloat.is_zero b = true).

Section bootstrapping.
Context `{RandomSource} `{Statistics}.

(** The product of a number and an array. *)
Definition scale (c : float) (a : ndarray float) : ndarray float :=
  NdArray (shape a) (PrimFloat.mul c <$> data a).

(** [np.std(a, axis=1, ddof=ddof)] on an array of two axes. *)
Definition std_axis1 (ddof : nat) (a : ndarray float) : result (ndarray float) :=
  match shape a with
  | [d0; d1] =>
      gather [d0]
        (λ idx, match idx with
                | [q] => xs ← mapM (λ t, item a [q; t]) (seq 0 d1);
                         Some (np_std ddof xs)
                | _ => None
                end)
  | _ => Raise IndexError
  end.

(** The estimator with its keyword arguments. *)
Definition estimator_fn : Type :=
  list (option (ndarray float)) → result (ndarray float).

(** The loop "CONFIDENCE INTERVAL", one turn. *)
Definition confidence_interval_step (delta : float)
    (qoi_mean bootstrapped_qoi confidence_interval_qoi : ndarray float)
    (output_j : nat) : result (ndarray float) :=
  sub ← row bootstrapped_qoi output_j;
  std_qoi ← std_axis1 1 sub;
  mean_j ← column qoi_mean output_j;
  lower_bound ← map2 PrimFloat.sub mean_j (scale delta std_qoi);
  upper_bound ← map2 PrimFloat.add mean_j (scale delta std_qoi);
  ci ← assign_mid confidence_interval_qoi output_j 0 lower_bound;
  assign_mid ci output_j 1 upper_bound.

(** [-scipy.stats.norm.ppf((1 - confidence_level) / 2)]. *)
Definition half_width_factor (confidence_level : float) : float :=
  (- norm_ppf ((PrimFloat.one - confidence_level) / PrimFloat.two))%float.

(** The part "CONFIDENCE INTERVAL" of [bootstrapping], from the filled
    [bootstrapped_qoi] to the value returned. *)
Definition confidence_interval (qoi_mean : ndarray float)
    (confidence_level : float) (n_qois n_outputs : nat)
    (bootstrapped_qoi : ndarray float) : result (ndarray float) :=
  let confidence_interval_qoi := zeros PrimFloat.zero [n_outputs; n_qois; 2] in
  let delta := half_width_factor confidence_level in
  ci ← for_each (seq 0 n_outputs)
          (confidence_interval_step delta qoi_mean bootstrapped_qoi)
          confidence_interval_qoi;
  if decide (n_outputs = 1) then row ci 0 else Ok ci.

(** The part "BOOTSTRAPPING" of [bootstrapping], one turn. *)
Definition bootstrap_step (estimator : estimator_fn)
    (input_generators : list (option generator))
    (bootstrapped_qoi : ndarray float) (j : nat)
  : rand (ndarray float) :=
  args ← generate_samples input_generators [];
  lift (qoi ← estimator args;
        qoi_T ← transpose qoi;
        assign_last bootstrapped_qoi j qoi_T).

(** [Sensitivity.bootstrapping]. *)
Definition bootstrapping (estimator : estimator_fn)
    (estimator_inputs : list pyobj) (qoi_mean : ndarray float)
    (num_bootstrap_samples : nat) (confidence_level : float)
  : rand (ndarray float) :=
  n_qois ← lift (shape_at qoi_mean 0);
  n_outputs ← lift (shape_at qoi_mean 1);
  let bootstrapped_qoi :=
    zeros PrimFloat.zero [n_outputs; n_qois; num_bootstrap_samples] in
  input_generators ← lift (create_generators 0 estimator_inputs []);
  bootstrapped_qoi ← for_each_rand (seq 0 num_bootstrap_samples)
                        (bootstrap_step estimator input_generators)
                        bootstrapped_qoi;
  lift (confidence_interval qoi_mean confidence_level n_qois n_outputs
          bootstrapped_qoi).

(** [bootstrapped_qoi[output_j, q, :]] as a list. *)
Definition bootstrap_values (bootstrapped_qoi : ndarray float)
    (output_j q n : nat) : option (list float) :=
  mapM (λ t, item bootstrapped_qoi [output_j; q; t]) (seq 0 n).

(** The entry for output [output_j], quantity [q] and bound [b] of the array
    that [bootstrapping] returns: with one output the first axis is
    dropped. *)
Definition interval_bound (ci : ndarray float) (n_outputs output_j q b : nat)
  : option float :=
  if decide (n_outputs = 1) then item ci [q; b] else item ci [output_j; q; b].

(** The invariant of the loop "CONFIDENCE INTERVAL" for an output [j] that
    has had its turn. *)
Definition bounds_at (qoi_mean bq : ndarray float) (n : nat) (delta : float)
    (ci : ndarray float) (j q : nat) : Prop :=
  ∃ m xs,
    item qoi_mean [q; j] = Some m ∧
    bootstrap_values bq j q n = Some xs ∧ length xs = n ∧
    item ci [j; q; 0] = Some (m - delta * np_std 1 xs)%float ∧
    item ci [j; q; 1] = Some (m + delta * np_std 1 xs)%float.

(** The interval for output [j] and quantity [q] as [bootstrapping] is
    described: from the values [xs] of that quantity over the bootstrap
    samples, the mean minus and plus [delta] times the standard deviation of
    [xs] with divisor [n - 1], for
    [delta = -ppf((1 - confidence_level) / 2)]; and whenever that standard
    deviation is zero, both bounds are the mean. *)
Definition interval_claim (qoi_mean bq : ndarray float)
    (confidence_level : float) (n_outputs n : nat) (ci : ndarray float)
    (j q : nat) : Prop :=
  ∃ m xs,
    item qoi_mean [q; j] = Some m ∧
    bootstrap_values bq j q n = Some xs ∧ length xs = n ∧
    let delta := half_width_factor confidence_level in
    let std_qoi := np_std 1 xs in
    let lower := (m - delta * std_qoi)%float in
    let upper := (m + delta * std_qoi)%float in
    interval_bound ci n_outputs j q 0 = Some lower ∧
    interval_bound ci n_outputs j q 1 = Some upper ∧
    (PrimFloat.is_zero std_qoi = true →
     same_value lower m ∧ same_value upper m).

(** The interval that [bootstrapping] returns for output [j] and quantity
    [q]: the same two bounds; and when the standard deviation is zero and
    [delta] is finite (neither an infinity nor [nan]), both bounds are the
    mean. *)
Definition interval_spec (qoi_mean bq : ndarray float)
    (confidence_level : float) (n_outputs n : nat) (ci : ndarray float)
    (j q : nat) : Prop :=
  ∃ m xs,
    item qoi_mean [q; j] = Some m ∧
    bootstrap_values bq j q n = Some xs ∧ length xs = n ∧
    let delta := half_width_factor confidence_level in
    let std_qoi := np_std 1 xs in
    let lower := (m - delta * std_qoi)%float in
    let upper := (m + delta * std_qoi)%float in
    interval_bound ci n_outputs j q 0 = Some lower ∧
    interval_bound ci n_outputs j q 1 = Some upper ∧
    (PrimFloat.is_zero std_qoi = true → PrimFloat.is_finite delta = true →
     same_value lower m ∧ same_value upper m).

End bootstrapping.
End SensitivityBinary64.

(** * Concrete collaborators, for the examples *)

Module Examples.
Import NumPy.

(** A random source whose state is a counter: the entry at flat position
    [i] of a draw in state [g] is [(g + 7 * i) mod high], and the draw
    advances the counter by the number of entries. *)
#[export] Instance counter_source : Sensitivity.RandomSource := {|
  Sensitivity.rng := nat;
  Sensitivity.randint g high sz :=
    (NdArray sz ((λ i, (g + 7 * i) `mod` high) <$> seq 0 (size sz)),
     g + size sz)
|}.

(** A quantile function that is constant: [ppf(q) = -2]. *)
Definition two_sigma : Sensitivity.NormalQuantile :=
  {| Sensitivity.norm_ppf := λ _, (-2)%R |}.

(** An estimator that takes no argument and returns the same [1 x 1] array
    at every call. *)
Definition constant_estimator : Sensitivity.estimator_fn :=
  λ args, match args with
          | [] => Ok (NdArray [1; 1] [3%R])
          | _ => Raise EstimatorError
          end.

(** Random states that are counters as well, seeded with the seed. *)
#[export] Instance counter_states : MonteCarloSampling.RandomStates := {|
  MonteCarloSampling.rng := nat;
  MonteCarloSampling.RandomState seed := Z.to_nat seed
|}.

(** A one-dimensional distribution: the [i]-th of [n] draws in state [g] is
    [100 * k + g + i], and the state advances by [n]. *)
Definition ramp_rvs (k : nat) (n : nat) (g : nat) : ndarray nat * nat :=
  (NdArray [n; 1] ((λ i, 100 * k + g + i) <$> seq 0 n), g + n).

Definition ramp (k : nat) : MonteCarloSampling.Distribution (val:=nat) := {|
  MonteCarloSampling.class_of := MonteCarloSampling.DistributionContinuous1D;
  MonteCarloSampling.rvs := Some (ramp_rvs k);
  MonteCarloSampling.cdf := None
|}.

(** A kernel on points of natural numbers: a weighted sum of the elements of
    the two points. *)
#[export] Instance sum_kernel : GrassmannianKernel.Kernel (val:=nat) := {|
  GrassmannianKernel.kernel_entry x y :=
    100 * sum_list (data (GrassmannianKernel.point_data x))
    + sum_list (data (GrassmannianKernel.point_data y))
|}.

Definition two_points : list (GrassmannianKernel.GrassmannPoint (val:=nat)) :=
  [ {| GrassmannianKernel.point_data := NdArray [2; 2] [1; 2; 3; 4] |};
    {| GrassmannianKernel.point_data := NdArray [2; 2] [5; 6; 7; 8] |} ].

(** An array of three axes, and a mean of one qoi and one output. *)
Definition samples_2_3_2 : ndarray nat :=
  NdArray [2; 3; 2] [1; 2; 3; 4; 5; 6; 7; 8; 9; 10; 11; 12].

Definition qoi_mean_1_1 : ndarray R := NdArray [1; 1] [3%R].

(** Samplers: for two one-dimensional distributions, with the seed 10; for
    the empty list of distributions; for one distribution without [rvs]. *)
Definition two_ramps : list (MonteCarloSampling.Distribution (val:=nat)) :=
  [ramp 1; ramp 2].

Definition two_ramps_sampler : MonteCarloSampling.sampler (val:=nat) :=
  MonteCarloSampling.new (MonteCarloSampling.DistList two_ramps) None
    (MonteCarloSampling.RSInt 10) 0.

Definition empty_sampler : MonteCarloSampling.sampler (val:=nat) :=
  MonteCarloSampling.new (MonteCarloSampling.DistList []) None
    MonteCarloSampling.RSNone 0.

Definition no_rvs : MonteCarloSampling.Distribution (val:=nat) := {|
  MonteCarloSampling.class_of := MonteCarloSampling.OtherDistribution;
  MonteCarloSampling.rvs := None;
  MonteCarloSampling.cdf := None
|}.

Definition no_rvs_sampler : MonteCarloSampling.sampler (val:=nat) :=
  MonteCarloSampling.new (MonteCarloSampling.Single no_rvs) None
    MonteCarloSampling.RSNone 0.

(** A one-dimensional distribution that has a [cdf] as well: the [cdf] of
    [x] is an array with the one element [x[0] + 1000 * k]. *)
Definition shift_cdf (k : nat) (x : ndarray nat) : ndarray nat :=
  NdArray [1] [hd 0 (data x) + 1000 * k].

Definition ladder (k : nat) : MonteCarloSampling.Distribution (val:=nat) := {|
  MonteCarloSampling.class_of := MonteCarloSampling.DistributionContinuous1D;
  MonteCarloSampling.rvs := Some (ramp_rvs k);
  MonteCarloSampling.cdf := Some (shift_cdf k)
|}.

Definition two_ladders : list (MonteCarloSampling.Distribution (val:=nat)) :=
  [ladder 1; ladder 2].

(** The object made for them with 3 samples and the seed 10. *)
Definition two_ladders_sampler : MonteCarloSampling.sampler (val:=nat) :=
  (MonteCarloSampling.__init__ (MonteCarloSampling.DistList two_ladders)
     (Some 3%Z) (MonteCarloSampling.RSInt 10) 0).2.

(** A distribution of dimension 2 with a [cdf]: the [i]-th of [n] draws in
    state [g] is the point [(g + 2 i, g + 2 i + 1)]. *)
Definition wide_rvs (n : nat) (g : nat) : ndarray nat * nat :=
  (NdArray [n; 2] ((λ i, g + i) <$> seq 0 (n * 2)), g + n).

Definition wide : MonteCarloSampling.Distribution (val:=nat) := {|
  MonteCarloSampling.class_of := MonteCarloSampling.DistributionND;
  MonteCarloSampling.rvs := Some wide_rvs;
  MonteCarloSampling.cdf := Some (shift_cdf 5)
|}.

(** The two points of [two_points]. *)
Definition first_point : GrassmannianKernel.GrassmannPoint (val:=nat) :=
  {| GrassmannianKernel.point_data := NdArray [2; 2] [1; 2; 3; 4] |}.
Definition second_point : GrassmannianKernel.GrassmannPoint (val:=nat) :=
  {| GrassmannianKernel.point_data := NdArray [2; 2] [5; 6; 7; 8] |}.

(** Inputs of an estimator: [None], one column, a table of two columns, and
    an array of three axes. *)
Definition samples_3_1 : ndarray nat := NdArray [3; 1] [10; 20; 30].
Definition samples_3_2 : ndarray nat := NdArray [3; 2] [1; 2; 3; 4; 5; 6].

Definition four_inputs : list (Sensitivity.pyobj (A:=nat)) :=
  [Sensitivity.PyNone; Sensitivity.PyArray samples_3_1;
   Sensitivity.PyArray samples_3_2; Sensitivity.PyArray samples_2_3_2].

(** Samplers after [run] for two points: for one distribution with a
    [cdf], for a list in which the second distribution has no [cdf], and for
    a list of two distributions of dimension 2. *)
Definition ladder_sampler : MonteCarloSampling.sampler (val:=nat) :=
  (MonteCarloSampling.run 2 MonteCarloSampling.RSNone
     (MonteCarloSampling.new (MonteCarloSampling.Single (ladder 1)) None
        MonteCarloSampling.RSNone 0)).2.

Definition ladder_and_ramp : list (MonteCarloSampling.Distribution (val:=nat)) :=
  [ladder 1; ramp 2].

Definition ladder_and_ramp_sampler : MonteCarloSampling.sampler (val:=nat) :=
  (MonteCarloSampling.run 2 MonteCarloSampling.RSNone
     (MonteCarloSampling.new (MonteCarloSampling.DistList ladder_and_ramp) None
        MonteCarloSampling.RSNone 0)).2.

Definition two_wides : list (MonteCarloSampling.Distribution (val:=nat)) :=
  [wide; wide].

Definition two_wides_sampler : MonteCarloSampling.sampler (val:=nat) :=
  (MonteCarloSampling.run 2 MonteCarloSampling.RSNone
     (MonteCarloSampling.new (MonteCarloSampling.DistList two_wides) None
        MonteCarloSampling.RSNone 0)).2.

Definition ramp_and_no_rvs : list (MonteCarloSampling.Distribution (val:=nat)) :=
  [ramp 1; no_rvs].

(** The samples that these samplers hold, and the functions that the
    [cdf] of the ladders compute. *)
Definition two_ladders_samples : ndarray nat :=
  NdArray [3; 2] [110; 213; 111; 214; 112; 215].
Definition ladder_samples : ndarray nat := NdArray [2; 1] [100; 101].
Definition ladder_and_ramp_samples : ndarray nat :=
  NdArray [2; 2] [100; 202; 101; 203].
Definition two_wides_samples : ndarray nat :=
  NdArray [2; 2; 2] [0; 1; 2; 3; 2; 3; 4; 5].

Definition shift (k : nat) (x : nat) : nat := x + 1000 * k.

End Examples.

(** * Concrete collaborators on binary64 numbers *)

Module Binary64Examples.
Import PrimFloat.
Import NumPy SensitivityBinary64.

(** The numbers 0.5 and 0.95, and [scipy.stats.norm.ppf(0.025)]. *)
Definition half : float := 0x1p-1%float.
Definition level_95 : float := 0x1.e666666666666p-1%float.
Definition ppf_0025 : float := (-0x1.f5c0331eeff84p+0)%float.

(** [scipy.stats.norm.ppf] at 0, at 1 and outside of the interval from 0 to
    1; for the numbers between, its value at 0.025. *)
Definition tail_ppf (q : float) : float :=
  if (q =? zero)%float then neg_infinity
  else if (q =? one)%float then infinity
  else if ((zero <? q) && (q <? one))%float then ppf_0025
  else PrimFloat.nan.

(** A count as a number. *)
Fixpoint float_of_nat (n : nat) : float :=
  match n with
  | 0 => zero
  | S n' => (float_of_nat n' + one)%float
  end.

(** The standard deviation in two passes, the sums taken from left to
    right: the mean, the squares of the deviations from it, the root of
    their sum over [len(xs) - ddof]. *)
Definition two_pass_std (ddof : nat) (xs : list float) : float :=
  let arrmean := (fold_left add xs zero / float_of_nat (length xs))%float in
  let x := (λ v, v - arrmean)%float <$> xs in
  let x := (λ v, v * v)%float <$> x in
  sqrt (fold_left add x zero / float_of_nat (length xs - ddof))%float.

Definition two_pass : Statistics := {|
  norm_ppf := tail_ppf;
  np_std := two_pass_std
|}.

(** An estimator that returns 0.5 for one quantity and one output, whatever
    its arguments, and a mean of one quantity and one output. *)
Definition half_estimator : estimator_fn := λ _, Ok (NdArray [1; 1] [half]).

Definition qoi_mean_half : ndarray float := NdArray [1; 1] [half].

(** [bootstrapped_qoi] after two turns of the bootstrap loop with that
    estimator. *)
Definition two_halves : ndarray float := NdArray [1; 1; 2] [half; half].

End Binary64Examples.
(** * Properties of the NumPy fragment *)

Module NumPyFacts.
Import NumPy.

Lemma result_bind_Ok {A B} (m : result A) (f : A → result B) (b : B) :
  m ≫= f = Ok b ↔ ∃ a, m = Ok a ∧ f a = Ok b.
Proof.
  destruct m as [a|e]; simpl; split.
  - intros Hf. by exists a.
  - by intros (a' & [= <-] & Hf).
  - intros [=].
  - by intros (a' & [=] & _).
Qed.

Lemma result_fmap_Ok {A B} (m : result A) (f : A → B) (b : B) :
  f <$> m = Ok b ↔ ∃ a, m = Ok a ∧ b = f a.
Proof.
  destruct m as [a|e]; simpl; split.
  - intros [= <-]. by exists a.
  - by intros (a' & [= <-] & ->).
  - intros [=].
  - by intros (a' & [=] & _).
Qed.

Lemma of_option_Ok {A} (e : exn) (o : option A) (a : A) :
  of_option e o = Ok a ↔ o = Some a.
Proof. destruct o; simpl; split; congruence. Qed.

Lemma length_indices sh : length (indices sh) = size sh.
Proof.
  induction sh as [|n sh IH]; [done|]. simpl.
  rewrite length_join, <- list_fmap_compose.
  rewrite (sum_list_fmap_same (size sh)), length_seq; [done|].
  apply Forall_forall. intros i _. simpl. by rewrite length_fmap.
Qed.

Lemma ravel_lt sh idx o : ravel sh idx = Some o → o < size sh.
Proof.
  revert idx o. induction sh as [|n sh IH]; intros [|i idx] o; simpl; try done.
  - intros [= <-]. lia.
  - case_decide as Hi; [|done].
    destruct (ravel sh idx) as [o'|] eqn:Ho; [|done]. simpl. intros [= <-].
    apply IH in Ho. nia.
Qed.

Lemma ravel_length sh idx o : ravel sh idx = Some o → length idx = length sh.
Proof.
  revert idx o. induction sh as [|n sh IH]; intros [|i idx] o; simpl; try done.
  case_decide; [|done].
  destruct (ravel sh idx) as [o'|] eqn:Ho; [|done]. simpl. intros _.
  f_equal. by eapply IH.
Qed.

(** The multi-index at offset [o] of the enumeration is the one that
    [ravel] sends to [o]. *)
Lemma indices_lookup sh idx o :
  ravel sh idx = Some o → indices sh !! o = Some idx.
Proof.
  revert idx o. induction sh as [|n sh IH]; intros [|i idx] o; simpl; try done.
  - by intros [= <-].
  - case_decide as Hi; [|done].
    destruct (ravel sh idx) as [o'|] eqn:Ho; [|done]. simpl. intros [= <-].
    apply (join_lookup_Some_same_length' (size sh)).
    + apply Forall_forall. intros l (k & -> & _)%list_elem_of_fmap.
      by rewrite length_fmap, length_indices.
    + by eapply ravel_lt.
    + exists ((cons i) <$> indices sh). split.
      * rewrite list_lookup_fmap, lookup_seq_lt by done. done.
      * rewrite list_lookup_fmap, (IH _ _ Ho). done.
Qed.

Lemma indices_lookup_inv sh idx o :
  indices sh !! o = Some idx → ravel sh idx = Some o.
Proof.
  revert idx o. induction sh as [|n sh IH]; intros idx o; simpl.
  - destruct o; [|done]. by intros [= <-].
  - intros Hl.
    apply (join_lookup_Some_same_length (size sh)) in Hl.
    2:{ apply Forall_forall. intros l (k & -> & _)%list_elem_of_fmap.
        by rewrite length_fmap, length_indices. }
    destruct Hl as (j & l & o' & Hj & Ho' & ->).
    rewrite list_lookup_fmap in Hj.
    destruct (seq 0 n !! j) as [j'|] eqn:Hseq; [|done].
    apply lookup_seq in Hseq as [-> Hlt]. simpl in Hj. injection Hj as <-.
    rewrite list_lookup_fmap in Ho'.
    destruct (indices sh !! o') as [idx'|] eqn:Hidx; [|done].
    simpl in Ho'. injection Ho' as <-. simpl.
    rewrite decide_True by done. by rewrite (IH _ _ Hidx).
Qed.

Lemma elem_of_indices sh idx : idx ∈ indices sh ↔ is_Some (ravel sh idx).
Proof.
  split.
  - intros [o Ho]%list_elem_of_lookup. exists o. by apply indices_lookup_inv.
  - intros [o Ho]. apply list_elem_of_lookup. exists o. by apply indices_lookup.
Qed.

(** ** [gather] *)

Lemma gather_Ok {A} sh (f : list nat → option A) a :
  gather sh f = Ok a →
  shape a = sh ∧ wf a ∧ ∀ idx, is_Some (ravel sh idx) → item a idx = f idx.
Proof.
  unfold gather. intros Hg%of_option_Ok.
  destruct (mapM f (indices sh)) as [d|] eqn:Hd; [|done].
  simpl in Hg. injection Hg as <-. simpl.
  split; [done|]. split.
  { unfold wf; simpl. apply length_mapM in Hd.
    by rewrite <- Hd, length_indices. }
  intros idx [o Ho]. unfold item; simpl. rewrite Ho; simpl.
  apply mapM_Some_1 in Hd.
  destruct (Forall2_lookup_l _ _ _ o idx Hd) as (y & Hy & Hfy).
  { by apply indices_lookup. }
  by rewrite Hy.
Qed.

Lemma gather_is_Ok {A} sh (f : list nat → option A) :
  (∀ idx, is_Some (ravel sh idx) → is_Some (f idx)) →
  ∃ a, gather sh f = Ok a.
Proof.
  intros Hf. unfold gather.
  destruct (mapM_is_Some_2 f (indices sh)) as [d Hd].
  { apply Forall_forall. intros idx Hidx%elem_of_indices. by apply Hf. }
  rewrite Hd. by eexists.
Qed.

Lemma item_out_of_bounds {A} (a : ndarray A) idx :
  ravel (shape a) idx = None → item a idx = None.
Proof. unfold item. by intros ->. Qed.

Lemma item_in_bounds {A} (a : ndarray A) idx :
  wf a → is_Some (ravel (shape a) idx) → is_Some (item a idx).
Proof.
  intros Hwf [o Ho]. unfold item. rewrite Ho. simpl.
  apply lookup_lt_is_Some. rewrite Hwf. by eapply ravel_lt.
Qed.

(** Two well-formed arrays of one shape with the same elements are equal. *)
Lemma item_ext {A} (a b : ndarray A) :
  shape a = shape b → wf a → wf b →
  (∀ idx, item a idx = item b idx) → a = b.
Proof.
  destruct a as [sa da], b as [sb db]. unfold wf; simpl.
  intros <- Ha Hb Hitem. f_equal.
  apply list_eq. intros o.
  destruct (decide (o < size sa)) as [Ho|Ho].
  - destruct (lookup_lt_is_Some_2 (indices sa) o) as [idx Hidx].
    { by rewrite length_indices. }
    apply indices_lookup_inv in Hidx. specialize (Hitem idx).
    unfold item in Hitem; simpl in Hitem. by rewrite Hidx in Hitem.
  - rewrite !lookup_ge_None_2; [done|lia..].
Qed.

Lemma gather_ext {A} sh (f g : list nat → option A) :
  (∀ idx, is_Some (ravel sh idx) → f idx = g idx) → gather sh f = gather sh g.
Proof.
  intros Hfg. unfold gather. f_equal. f_equal.
  assert (Forall (λ idx, f idx = g idx) (indices sh)) as Hall.
  { apply Forall_forall. intros i Hi%elem_of_indices. by apply Hfg. }
  induction Hall as [|x l Hx Hl IHl]; [done|].
  simpl. rewrite Hx. by rewrite IHl.
Qed.

(** [gather] succeeds when every read does, and then the array has the
    shape asked for and holds what was read. *)
Lemma gather_total {A} sh (f : list nat → option A) :
  (∀ idx, is_Some (ravel sh idx) → is_Some (f idx)) →
  ∃ a, gather sh f = Ok a ∧ shape a = sh ∧ wf a ∧
       ∀ idx, is_Some (ravel sh idx) → item a idx = f idx.
Proof.
  intros Hf. destruct (gather_is_Ok sh f Hf) as [a Ha].
  exists a. split; [done|]. by apply gather_Ok.
Qed.

Lemma ravel_cons n sh i idx :
  ravel (n :: sh) (i :: idx) =
  if decide (i < n) then o ← ravel sh idx; Some (i * size sh + o) else None.
Proof. done. Qed.

Lemma ravel_cons_is_Some n sh i idx :
  is_Some (ravel (n :: sh) (i :: idx)) ↔ i < n ∧ is_Some (ravel sh idx).
Proof.
  rewrite ravel_cons.
  case_decide as Hi; [|split; [by intros [? ?]|by intros [? _]]].
  destruct (ravel sh idx) as [o|]; simpl.
  - split; [intros _; split; [done|by eexists]|intros _; by eexists].
  - split; [by intros [? ?]|by intros [_ [? ?]]].
Qed.

Lemma ravel_nil_l idx : is_Some (ravel [] idx) ↔ idx = [].
Proof.
  destruct idx; simpl; split; done.
Qed.

Lemma ravel_cons_inv n sh idx :
  is_Some (ravel (n :: sh) idx) →
  ∃ i idx', idx = i :: idx' ∧ i < n ∧ is_Some (ravel sh idx').
Proof.
  destruct idx as [|i idx']; [by intros [? ?]|].
  intros [Hi Hidx]%ravel_cons_is_Some. by exists i, idx'.
Qed.

(** ** The shape and the elements of the results of the operations *)

Lemma row_Ok {A} (a : ndarray A) n sh j :
  shape a = n :: sh → wf a → j < n →
  ∃ r, row a j = Ok r ∧ shape r = sh ∧ wf r ∧
       ∀ idx, item r idx = item a (j :: idx).
Proof.
  intros Hsh Hwf Hj. unfold row. rewrite Hsh, decide_True by done.
  destruct (gather_total sh (λ idx, item a (j :: idx)))
    as (r & Hr & Hshr & Hwfr & Hitem).
  { intros idx Hidx. apply item_in_bounds; [done|].
    rewrite Hsh. by apply ravel_cons_is_Some. }
  exists r. split; [done|]. split; [done|]. split; [done|].
  intros idx. destruct (ravel sh idx) as [o|] eqn:Ho.
  - apply Hitem. by eexists.
  - rewrite !item_out_of_bounds; [done| |by rewrite Hshr].
    rewrite Hsh, ravel_cons, Ho. by case_decide.
Qed.

Lemma column_Ok {A} (a : ndarray A) d0 d1 j :
  shape a = [d0; d1] → wf a → j < d1 →
  ∃ c, column a j = Ok c ∧ shape c = [d0] ∧ wf c ∧
       ∀ i, i < d0 → item c [i] = item a [i; j].
Proof.
  intros Hsh Hwf Hj. unfold column. rewrite Hsh, decide_True by done.
  destruct (gather_total [d0]
    (λ idx, match idx with i :: idx' => item a (i :: j :: idx') | [] => None end))
    as (c & Hc & Hshc & Hwfc & Hitem).
  { intros idx (i & idx' & -> & Hi & ->%ravel_nil_l)%ravel_cons_inv.
    apply item_in_bounds; [done|]. rewrite Hsh.
    apply ravel_cons_is_Some. split; [done|].
    apply ravel_cons_is_Some. split; [done|]. by apply ravel_nil_l. }
  exists c. split; [done|]. split; [done|]. split; [done|].
  intros i Hi. apply Hitem. apply ravel_cons_is_Some. split; [done|].
  by apply ravel_nil_l.
Qed.

Lemma item_zeros {A} (z : A) sh idx :
  is_Some (ravel sh idx) → item (zeros z sh) idx = Some z.
Proof.
  intros [o Ho]. unfold item, zeros, tabulate; simpl. rewrite Ho; simpl.
  by rewrite list_lookup_fmap, (indices_lookup _ _ _ Ho).
Qed.

Lemma wf_zeros {A} (z : A) sh : wf (zeros z sh).
Proof. unfold wf, zeros, tabulate; simpl. by rewrite length_fmap, length_indices. Qed.

Lemma ravel_1 n idx :
  is_Some (ravel [n] idx) ↔ ∃ i, idx = [i] ∧ i < n.
Proof.
  split.
  - intros (i & idx' & -> & Hi & ->%ravel_nil_l)%ravel_cons_inv. by exists i.
  - intros (i & -> & Hi). apply ravel_cons_is_Some. by rewrite ravel_nil_l.
Qed.

Lemma ravel_2 n m idx :
  is_Some (ravel [n; m] idx) ↔ ∃ i j, idx = [i; j] ∧ i < n ∧ j < m.
Proof.
  split.
  - intros (i & idx' & -> & Hi & (j & -> & Hj)%ravel_1)%ravel_cons_inv.
    by exists i, j.
  - intros (i & j & -> & Hi & Hj). apply ravel_cons_is_Some. split; [done|].
    apply ravel_1. by exists j.
Qed.

Lemma ravel_3 d n m idx :
  is_Some (ravel [d; n; m] idx) ↔
  ∃ k i j, idx = [k; i; j] ∧ k < d ∧ i < n ∧ j < m.
Proof.
  split.
  - intros (k & idx' & -> & Hk & (i & j & -> & Hi & Hj)%ravel_2)%ravel_cons_inv.
    by exists k, i, j.
  - intros (k & i & j & -> & Hk & Hi & Hj). apply ravel_cons_is_Some.
    split; [done|]. apply ravel_2. by exists i, j.
Qed.

Lemma item_scale c (a : ndarray num) idx :
  item (scale c a) idx = num_scale c <$> item a idx.
Proof.
  unfold item, scale; simpl. destruct (ravel (shape a) idx) as [o|]; [|done].
  simpl. by rewrite list_lookup_fmap.
Qed.

Lemma wf_scale c (a : ndarray num) : wf a → wf (scale c a).
Proof. unfold wf, scale; simpl. by rewrite length_fmap. Qed.

Lemma bitem_1 {A} (a : ndarray A) n i :
  shape a = [n] → i < n → bitem a [i] = item a [i].
Proof.
  intros Hsh Hi. unfold bitem, bindex. rewrite Hsh. simpl.
  case_decide; [|done]. by replace i with 0 by lia.
Qed.

Lemma broadcast_shape_same_1 n : broadcast_shape [n] [n] = Ok [n].
Proof. unfold broadcast_shape. cbn. by rewrite decide_True. Qed.

Lemma broadcastable_same_1 n : broadcastable [n] [n] = true.
Proof. unfold broadcastable. cbn. by rewrite bool_decide_eq_true_2. Qed.

(** An element-wise operation on two arrays of one axis and one length. *)
Lemma map2_Ok_1 {A B C} (f : A → B → C) (a : ndarray A) (b : ndarray B) n :
  shape a = [n] → shape b = [n] → wf a → wf b →
  ∃ c, map2 f a b = Ok c ∧ shape c = [n] ∧ wf c ∧
       ∀ i, i < n → ∃ x y, item a [i] = Some x ∧ item b [i] = Some y ∧
                           item c [i] = Some (f x y).
Proof.
  intros Ha Hb Hwa Hwb.
  assert (∀ i, i < n → ∃ x y, item a [i] = Some x ∧ item b [i] = Some y)
    as Hxy.
  { intros i Hi.
    destruct (item_in_bounds a [i]) as [x Hx];
      [done|rewrite Ha; apply ravel_1; by exists i|].
    destruct (item_in_bounds b [i]) as [y Hy];
      [done|rewrite Hb; apply ravel_1; by exists i|].
    by exists x, y. }
  unfold map2. rewrite Ha, Hb, broadcast_shape_same_1. simpl.
  destruct (gather_total [n]
    (λ idx, x ← bitem a idx; y ← bitem b idx; Some (f x y)))
    as (c & Hc & Hshc & Hwfc & Hitem).
  { intros idx (i & -> & Hi)%ravel_1.
    rewrite (bitem_1 a n), (bitem_1 b n) by done.
    destruct (Hxy i Hi) as (x & y & -> & ->). by eexists. }
  exists c. split; [done|]. split; [done|]. split; [done|].
  intros i Hi. destruct (Hxy i Hi) as (x & y & Hx & Hy).
  exists x, y. split; [done|]. split; [done|].
  rewrite Hitem by (apply ravel_1; by exists i).
  rewrite (bitem_1 a n), (bitem_1 b n) by done. by rewrite Hx, Hy.
Qed.

(** [a[j, :, c] = v]. *)
Lemma assign_mid_Ok {A} (a v : ndarray A) d0 d1 d2 j c :
  shape a = [d0; d1; d2] → wf a → shape v = [d1] → wf v → j < d0 → c < d2 →
  ∃ a', assign_mid a j c v = Ok a' ∧ shape a' = [d0; d1; d2] ∧ wf a' ∧
        ∀ i q t, i < d0 → q < d1 → t < d2 →
          item a' [i; q; t]
          = if decide (i = j ∧ t = c) then item v [q] else item a [i; q; t].
Proof.
  intros Ha Hwa Hv Hwv Hj Hc. unfold assign_mid.
  rewrite Ha, decide_True, Hv, broadcastable_same_1 by done.
  destruct (gather_total [d0; d1; d2]
    (λ idx, match idx with
            | [i; q; t] =>
                if decide (i = j ∧ t = c) then bitem v [q] else item a idx
            | _ => None
            end)) as (a' & Ha' & Hsha' & Hwfa' & Hitem).
  { intros idx (i & q & t & -> & Hi & Hq & Ht)%ravel_3. case_decide.
    - rewrite (bitem_1 v d1) by done. apply item_in_bounds; [done|].
      rewrite Hv. apply ravel_1. by exists q.
    - apply item_in_bounds; [done|]. rewrite Ha. apply ravel_3.
      by exists i, q, t. }
  exists a'. split; [done|]. split; [done|]. split; [done|].
  intros i q t Hi Hq Ht.
  rewrite Hitem by (apply ravel_3; by exists i, q, t).
  case_decide; [|done]. by rewrite (bitem_1 v d1).
Qed.

(** [np.std(a, axis=1, ddof=ddof)]. *)
Lemma std_axis1_Ok ddof (a : ndarray R) d0 d1 :
  shape a = [d0; d1] → wf a →
  ∃ s, std_axis1 ddof a = Ok s ∧ shape s = [d0] ∧ wf s ∧
       ∀ q, q < d0 →
         ∃ xs, mapM (λ t, item a [q; t]) (seq 0 d1) = Some xs ∧
               item s [q] = Some (std ddof xs).
Proof.
  intros Ha Hwa.
  assert (∀ q, q < d0 → is_Some (mapM (λ t, item a [q; t]) (seq 0 d1)))
    as Hxs.
  { intros q Hq. apply mapM_is_Some_2, Forall_forall.
    intros t [_ Ht]%elem_of_seq. simpl. apply item_in_bounds; [done|].
    rewrite Ha. apply ravel_2. exists q, t. split; [done|]. split; [done|]. lia. }
  unfold std_axis1. rewrite Ha.
  destruct (gather_total [d0]
    (λ idx, match idx with
            | [q] => xs ← mapM (λ t, item a [q; t]) (seq 0 d1);
                     Some (std ddof xs)
            | _ => None
            end)) as (s & Hs & Hshs & Hwfs & Hitem).
  { intros idx (q & -> & Hq)%ravel_1. destruct (Hxs q Hq) as [xs ->].
    by eexists. }
  exists s. split; [done|]. split; [done|]. split; [done|].
  intros q Hq. destruct (Hxs q Hq) as [xs Hx]. exists xs. split; [done|].
  rewrite Hitem by (apply ravel_1; by exists q). by rewrite Hx.
Qed.

(** ** Lists of results *)

Lemma result_mapM_Ok {A B} (f : A → result B) (P : A → B → Prop) l :
  (∀ x, x ∈ l → ∃ y, f x = Ok y ∧ P x y) →
  ∃ k, mapM f l = Ok k ∧ Forall2 P l k.
Proof.
  induction l as [|x l IH]; intros Hf.
  - exists []. split; [done|]. constructor.
  - destruct (Hf x) as (y & Hy & HP); [by left|].
    destruct IH as (k & Hk & HF); [intros ? ?; apply Hf; by right|].
    exists (y :: k). split; [|by constructor].
    simpl. rewrite Hy. simpl. by rewrite Hk.
Qed.

(** ** [np.array] of a list of arrays, iteration, [hstack], [.T] *)

Lemma stack_Ok {A} (l : list (ndarray A)) sh :
  Forall (λ b, shape b = sh ∧ wf b) l → l ≠ [] →
  ∃ a, stack l = Ok a ∧ shape a = length l :: sh ∧ wf a ∧
       ∀ j idx, item a (j :: idx) = (l !! j) ≫= (λ b, item b idx).
Proof.
  intros Hall Hne. destruct l as [|a0 l']; [done|].
  assert (shape a0 = sh) as Ha0 by (by apply Forall_cons in Hall as [[? _] _]).
  unfold stack.
  assert (forallb (λ b, bool_decide (shape b = shape a0)) (a0 :: l') = true)
    as ->.
  { apply forallb_forall. intros b Hb%list_elem_of_In.
    apply bool_decide_eq_true_2.
    rewrite Forall_forall in Hall. destruct (Hall b Hb) as [-> _]. done. }
  rewrite Ha0.
  destruct (gather_total (length (a0 :: l') :: sh)
    (λ idx, match idx with
            | j :: idx' => b ← (a0 :: l') !! j; item b idx'
            | [] => None
            end)) as (a & Ha & Hsha & Hwfa & Hitem).
  { intros idx (j & idx' & -> & Hj & Hidx)%ravel_cons_inv.
    destruct (lookup_lt_is_Some_2 (a0 :: l') j Hj) as [b Hb].
    rewrite Hb. simpl.
    pose proof (Forall_lookup_1 _ _ _ _ Hall Hb) as [Hshb Hwfb].
    apply item_in_bounds; [done|]. by rewrite Hshb. }
  exists a. split; [done|]. split; [done|]. split; [done|].
  intros j idx.
  destruct (ravel (length (a0 :: l') :: sh) (j :: idx)) as [o|] eqn:Ho.
  - apply Hitem. by eexists.
  - rewrite item_out_of_bounds by (by rewrite Hsha).
    rewrite ravel_cons in Ho. case_decide as Hj.
    + destruct (lookup_lt_is_Some_2 (a0 :: l') j Hj) as [b Hb].
      rewrite Hb. simpl.
      pose proof (Forall_lookup_1 _ _ _ _ Hall Hb) as [Hshb Hwfb].
      rewrite item_out_of_bounds; [done|]. rewrite Hshb.
      by destruct (ravel sh idx).
    + by rewrite lookup_ge_None_2 by lia.
Qed.

Lemma iterate_Ok {A} (a : ndarray A) n sh :
  shape a = n :: sh → wf a →
  ∃ rows, iterate a = Ok rows ∧
    Forall2 (λ j r, shape r = sh ∧ wf r ∧ ∀ idx, item r idx = item a (j :: idx))
            (seq 0 n) rows.
Proof.
  intros Hsh Hwf. unfold iterate, len. rewrite Hsh. simpl.
  apply result_mapM_Ok. intros j [_ Hj]%elem_of_seq.
  destruct (row_Ok a n sh j Hsh Hwf) as (r & Hr & ? & ? & ?); [lia|].
  by exists r.
Qed.

Lemma locate_ones cs c :
  Forall (λ w, w = 1) cs → c < length cs → locate cs c = Some (c, 0).
Proof.
  intros Hall. revert c. induction Hall as [|w cs -> Hall IH]; intros c Hc.
  - simpl in Hc. lia.
  - simpl. destruct c as [|c]; [done|].
    rewrite decide_False by lia. simpl in Hc.
    replace (S c - 1) with c by lia. rewrite IH by lia. done.
Qed.

Lemma sum_list_ones cs : Forall (λ w, w = 1) cs → sum_list cs = length cs.
Proof. induction 1 as [|w cs -> _ IH]; simpl; [done|]. by rewrite IH. Qed.

(** [np.concatenate(l, axis=1)] on arrays of one column each: the array
    that has them as its columns. *)
Lemma concatenate1_columns {A} (l : list (ndarray A)) r :
  Forall (λ b, shape b = [r; 1] ∧ wf b) l → l ≠ [] →
  ∃ a, concatenate1 l = Ok a ∧ shape a = [r; length l] ∧ wf a ∧
       ∀ i c, i < r → c < length l →
         item a [i; c] = (l !! c) ≫= (λ b, item b [i; 0]).
Proof.
  intros Hall Hne. destruct l as [|a0 l']; [done|].
  assert (shape a0 = [r; 1]) as Ha0 by (by apply Forall_cons in Hall as [[? _] _]).
  unfold concatenate1. rewrite Ha0.
  match goal with
  | |- context [forallb ?f ?l] => assert (forallb f l = true) as ->
  end.
  { apply forallb_forall. intros b Hb%list_elem_of_In.
    rewrite Forall_forall in Hall. destruct (Hall b Hb) as [Hshb _].
    unfold ndim. rewrite Hshb. simpl.
    by rewrite !bool_decide_eq_true_2 by (done || lia). }
  set (cs := (λ b : ndarray A, hd 0 (tail (shape b))) <$> (a0 :: l')).
  assert (Forall (λ w, w = 1) cs) as Hones.
  { unfold cs. apply Forall_fmap. eapply Forall_impl; [exact Hall|].
    intros b [Hshb _]. simpl. by rewrite Hshb. }
  assert (length cs = length (a0 :: l')) as Hlen by (unfold cs; by rewrite length_fmap).
  rewrite (sum_list_ones cs Hones), Hlen.
  destruct (gather_total [r; length (a0 :: l')]
    (λ idx, match idx with
            | i :: c :: idx' =>
                '(p, o) ← locate cs c; b ← (a0 :: l') !! p;
                item b (i :: o :: idx')
            | _ => None
            end)) as (a & Ha & Hsha & Hwfa & Hitem).
  { intros idx (i & c & -> & Hi & Hc)%ravel_2.
    rewrite locate_ones by (done || lia). simpl.
    destruct (lookup_lt_is_Some_2 (a0 :: l') c Hc) as [b Hb].
    rewrite Hb. simpl.
    pose proof (Forall_lookup_1 _ _ _ _ Hall Hb) as [Hshb Hwfb].
    apply item_in_bounds; [done|]. rewrite Hshb. apply ravel_2.
    exists i, 0. split; [done|]. split; [done|]. lia. }
  exists a. split; [done|]. split; [done|]. split; [done|].
  intros i c Hi Hc.
  rewrite Hitem by (apply ravel_2; by exists i, c).
  by rewrite locate_ones by (done || lia).
Qed.

Lemma transpose_2 {A} (a : ndarray A) r c :
  shape a = [r; c] → wf a →
  ∃ t, transpose a = Ok t ∧ shape t = [c; r] ∧ wf t ∧
       ∀ j i, j < c → i < r → item t [j; i] = item a [i; j].
Proof.
  intros Hsh Hwf. unfold transpose. rewrite Hsh.
  change (reverse [r; c]) with [c; r].
  destruct (gather_total [c; r] (λ idx, item a (reverse idx)))
    as (t & Ht & Hsht & Hwft & Hitem).
  { intros idx (j & i & -> & Hj & Hi)%ravel_2.
    change (reverse [j; i]) with [i; j].
    apply item_in_bounds; [done|]. rewrite Hsh. apply ravel_2. by exists i, j. }
  exists t. split; [done|]. split; [done|]. split; [done|].
  intros j i Hj Hi. rewrite Hitem by (apply ravel_2; by exists j, i). done.
Qed.

Lemma transpose_1 {A} (a : ndarray A) n :
  shape a = [n] → wf a → transpose a = Ok a.
Proof.
  intros Hsh Hwf. unfold transpose. rewrite Hsh.
  change (reverse [n]) with [n].
  destruct (gather_total [n] (λ idx, item a (reverse idx)))
    as (t & Ht & Hsht & Hwft & Hitem).
  { intros idx (i & -> & Hi)%ravel_1. change (reverse [i]) with [i].
    apply item_in_bounds; [done|]. rewrite Hsh. apply ravel_1. by exists i. }
  rewrite Ht. f_equal. apply item_ext; [by rewrite Hsh|done|done|].
  intros idx. destruct (ravel [n] idx) as [o|] eqn:Ho.
  - rewrite Hitem by (by eexists).
    assert (is_Some (ravel [n] idx)) as (i & -> & _)%ravel_1 by (by eexists).
    done.
  - rewrite !item_out_of_bounds; [done|by rewrite Hsh|by rewrite Hsht].
Qed.

(** ** [np.concatenate(l, axis=0)] of two arrays *)

Lemma concatenate0_pair {A} (a b : ndarray A) n1 n2 sh :
  shape a = n1 :: sh → shape b = n2 :: sh → wf a → wf b →
  ∃ c, concatenate0 [a; b] = Ok c ∧ shape c = (n1 + n2) :: sh ∧ wf c ∧
       ∀ i idx, item c (i :: idx)
                = if decide (i < n1) then item a (i :: idx)
                  else item b ((i - n1) :: idx).
Proof.
  intros Ha Hb Hwa Hwb. unfold concatenate0. rewrite Ha. simpl.
  rewrite Ha, Hb. simpl.
  rewrite !bool_decide_eq_true_2 by done. simpl.
  rewrite Nat.add_0_r.
  set (f := λ idx : list nat,
         match idx with
         | i :: idx' =>
             '(p, o) ← (if decide (i < n1) then Some (0, i)
                        else '(p, o) ← (if decide (i - n1 < n2)
                                        then Some (0, i - n1)
                                        else '(p, o) ← None; Some (S p, o));
                             Some (S p, o));
             b0 ← [a; b] !! p; item b0 (o :: idx')
         | [] => None
         end).
  assert (∀ i idx, f (i :: idx)
                   = if decide (i < n1) then item a (i :: idx)
                     else if decide (i - n1 < n2) then item b ((i - n1) :: idx)
                     else None) as Hf.
  { intros i idx. unfold f.
    destruct (decide (i < n1)); simpl; [done|].
    by destruct (decide (i - n1 < n2)); simpl. }
  destruct (gather_total ((n1 + n2) :: sh) f) as (c & Hc & Hshc & Hwfc & Hitem).
  { intros idx (i & idx' & -> & Hi & Hidx)%ravel_cons_inv. rewrite Hf.
    repeat case_decide; try lia.
    - apply item_in_bounds; [done|]. rewrite Ha. by apply ravel_cons_is_Some.
    - apply item_in_bounds; [done|]. rewrite Hb. by apply ravel_cons_is_Some. }
  exists c. split; [done|]. split; [done|]. split; [done|].
  intros i idx.
  destruct (ravel ((n1 + n2) :: sh) (i :: idx)) as [o|] eqn:Ho.
  - rewrite Hitem by (by eexists). rewrite Hf.
    assert (i < n1 + n2) as Hi.
    { assert (is_Some (ravel ((n1 + n2) :: sh) (i :: idx))) as HS by (by eexists).
      by apply ravel_cons_is_Some in HS as [? _]. }
    repeat case_decide; (done || lia).
  - rewrite item_out_of_bounds by (by rewrite Hshc).
    rewrite ravel_cons in Ho. symmetry.
    destruct (decide (i < n1)) as [H1|H1].
    + apply item_out_of_bounds. rewrite Ha, ravel_cons, decide_True by done.
      rewrite decide_True in Ho by lia. by destruct (ravel sh idx).
    + apply item_out_of_bounds. rewrite Hb, ravel_cons.
      destruct (decide (i - n1 < n2)) as [H2|H2]; [|done].
      rewrite decide_True in Ho by lia. by destruct (ravel sh idx).
Qed.

(** The rows of the first array are the first rows of the concatenation. *)
Lemma row_concatenate0 {A} (a b c : ndarray A) n1 n2 sh j :
  shape a = n1 :: sh → shape b = n2 :: sh → wf a → wf b →
  concatenate0 [a; b] = Ok c → j < n1 →
  ∃ r, row a j = Ok r ∧ row c j = Ok r.
Proof.
  intros Ha Hb Hwa Hwb Hc Hj.
  destruct (concatenate0_pair a b n1 n2 sh Ha Hb Hwa Hwb)
    as (c' & Hc' & Hshc & Hwfc & Hitem).
  rewrite Hc in Hc'. injection Hc' as <-.
  destruct (row_Ok a n1 sh j Ha Hwa Hj) as (r & Hr & Hshr & Hwfr & Hritem).
  destruct (row_Ok c (n1 + n2) sh j Hshc Hwfc) as (r' & Hr' & Hshr' & Hwfr' & Hritem');
    [lia|].
  exists r. split; [done|]. rewrite Hr'. f_equal.
  apply item_ext; [by rewrite Hshr, Hshr'|done|done|].
  intros idx. rewrite Hritem, Hritem', Hitem. by rewrite decide_True.
Qed.

Lemma atleast_2d_id {A} (a : ndarray A) n m sh :
  shape a = n :: m :: sh → atleast_2d a = a.
Proof. intros Hsh. unfold atleast_2d. by rewrite Hsh. Qed.

Lemma atleast_1d_id {A} (a : ndarray A) n sh :
  shape a = n :: sh → atleast_1d a = a.
Proof. intros Hsh. unfold atleast_1d. by rewrite Hsh. Qed.

Lemma Forall2_seq_length {B} (P : nat → B → Prop) n l :
  Forall2 P (seq 0 n) l → length l = n.
Proof. intros HF. apply Forall2_length in HF. by rewrite length_seq in HF. Qed.

(** [np.hstack] of an array of shape [(n, r, 1)]: its [n] sub-arrays become
    the columns of an array of shape [(r, n)]. *)
Lemma hstack_columns {A} (x : ndarray A) n r :
  shape x = [n; r; 1] → wf x → 0 < n →
  ∃ h, hstack x = Ok h ∧ shape h = [r; n] ∧ wf h ∧
       ∀ i c, i < r → c < n → item h [i; c] = item x [c; i; 0].
Proof.
  intros Hsh Hwf Hn. unfold hstack.
  destruct (iterate_Ok x n [r; 1] Hsh Hwf) as (pieces & -> & Hpieces). simpl.
  pose proof (Forall2_seq_length _ _ _ Hpieces) as Hlen.
  assert (Forall (λ b, shape b = [r; 1] ∧ wf b) pieces) as Hall.
  { apply Forall_forall. intros b Hb.
    apply list_elem_of_lookup in Hb as [c Hc].
    destruct (Forall2_lookup_r _ _ _ _ _ Hpieces Hc) as (j & _ & ? & ? & _).
    done. }
  assert (atleast_1d <$> pieces = pieces) as ->.
  { rewrite <- (list_fmap_id pieces) at 2. apply Forall_fmap_ext.
    eapply Forall_impl; [exact Hall|]. intros b [Hb _].
    by apply (atleast_1d_id b r [1]). }
  destruct pieces as [|p0 pieces']; [simpl in Hlen; lia|].
  assert (shape p0 = [r; 1]) as Hp0 by (by apply Forall_cons in Hall as [[? _] _]).
  rewrite decide_False by (unfold ndim; by rewrite Hp0).
  destruct (concatenate1_columns (p0 :: pieces') r Hall)
    as (h & Hh & Hshh & Hwfh & Hitem); [done|].
  exists h. split; [done|]. rewrite Hlen in Hshh. split; [done|]. split; [done|].
  intros i c Hi Hc. rewrite Hitem by (done || lia).
  destruct (lookup_lt_is_Some_2 (p0 :: pieces') c) as [b Hb]; [lia|].
  rewrite Hb. simpl.
  destruct (Forall2_lookup_r _ _ _ _ _ Hpieces Hb) as (j & Hj & _ & _ & Hbitem).
  apply lookup_seq in Hj as [-> _]. by rewrite Hbitem.
Qed.

(** ** Assignment of one element, and slices of columns *)

Lemma ravel_inj sh idx idx' o :
  ravel sh idx = Some o → ravel sh idx' = Some o → idx = idx'.
Proof.
  intros H1%indices_lookup H2%indices_lookup. congruence.
Qed.

Lemma assign_item_Ok {A} (a : ndarray A) n m i j v :
  shape a = [n; m] → wf a → i < n → j < m →
  ∃ a', assign_item a i j v = Ok a' ∧ shape a' = [n; m] ∧ wf a' ∧
        item a' [i; j] = Some v ∧
        ∀ i' j', (i', j') ≠ (i, j) → item a' [i'; j'] = item a [i'; j'].
Proof.
  intros Hsh Hwf Hi Hj. unfold assign_item.
  destruct (ravel (shape a) [i; j]) as [o|] eqn:Ho.
  2:{ assert (is_Some (ravel (shape a) [i; j])) as [? ?]; [|congruence].
      rewrite Hsh. apply ravel_2. by exists i, j. }
  simpl. eexists. split; [done|]. simpl. split; [done|].
  pose proof (ravel_lt _ _ _ Ho) as Hlt.
  split; [|split].
  - unfold wf. simpl. by rewrite length_insert.
  - unfold item. simpl. rewrite Ho. simpl.
    apply list_lookup_insert_eq. by rewrite Hwf.
  - intros i' j' Hne. unfold item. simpl.
    destruct (ravel (shape a) [i'; j']) as [o'|] eqn:Ho'; [|done]. simpl.
    apply list_lookup_insert_ne. intros <-.
    pose proof (ravel_inj _ _ _ _ Ho Ho') as [= <- <-]. done.
Qed.

Lemma slice_stop_le p c : slice_stop p c ≤ c.
Proof. unfold slice_stop. case_decide; lia. Qed.

Lemma take_columns_Ok {A} (a : ndarray A) r c p :
  shape a = [r; c] → wf a →
  ∃ d, take_columns a p = Ok d ∧ shape d = [r; slice_stop p c] ∧ wf d ∧
       ∀ i j, i < r → j < slice_stop p c → item d [i; j] = item a [i; j].
Proof.
  intros Hsh Hwf. unfold take_columns. rewrite Hsh.
  pose proof (slice_stop_le p c) as Hle.
  destruct (gather_total [r; slice_stop p c] (item a))
    as (d & Hd & Hshd & Hwfd & Hitem).
  { intros idx (i & j & -> & Hi & Hj)%ravel_2. apply item_in_bounds; [done|].
    rewrite Hsh. apply ravel_2. exists i, j. split; [done|]. split; [done|]. lia. }
  exists d. split; [done|]. split; [done|]. split; [done|].
  intros i j Hi Hj. apply Hitem. apply ravel_2. by exists i, j.
Qed.

(** ** Loops *)

Lemma for_each_cons {S X} (body : S → X → result S) x xs s :
  for_each (x :: xs) body s = body s x ≫= for_each xs body.
Proof. done. Qed.

Lemma for_each_ext {S X} (body body' : S → X → result S) xs s :
  (∀ s x, body s x = body' s x) →
  for_each xs body s = for_each xs body' s.
Proof.
  intros Hext. revert s. induction xs as [|x xs IH]; intros s; [done|].
  simpl. rewrite Hext. destruct (body' s x); simpl; [apply IH|done].
Qed.

End NumPyFacts.

(** * Properties of the bootstrap generators and of [bootstrapping] *)

Module SensitivityFacts.
Import NumPy NumPyFacts Sensitivity.

(** Reading an array of shape [(n, m)] at a position of the same shape is
    plain indexing, and [np.arange(m)] read at [(r, c)] is [c]. *)
Lemma bitem_same_shape_2 {A} (a : ndarray A) n m r c :
  shape a = [n; m] → r < n → c < m → bitem a [r; c] = item a [r; c].
Proof.
  intros Hsh Hr Hc. unfold bitem, bindex. rewrite Hsh. simpl.
  repeat case_decide; repeat f_equal; lia.
Qed.

Lemma bitem_arange m r c : c < m → bitem (arange m) [r; c] = Some c.
Proof.
  intros Hc. unfold bitem, bindex, item. simpl.
  destruct (decide (m = 1)) as [->|Hm].
  - assert (c = 0) as -> by lia. done.
  - rewrite decide_True by done. simpl.
    rewrite Nat.mul_1_r, Nat.add_0_r, lookup_seq_lt by done. done.
Qed.

Lemma broadcast_shape_2_1 n m : broadcast_shape [n; m] [m] = Ok [n; m].
Proof.
  unfold broadcast_shape. cbn. rewrite decide_True by done. done.
Qed.

Lemma item_lt_of_Forall {A} (P : A → Prop) (a : ndarray A) idx x :
  Forall P (data a) → item a idx = Some x → P x.
Proof.
  intros Hall Hitem. unfold item in Hitem.
  destruct (ravel (shape a) idx) as [o|]; [|done]. simpl in Hitem.
  by eapply Forall_lookup_1.
Qed.

Section generators.
Context `{RandomSource} `{!RandomSourceLaws} {A : Type}.

Lemma item_randint g high sz idx :
  is_Some (ravel sz idx) → 0 < high →
  ∃ i, item (randint g high sz).1 idx = Some i ∧ i < high.
Proof.
  intros Hidx Hhigh.
  destruct (item_in_bounds (randint g high sz).1 idx) as [i Hi].
  - apply randint_wf.
  - by rewrite randint_shape.
  - exists i. split; [done|].
    by apply (item_lt_of_Forall _ _ _ _ (randint_range g high sz Hhigh) Hi).
Qed.

Lemma draw_eq g high sz :
  draw high sz g = (Ok (randint g high sz).1, (randint g high sz).2).
Proof. unfold draw. by destruct (randint g high sz). Qed.

(** C3.  On an array of shape [(d, n, m)], one advance of the 3-D generator
    draws one [(n, m)] array of indices and yields an array of shape
    [(d, n, m)] whose entry [(k, r, c)] is [samples[k, indices[r, c], c]],
    for every [k]: each column is resampled on its own, and every slice
    with the same indices. *)
Theorem bootstrap_sample_generator_3D_yield (samples : ndarray A) d n m g :
  shape samples = [d; n; m] → wf samples →
  ∃ out,
    next (bootstrap_sample_generator_3D samples) g
      = (Ok out, (randint g n [n; m]).2) ∧
    shape out = [d; n; m] ∧ wf out ∧
    ∀ k r c, k < d → r < n → c < m →
      ∃ i x, item (randint g n [n; m]).1 [r; c] = Some i ∧ i < n ∧
             item samples [k; i; c] = Some x ∧
             item out [k; r; c] = Some x.
Proof.
  intros Hsh Hwf.
  set (I := (randint g n [n; m]).1).
  assert (∀ r c, r < n → c < m → ∃ i, item I [r; c] = Some i ∧ i < n)
    as HI.
  { intros r c Hr Hc. apply item_randint; [|lia].
    apply ravel_2. by exists r, c. }
  assert (∀ k i c, k < d → i < n → c < m → is_Some (item samples [k; i; c]))
    as Hs.
  { intros k i c Hk Hi Hc. apply item_in_bounds; [done|].
    rewrite Hsh. apply ravel_3. by exists k, i, c. }
  assert (shape I = [n; m]) as HshI by apply randint_shape.
  destruct (gather_is_Ok [d; n; m]
    (λ idx, match idx with
            | s :: idx' =>
                i ← bitem I (take 2 idx'); j ← bitem (arange m) (take 2 idx');
                item samples (s :: i :: j :: drop 2 idx')
            | [] => None
            end)) as [out Hout].
  { intros idx (k & r & c & -> & Hk & Hr & Hc)%ravel_3. simpl.
    rewrite (bitem_same_shape_2 I n m), bitem_arange by done.
    destruct (HI r c Hr Hc) as (i & -> & Hi). simpl. by apply Hs. }
  exists out.
  pose proof (gather_Ok _ _ _ Hout) as (Hshape & Hwfo & Hitems).
  split; [|split; [done|split; [done|]]].
  - unfold next, mbind, rand_bind, lift, shape_at. rewrite Hsh. simpl.
    rewrite draw_eq. fold I.
    unfold index_slice_pairs. rewrite Hsh, HshI.
    change (shape (arange m)) with [m].
    rewrite broadcast_shape_2_1. simpl.
    by rewrite Hout.
  - intros k r c Hk Hr Hc.
    destruct (HI r c Hr Hc) as (i & HIi & Hi).
    destruct (Hs k i c Hk Hi Hc) as [x Hx].
    exists i, x. split; [done|]. split; [done|]. split; [done|].
    rewrite Hitems by (apply ravel_3; by exists k, r, c). simpl.
    rewrite (bitem_same_shape_2 I n m), bitem_arange by done.
    rewrite HIi. simpl. done.
Qed.

End generators.
(** ** The confidence interval *)

Section confidence.
Context (qoi_mean bq : ndarray R) (n_qois n_outputs n : nat) (delta : R).
Context (Hmean : shape qoi_mean = [n_qois; n_outputs]) (Hwf_mean : wf qoi_mean).
Context (Hbq : shape bq = [n_outputs; n_qois; n]) (Hwf_bq : wf bq).

Local Abbreviation bounds_at := (bounds_at qoi_mean bq n delta).

Lemma confidence_interval_step_Ok ci j :
  shape ci = [n_outputs; n_qois; 2] → wf ci → j < n_outputs →
  ∃ ci', confidence_interval_step delta qoi_mean bq ci j = Ok ci' ∧
         shape ci' = [n_outputs; n_qois; 2] ∧ wf ci' ∧
         (∀ i q b, i < n_outputs → q < n_qois → b < 2 → i ≠ j →
            item ci' [i; q; b] = item ci [i; q; b]) ∧
         (∀ q, q < n_qois → bounds_at ci' j q).
Proof.
  intros Hci Hwf_ci Hj. unfold confidence_interval_step.
  destruct (row_Ok bq n_outputs [n_qois; n] j Hbq Hwf_bq Hj)
    as (sub & -> & Hsub & Hwf_sub & Hsub_item). simpl.
  destruct (std_axis1_Ok 1 sub n_qois n Hsub Hwf_sub)
    as (s & -> & Hs & Hwf_s & Hs_item). simpl.
  destruct (column_Ok qoi_mean n_qois n_outputs j Hmean Hwf_mean Hj)
    as (col & -> & Hcol & Hwf_col & Hcol_item). simpl.
  destruct (map2_Ok_1 num_sub col (scale delta s) n_qois)
    as (lo & -> & Hlo & Hwf_lo & Hlo_item); [done|done|done|by apply wf_scale|].
  simpl.
  destruct (map2_Ok_1 num_add col (scale delta s) n_qois)
    as (up & -> & Hup & Hwf_up & Hup_item); [done|done|done|by apply wf_scale|].
  simpl.
  destruct (assign_mid_Ok ci lo n_outputs n_qois 2 j 0)
    as (ci1 & -> & Hci1 & Hwf_ci1 & Hci1_item); [done|done|done|done|done|lia|].
  simpl.
  destruct (assign_mid_Ok ci1 up n_outputs n_qois 2 j 1)
    as (ci2 & -> & Hci2 & Hwf_ci2 & Hci2_item); [done|done|done|done|done|lia|].
  exists ci2. split; [done|]. split; [done|]. split; [done|]. split.
  - intros i q b Hi Hq Hb Hij.
    rewrite Hci2_item, decide_False by (done || intros [? _]; done).
    by rewrite Hci1_item, decide_False by (done || intros [? _]; done).
  - intros q Hq.
    destruct (Hs_item q Hq) as (xs & Hxs & Hsq).
    destruct (Hlo_item q Hq) as (m & y & Hm & Hy & Hloq).
    destruct (Hup_item q Hq) as (m' & y' & Hm' & Hy' & Hupq).
    rewrite Hm in Hm'. injection Hm' as <-.
    rewrite Hy in Hy'. injection Hy' as <-.
    rewrite item_scale, Hsq in Hy. simpl in Hy. injection Hy as <-.
    exists m, xs. split; [by rewrite <- Hcol_item|]. split.
    { unfold bootstrap_values. rewrite <- Hxs. apply mapM_ext.
      intros t. by rewrite Hsub_item. }
    split.
    { apply length_mapM in Hxs. by rewrite <- Hxs, length_seq. }
    split.
    + rewrite Hci2_item, decide_False by (done || lia).
      rewrite Hci1_item, decide_True by (done || lia). rewrite Hloq.
      f_equal. unfold num_sub, num_scale. by destruct (std 1 xs).
    + rewrite Hci2_item, decide_True by (done || lia). rewrite Hupq.
      f_equal. unfold num_add, num_scale. by destruct (std 1 xs).
Qed.

(** A later turn of the loop leaves the interval of an earlier output as it
    is. *)
Lemma bounds_at_preserved ci ci' j q :
  j < n_outputs → q < n_qois →
  (∀ b, b < 2 → item ci' [j; q; b] = item ci [j; q; b]) →
  bounds_at ci j q → bounds_at ci' j q.
Proof.
  intros Hj Hq Heq (m & xs & Hm & Hxs & Hlen & Hlo & Hup).
  exists m, xs. rewrite !Heq by lia. done.
Qed.

Lemma confidence_interval_loop js ci :
  NoDup js → (∀ j, j ∈ js → j < n_outputs) →
  shape ci = [n_outputs; n_qois; 2] → wf ci →
  ∃ ci', for_each js (confidence_interval_step delta qoi_mean bq) ci = Ok ci' ∧
         shape ci' = [n_outputs; n_qois; 2] ∧ wf ci' ∧
         (∀ i q b, i < n_outputs → q < n_qois → b < 2 → i ∉ js →
            item ci' [i; q; b] = item ci [i; q; b]) ∧
         (∀ j q, j ∈ js → q < n_qois → bounds_at ci' j q).
Proof.
  intros Hnd. revert ci. induction Hnd as [|j js Hj Hnd IH]; intros ci Hlt Hci Hwf.
  - exists ci. split; [done|]. split; [done|]. split; [done|].
    split; [done|]. intros j q Hin. by apply elem_of_nil in Hin.
  - simpl.
    destruct (confidence_interval_step_Ok ci j)
      as (ci1 & -> & Hci1 & Hwf1 & Hother1 & Hat1);
      [done|done|apply Hlt; left|]. simpl.
    destruct (IH ci1) as (ci2 & -> & Hci2 & Hwf2 & Hother2 & Hat2);
      [intros ? ?; apply Hlt; by right|done|done|].
    exists ci2. split; [done|]. split; [done|]. split; [done|]. split.
    + intros i q b Hi Hq Hb Hnotin.
      apply not_elem_of_cons in Hnotin as [Hij Hnotin].
      rewrite Hother2 by done. by apply Hother1.
    + intros i q [->|Hin]%elem_of_cons Hq.
      * apply (bounds_at_preserved ci1); [apply Hlt; left|done| |by apply Hat1].
        intros b Hb. apply Hother2; [apply Hlt; left|done..].
      * by apply Hat2.
Qed.

End confidence.

Section bootstrapping.
Context `{RandomSource} `{NormalQuantile}.

Lemma confidence_interval_Ok qoi_mean bq confidence_level n_qois n_outputs n :
  shape qoi_mean = [n_qois; n_outputs] → wf qoi_mean →
  shape bq = [n_outputs; n_qois; n] → wf bq →
  ∃ ci, confidence_interval qoi_mean confidence_level n_qois n_outputs bq = Ok ci ∧
        shape ci = (if decide (n_outputs = 1) then [n_qois; 2]
                    else [n_outputs; n_qois; 2]) ∧
        ∀ j q, j < n_outputs → q < n_qois →
          interval_spec qoi_mean bq confidence_level n_outputs n ci j q.
Proof.
  intros Hmean Hwf_mean Hbq Hwf_bq. unfold confidence_interval.
  set (delta := (- norm_ppf ((1 - confidence_level) / 2))%R).
  destruct (confidence_interval_loop qoi_mean bq n_qois n_outputs n delta
              Hmean Hwf_mean Hbq Hwf_bq (seq 0 n_outputs)
              (zeros (Some 0%R) [n_outputs; n_qois; 2]))
    as (ci & -> & Hci & Hwf & _ & Hat).
  { apply NoDup_seq. }
  { intros j [_ Hj]%elem_of_seq. lia. }
  { done. }
  { apply wf_zeros. }
  simpl.
  assert (∀ ci' : ndarray num,
    (∀ j q b, j < n_outputs → q < n_qois →
       interval_bound ci' n_outputs j q b = item ci [j; q; b]) →
    ∀ j q, j < n_outputs → q < n_qois →
      interval_spec qoi_mean bq confidence_level n_outputs n ci' j q) as Hspec.
  { intros ci' Hci' j q Hj Hq.
    destruct (Hat j q) as (m & xs & Hm & Hxs & Hlen & Hlo & Hup);
      [apply elem_of_seq; lia|done|].
    exists m, xs. split; [done|]. split; [done|]. split; [done|].
    fold delta. cbv zeta.
    assert (std 1 xs = if decide (1 < n) then
        Some (sqrt (sum_R ((λ x, (x - mean xs) * (x - mean xs))%R <$> xs)
                    / INR (n - 1)))
      else nan) as <-.
    { unfold std. rewrite Hlen. by case_decide. }
    rewrite !Hci' by done. split; [done|]. split; [done|].
    intros Hzero. rewrite Hlo, Hup, Hzero. simpl.
    split; do 2 f_equal; lra. }
  case_decide as Hone.
  - subst n_outputs.
    destruct (row_Ok ci 1 [n_qois; 2] 0 Hci Hwf) as (r & -> & Hr & _ & Hr_item);
      [lia|].
    exists r. split; [done|]. split; [done|].
    apply Hspec. intros j q b Hj Hq. unfold interval_bound.
    rewrite decide_True by done. rewrite Hr_item. by replace j with 0 by lia.
  - exists ci. split; [done|]. split; [done|].
    apply Hspec. intros j q b Hj Hq. unfold interval_bound.
    by rewrite decide_False.
Qed.

(** The accumulator keeps its shape through the bootstrap loop. *)
Lemma assign_last_shape {A} (a v a' : ndarray A) j :
  assign_last a j v = Ok a' → shape a' = shape a ∧ wf a'.
Proof.
  unfold assign_last. destruct (reverse (shape a)) as [|d rsh]; [done|].
  case_decide; [|done]. destruct (broadcastable _ _); [|done].
  intros (Hsh & Hwf & _)%gather_Ok. done.
Qed.

Lemma bootstrap_step_shape (estimator : estimator_fn) gens bq j g bq' g' :
  bootstrap_step estimator gens bq j g = (Ok bq', g') →
  shape bq' = shape bq ∧ wf bq'.
Proof.
  unfold bootstrap_step, mbind, rand_bind, lift.
  destruct (generate_samples gens [] g) as [[args|e] g1]; [|done].
  destruct (estimator args) as [qoi|e]; [|done]. simpl.
  destruct (transpose qoi) as [qoi_T|e]; [|done]. simpl.
  intros [= Hassign <-]. by eapply assign_last_shape.
Qed.

Lemma bootstrap_loop_shape (estimator : estimator_fn) gens js bq g bq' g' :
  wf bq →
  for_each_rand js (bootstrap_step estimator gens) bq g = (Ok bq', g') →
  shape bq' = shape bq ∧ wf bq'.
Proof.
  revert bq g. induction js as [|j js IH]; intros bq g Hwf; simpl.
  - by intros [= <- <-].
  - unfold mbind, rand_bind.
    destruct (bootstrap_step estimator gens bq j g) as [[bq1|e] g1] eqn:Hstep;
      [|done].
    apply bootstrap_step_shape in Hstep as [Hsh1 Hwf1].
    intros Hloop. apply IH in Hloop as [Hsh Hwf']; [|done].
    by rewrite Hsh, Hsh1.
Qed.

(** The interval on real numbers, where [delta] is a real number and the
    standard deviation is its formula.  When the bootstrap loop has filled
    [bootstrapped_qoi], [bootstrapping] returns, for every output and every
    quantity of interest, the interval from [qoi_mean - delta * std] to
    [qoi_mean + delta * std], where [std] is the root of the sum of the
    squared deviations of the bootstrap values from their mean over
    [num_bootstrap_samples - 1], and [delta = -ppf((1 - confidence_level) / 2)];
    both bounds are [qoi_mean] when [std] is zero.  (On the numbers of the
    program, where [delta] may be infinite: [SensitivityBinary64Facts].) *)
Lemma bootstrapping_confidence_interval (estimator : estimator_fn)
    estimator_inputs qoi_mean num_bootstrap_samples confidence_level
    n_qois n_outputs gens bq g g' :
  shape qoi_mean = [n_qois; n_outputs] → wf qoi_mean →
  create_generators 0 estimator_inputs [] = Ok gens →
  for_each_rand (seq 0 num_bootstrap_samples) (bootstrap_step estimator gens)
    (zeros 0%R [n_outputs; n_qois; num_bootstrap_samples]) g = (Ok bq, g') →
  ∃ ci,
    bootstrapping estimator estimator_inputs qoi_mean num_bootstrap_samples
      confidence_level g = (Ok ci, g') ∧
    shape ci = (if decide (n_outputs = 1) then [n_qois; 2]
                else [n_outputs; n_qois; 2]) ∧
    ∀ j q, j < n_outputs → q < n_qois →
      interval_spec qoi_mean bq confidence_level n_outputs
        num_bootstrap_samples ci j q.
Proof.
  intros Hmean Hwf_mean Hgens Hloop.
  pose proof (bootstrap_loop_shape _ _ _ _ _ _ _ (wf_zeros _ _) Hloop)
    as [Hbq Hwf_bq].
  destruct (confidence_interval_Ok qoi_mean bq confidence_level n_qois
              n_outputs num_bootstrap_samples Hmean Hwf_mean Hbq Hwf_bq)
    as (ci & Hci & Hshape & Hspec).
  exists ci. split; [|done].
  unfold bootstrapping, mbind, rand_bind, lift, shape_at.
  rewrite Hmean. simpl. rewrite Hgens, Hloop. by rewrite Hci.
Qed.

End bootstrapping.

(** ** The inputs of the estimator *)

Section inputs.
Context {A : Type}.

Lemma create_generators_other i (rest : list (@pyobj A)) gens :
  create_generators i (PyOther :: rest) gens = Raise (EstimatorInputError i).
Proof. done. Qed.

(** An array that is none of the three accepted forms is skipped: no
    generator, and no exception. *)
Lemma create_generators_skip i (a : ndarray A) rest gens :
  ndim a ≠ 2 → ndim a ≠ 3 →
  create_generators i (PyArray a :: rest) gens
  = create_generators (S i) rest gens.
Proof.
  intros H2 H3. simpl.
  rewrite !decide_False; [done|done|by intros [? _]|by intros [? _]].
Qed.

(** The first element that is neither an array nor [None] is reported, with
    its position. *)
Lemma create_generators_first_other (inputs : list (@pyobj A)) k i gens :
  inputs !! k = Some PyOther →
  (∀ k', k' < k → inputs !! k' ≠ Some PyOther) →
  create_generators i inputs gens = Raise (EstimatorInputError (i + k)).
Proof.
  revert k i gens. induction inputs as [|input rest IH]; intros k i gens; [done|].
  destruct k as [|k]; simpl.
  - intros [= ->] _. by rewrite Nat.add_0_r.
  - intros Hk Hbefore.
    assert (∀ gens', create_generators (S i) rest gens'
                     = Raise (EstimatorInputError (i + S k))) as Hrest.
    { intros gens'. rewrite (IH k (S i) gens' Hk); [f_equal; f_equal; lia|].
      intros k' Hk'. apply (Hbefore (S k')). lia. }
    destruct input as [|a|].
    + apply Hrest.
    + repeat case_decide; apply Hrest.
    + by specialize (Hbefore 0 ltac:(lia)).
Qed.

End inputs.

Section rejection.
Context `{RandomSource} `{NormalQuantile}.

(** X22 (the part of C2 that holds).  An element that is neither an array
    nor [None] makes [bootstrapping] raise the error that names the position
    of the first such element, and the random source is left as it was: no
    sample has been drawn. *)
Lemma bootstrapping_rejects_other (estimator : estimator_fn) estimator_inputs
    qoi_mean n confidence_level n_qois n_outputs k g :
  shape qoi_mean = [n_qois; n_outputs] →
  estimator_inputs !! k = Some PyOther →
  (∀ k', k' < k → estimator_inputs !! k' ≠ Some PyOther) →
  bootstrapping estimator estimator_inputs qoi_mean n confidence_level g
  = (Raise (EstimatorInputError k), g).
Proof.
  intros Hmean Hk Hbefore.
  unfold bootstrapping, mbind, rand_bind, lift, shape_at. rewrite Hmean. simpl.
  by rewrite (create_generators_first_other _ k 0 [] Hk Hbefore).
Qed.

(** C2, at an array of four axes: [bootstrapping] raises nothing for it; it
    goes on as if the array were not among the inputs, and calls the
    estimator without it. *)
Theorem bootstrapping_drops_array_of_rank_4 (estimator : estimator_fn)
    qoi_mean n confidence_level g :
  create_generators 0 [PyArray (NdArray [1; 1; 1; 1] [0%R])] []
    = Ok ([] : list (option (@generator R))) ∧
  bootstrapping estimator [PyArray (NdArray [1; 1; 1; 1] [0%R])] qoi_mean n
    confidence_level g
  = bootstrapping estimator [] qoi_mean n confidence_level g.
Proof. done. Qed.

End rejection.

End SensitivityFacts.

(** * Properties of [MonteCarloSampling] *)

Module MonteCarloSamplingFacts.
Import NumPy NumPyFacts MonteCarloSampling.

Section sampler.
Context {val : Type} `{RandomStates}.

Local Abbreviation sampler := (@sampler val _).
Local Abbreviation method := (@method val _).
Local Abbreviation pyarray := (@pyarray val).
Local Abbreviation Distribution := (@Distribution val _).
Local Abbreviation distributions := (@distributions val _).
Local Abbreviation pyobj := (@pyobj val).

Lemma method_bind_Ok {A B} (m : method A) (f : A → method B) s b s' :
  (m ≫= f) s = (Ok b, s') ↔ ∃ a s1, m s = (Ok a, s1) ∧ f a s1 = (Ok b, s').
Proof.
  unfold mbind, method_bind. destruct (m s) as [[a|e] s1]; split.
  - intros Hf. by exists a, s1.
  - by intros (a' & s1' & [= <- <-] & Hf).
  - intros [=].
  - by intros (a' & s1' & [=] & _).
Qed.

(** The second half of [run] succeeds exactly when the new points make an
    array that can be put after the old ones and that has a length. *)
Lemma store_samples_Ok (s s' : sampler) :
  store_samples s = (Ok tt, s') ↔
  ∃ new a l,
    batch (dist_object s) (array_flag s) (x s) = Ok new ∧
    match samples s with
    | None => a = new
    | Some old =>
        (if (is_dist_list (dist_object s) && array_flag s)%bool
         then py_concatenate0 [old; new] else py_vstack [old; new]) = Ok a
    end ∧
    py_len a = Ok l ∧
    s' = set_samples_number (Some (Z.of_nat l)) (set_samples (Some a) s).
Proof.
  unfold store_samples, mbind, method_bind, get, set, lift. simpl.
  destruct (batch (dist_object s) (array_flag s) (x s)) as [new|e]; simpl.
  2:{ split; [done|]. intros (? & ? & ? & HH & _). discriminate HH. }
  destruct (samples s) as [old|]; simpl.
  - destruct (if (is_dist_list (dist_object s) && array_flag s)%bool
              then py_concatenate0 [old; new] else py_vstack [old; new])
      as [a|e] eqn:Hcat; simpl.
    2:{ split; [done|]. intros (? & ? & ? & [= <-] & HH & _). congruence. }
    destruct (py_len a) as [l|e] eqn:Hl; simpl.
    + split.
      * intros [= <-]. by exists new, a, l.
      * intros (? & ? & l' & [= <-] & Ha & Hl' & ->).
        rewrite Hcat in Ha. injection Ha as <-.
        rewrite Hl in Hl'. by injection Hl' as <-.
    + split; [done|]. intros (? & ? & l' & [= <-] & Ha & Hl' & _).
      rewrite Hcat in Ha. injection Ha as <-. by rewrite Hl in Hl'.
  - destruct (py_len new) as [l|e] eqn:Hl; simpl.
    + split.
      * intros [= <-]. by exists new, new, l.
      * intros (? & ? & l' & [= <-] & -> & Hl' & ->).
        rewrite Hl in Hl'. by injection Hl' as <-.
    + split; [done|]. intros (? & ? & l' & [= <-] & -> & Hl' & _).
      by rewrite Hl in Hl'.
Qed.

Lemma run_unfold n rs (s : sampler) :
  (0 < n)%Z →
  run n rs s =
  (_ ← draw_samples (Z.to_nat n); store_samples)
    (set_random_state (match rs with
                       | RSNone => random_state s
                       | _ => process_random_state rs
                       end) s).
Proof. intros Hn. unfold run. by rewrite decide_True. Qed.

(** C8.  After a call of [run] that returns, [samples_number] is the length
    of [samples]. *)
Theorem run_samples_number n rs (s s' : sampler) :
  run n rs s = (Ok tt, s') →
  ∃ a l, samples s' = Some a ∧ py_len a = Ok l ∧
         samples_number s' = Some (Z.of_nat l).
Proof.
  unfold run. case_decide as Hn; [|done].
  intros (_ & s1 & _ & (_ & s2 & _ & (_ & s3 & _ & Hstore)%method_bind_Ok
    )%method_bind_Ok)%method_bind_Ok.
  apply store_samples_Ok in Hstore as (new & a & l & _ & _ & Hl & ->).
  by exists a, l.
Qed.

(** The same for the call that the constructor makes. *)
Lemma init_samples_number dist n rs g (s' : sampler) :
  __init__ dist (Some n) rs g = (Ok tt, s') →
  ∃ a l, samples s' = Some a ∧ py_len a = Ok l ∧
         samples_number s' = Some (Z.of_nat l).
Proof.
  unfold __init__, run. case_decide as Hn; [|done].
  intros (_ & s1 & _ & (_ & s2 & _ & (_ & s3 & _ & Hstore)%method_bind_Ok
    )%method_bind_Ok)%method_bind_Ok.
  apply store_samples_Ok in Hstore as (new' & a & l & _ & _ & Hl & ->).
  by exists a, l.
Qed.

(** C7.  A count that is zero or negative is rejected before the body of
    [run] is entered: the object and the random sources are as they were. *)
Theorem run_rejects_nonpositive_count n rs (s : sampler) :
  (n ≤ 0)%Z → run n rs s = (Raise BeartypeViolation, s).
Proof. intros Hn. unfold run. rewrite decide_False by lia. done. Qed.

(** ** Distributions without [rvs] *)

(** In a list, a distribution without [rvs] makes [run] raise the error of
    the missing method. *)
Lemma draw_all_rvs_missing n (ds : list Distribution) temp (s : sampler) :
  Exists (λ d, rvs d = None) ds →
  ∃ s', draw_all n ds temp s = (Raise RvsMissing, s').
Proof.
  intros Hex. revert temp s.
  induction ds as [|d ds IH]; intros temp s; [by apply Exists_nil in Hex|].
  simpl. destruct (rvs d) as [f|] eqn:Hd.
  - apply Exists_cons in Hex as [Hex|Hex]; [congruence|].
    unfold mbind, method_bind.
    destruct (call_rvs f n s) as [[a|e] s1] eqn:Hcall.
    + by apply IH.
    + unfold call_rvs in Hcall.
      destruct (random_state s); [destruct (f n r)|destruct (f n _)]; done.
  - by eexists.
Qed.

Lemma run_list_rvs_missing n rs ds (s : sampler) :
  (0 < n)%Z → dist_object s = DistList ds →
  Exists (λ d, rvs d = None) ds →
  ∃ s', run n rs s = (Raise RvsMissing, s').
Proof.
  intros Hn Hds Hex. rewrite run_unfold by done.
  unfold draw_samples, mbind at 1 2 3, method_bind at 1 2 3, get. simpl.
  rewrite Hds.
  edestruct (draw_all_rvs_missing (Z.to_nat n) ds []) as [s' Hs']; [done|].
  unfold mbind, method_bind. rewrite Hs'. by eexists.
Qed.

(** ** The draws *)

Lemma same_attributes_refl (s : sampler) : same_attributes s s.
Proof. by repeat split. Qed.

Lemma same_attributes_trans (s1 s2 s3 : sampler) :
  same_attributes s1 s2 → same_attributes s2 s3 → same_attributes s1 s3.
Proof.
  intros (?&?&?&?&?&?&?) (?&?&?&?&?&?&?). repeat split; congruence.
Qed.

Lemma call_rvs_eq f n (s : sampler) :
  ∃ s', call_rvs f n s = (Ok (f n (current_state s)).1, s') ∧
        same_attributes s s' ∧
        current_state s' = (f n (current_state s)).2.
Proof.
  unfold call_rvs, current_state.
  destruct (random_state s) as [g|] eqn:Hrs; simpl.
  - destruct (f n g) as [a g']. eexists. split; [done|].
    repeat split; reflexivity.
  - destruct (f n (np_random s)) as [a g']. eexists. split; [done|].
    split; [repeat split; reflexivity|]. simpl. by rewrite Hrs.
Qed.

(** The first loop of [run] calls the distributions in turn on one random
    state. *)
Lemma draw_all_Ok n ds fs temp (s : sampler) :
  Forall2 (λ d f, rvs d = Some f) ds fs →
  ∃ s', draw_all n ds temp s = (Ok (temp ++ draws n fs (current_state s)), s') ∧
        same_attributes s s'.
Proof.
  intros HF. revert temp s.
  induction HF as [|d f ds fs Hd HF IH]; intros temp s; simpl.
  - exists s. rewrite app_nil_r. split; [done|]. apply same_attributes_refl.
  - rewrite Hd. unfold mbind, method_bind.
    destruct (call_rvs_eq f n s) as (s1 & -> & Hsame1 & Hcur).
    destruct (IH (temp ++ [(f n (current_state s)).1]) s1) as (s2 & -> & Hsame2).
    exists s2. rewrite Hcur, <- app_assoc. split; [done|].
    by eapply same_attributes_trans.
Qed.

Lemma draws_shape n (fs : list (nat → rng → ndarray val * rng)) g dims :
  Forall2 (λ dim f, ∀ n g, shape (f n g).1 = [n; dim] ∧ wf (f n g).1) dims fs →
  Forall2 (λ t dim, shape t = [n; dim] ∧ wf t) (draws n fs g) dims.
Proof.
  intros HF. revert g. induction HF as [|dim f dims fs Hf HF IH]; intros g; simpl.
  - constructor.
  - constructor; [apply Hf|apply IH].
Qed.

(** ** One realization *)

Lemma rows_Ok (temps : list (ndarray val)) dims n j :
  Forall2 (λ t dim, shape t = [n; dim] ∧ wf t) temps dims → j < n →
  ∃ rows, mapM (λ t, row t j) temps = Ok rows ∧
    Forall3 (λ t dim r, shape r = [dim] ∧ wf r ∧
                        ∀ idx, item r idx = item t (j :: idx))
            temps dims rows.
Proof.
  intros HF Hj. induction HF as [|t dim temps dims [Ht Hwf] HF IH]; simpl.
  - exists []. split; [done|]. constructor.
  - destruct (row_Ok t n [dim] j Ht Hwf Hj) as (r & -> & ? & ? & ?). simpl.
    destruct IH as (rows & -> & HF3). simpl.
    exists (r :: rows). split; [done|]. by constructor.
Qed.

(** The realizations of distributions of one dimension each: an array of
    shape [(number of distributions, 1)] that holds the [j]-th draw of each. *)
Lemma realization_columns (temps : list (ndarray val)) n j :
  temps ≠ [] → Forall (λ t, shape t = [n; 1] ∧ wf t) temps → j < n →
  ∃ a, realization temps j = Ok (FloatArray a) ∧
       shape a = [length temps; 1] ∧ wf a ∧
       ∀ k, item a [k; 0] = (temps !! k) ≫= (λ t, item t [j; 0]).
Proof.
  intros Hne Hall Hj. unfold realization.
  destruct (rows_Ok temps (replicate (length temps) 1) n j) as (rows & -> & HF3);
    [|done|].
  { apply Forall2_same_length_lookup. split; [by rewrite length_replicate|].
    intros k t dim Ht [-> _]%lookup_replicate.
    by apply (Forall_lookup_1 _ _ _ _ Hall Ht). }
  simpl.
  assert (length rows = length temps) as Hlen.
  { apply Forall3_length_lr in HF3. done. }
  assert (Forall (λ b, shape b = [1] ∧ wf b) rows) as Hrows.
  { apply Forall_forall. intros r Hr.
    apply list_elem_of_lookup in Hr as [k Hk].
    destruct (Forall3_lookup_r _ _ _ _ _ _ HF3 Hk)
      as (t & dim & Ht & [-> _]%lookup_replicate & ? & ? & _). done. }
  assert (rows ≠ []) as Hrne.
  { intros ->. destruct temps; [done|]. simpl in Hlen. lia. }
  unfold np_array_rows.
  assert (forallb (λ b, bool_decide (Some (shape b) = shape <$> head rows)) rows
          = true) as ->.
  { apply forallb_forall. intros b Hb%list_elem_of_In.
    apply bool_decide_eq_true_2.
    destruct rows as [|r0 rows']; [done|]. simpl.
    apply Forall_cons in Hrows as Hr0. destruct Hr0 as [[-> _] _].
    rewrite Forall_forall in Hrows. by destruct (Hrows b Hb) as [-> _]. }
  destruct (stack_Ok rows [1] Hrows Hrne) as (a & -> & Hsha & Hwfa & Hitem).
  exists a. split; [done|]. rewrite Hlen in Hsha. split; [done|]. split; [done|].
  intros k. rewrite Hitem.
  destruct (rows !! k) as [r|] eqn:Hr; simpl.
  - destruct (Forall3_lookup_r _ _ _ _ _ _ HF3 Hr)
      as (t & dim & -> & _ & _ & _ & Hritem). simpl. apply Hritem.
  - apply lookup_ge_None in Hr. by rewrite lookup_ge_None_2 by lia.
Qed.

(** One realization of distributions of any dimensions. *)
Lemma realization_layout (temps : list (ndarray val)) dims n j :
  temps ≠ [] → Forall2 (λ t dim, shape t = [n; dim] ∧ wf t) temps dims → j < n →
  ∃ xj, realization temps j = Ok xj ∧ py_wf xj ∧
        (py_shape xj, py_is_float xj) = row_layout dims.
Proof.
  intros Hne HF Hj. unfold realization.
  destruct (rows_Ok temps dims n j HF Hj) as (rows & -> & HF3). simpl.
  pose proof (Forall3_length_lr _ _ _ _ HF3) as Hlen3.
  pose proof (Forall2_length _ _ _ HF) as Hlen2.
  destruct dims as [|dim0 dims'].
  { destruct temps; [done|]. simpl in Hlen2. lia. }
  destruct rows as [|r0 rows'].
  { destruct temps; [done|]. simpl in Hlen3. lia. }
  assert (∀ k r, (r0 :: rows') !! k = Some r →
            ∃ dim, (dim0 :: dims') !! k = Some dim ∧ shape r = [dim] ∧ wf r)
    as Hrow.
  { intros k r Hr.
    destruct (Forall3_lookup_r _ _ _ _ _ _ HF3 Hr) as (t & dim & _ & ? & ? & ? & _).
    by exists dim. }
  destruct (Hrow 0 r0 eq_refl) as (? & [= <-] & Hr0 & Hwf0).
  unfold np_array_rows, row_layout.
  destruct (forallb (λ d, bool_decide (d = dim0)) (dim0 :: dims')) eqn:Hdims.
  - assert (Forall (λ b, shape b = [dim0] ∧ wf b) (r0 :: rows')) as Hrows.
    { apply Forall_forall. intros r [k Hk]%list_elem_of_lookup.
      destruct (Hrow k r Hk) as (dim & Hdim & Hshr & Hwfr). split; [|done].
      rewrite forallb_forall in Hdims.
      specialize (Hdims dim). rewrite bool_decide_eq_true in Hdims.
      rewrite Hshr, Hdims; [done|].
      apply list_elem_of_In, list_elem_of_lookup. by exists k. }
    assert (forallb (λ b, bool_decide (Some (shape b) = shape <$> head (r0 :: rows')))
              (r0 :: rows') = true) as ->.
    { apply forallb_forall. intros b Hb%list_elem_of_In.
      apply bool_decide_eq_true_2. simpl. rewrite Hr0.
      rewrite Forall_forall in Hrows. by destruct (Hrows b Hb) as [-> _]. }
    destruct (stack_Ok (r0 :: rows') [dim0] Hrows) as (a & -> & Hsha & Hwfa & _);
      [done|].
    exists (FloatArray a). split; [done|]. split; [done|].
    unfold py_shape, py_is_float. by rewrite Hsha, <- Hlen3, Hlen2.
  - assert (forallb (λ b, bool_decide (Some (shape b) = shape <$> head (r0 :: rows')))
              (r0 :: rows') = false) as ->.
    { apply not_true_is_false. intros Htrue. rewrite forallb_forall in Htrue.
      apply not_true_iff_false in Hdims. apply Hdims, forallb_forall.
      intros dim [k Hk]%list_elem_of_In%list_elem_of_lookup.
      apply bool_decide_eq_true_2.
      destruct (lookup_lt_is_Some_2 (r0 :: rows') k) as [r Hr].
      { rewrite <- Hlen3, Hlen2. by eapply lookup_lt_Some. }
      destruct (Hrow k r Hr) as (dim' & Hdim' & Hshr & _).
      rewrite Hk in Hdim'. injection Hdim' as <-.
      assert (In r (r0 :: rows')) as Hin.
      { apply list_elem_of_In, list_elem_of_lookup. by exists k. }
      apply Htrue, bool_decide_eq_true in Hin. simpl in Hin.
      rewrite Hshr, Hr0 in Hin. by injection Hin as ->. }
    assert (forallb (λ b, bool_decide (ndim b = 1)) (r0 :: rows') = true) as ->.
    { apply forallb_forall. intros r [k Hk]%list_elem_of_In%list_elem_of_lookup.
      apply bool_decide_eq_true_2.
      destruct (Hrow k r Hk) as (dim & _ & Hshr & _). unfold ndim. by rewrite Hshr. }
    eexists. split; [done|]. split.
    + unfold py_wf, wf, size. simpl. rewrite length_fmap. lia.
    + unfold py_shape, py_is_float, shape. by rewrite <- Hlen3, Hlen2.
Qed.

(** ** The second loop of [run] *)

Lemma assemble_Ok js temps (P : nat → pyarray → Prop) l0 (s : sampler) :
  x s = XList l0 →
  (∀ j, j ∈ js → ∃ xj, realization temps j = Ok xj ∧ P j xj) →
  ∃ xs, assemble js temps s = (Ok tt, set_x (XList (l0 ++ xs)) s) ∧
        Forall2 P js xs.
Proof.
  revert l0 s. induction js as [|j js IH]; intros l0 s Hx HP; simpl.
  - exists []. rewrite app_nil_r. split; [|constructor].
    unfold mret, method_ret. f_equal. destruct s. simpl in Hx. by subst.
  - destruct (HP j) as (xj & Hxj & HPj); [by left|].
    unfold mbind, method_bind, lift, get, set. rewrite Hxj, Hx.
    destruct (IH (l0 ++ [xj]) (set_x (XList (l0 ++ [xj])) s)) as (xs & Hxs & HF);
      [done|intros ? ?; apply HP; by right|].
    exists (xj :: xs). split; [|by constructor].
    rewrite Hxs. by rewrite <- app_assoc.
Qed.

(** ** [np.array(self.x)] *)

Lemma mapM_as_float_Some (xs : list pyarray) :
  Forall (λ a, py_is_float a = true) xs →
  ∃ l : list (ndarray val), mapM as_float xs = Some l ∧ xs = FloatArray <$> l.
Proof.
  induction 1 as [|a xs Ha _ (l & Hl & ->)].
  - by exists [].
  - destruct a as [a|a]; [|done]. exists (a :: l). split; [|done].
    simpl. by rewrite Hl.
Qed.

Lemma mapM_as_float_None (xs : list pyarray) :
  Forall (λ a, py_is_float a = false) xs → xs ≠ [] →
  mapM as_float xs = None ∧
  forallb (λ a, bool_decide (as_float a = None)) xs = true.
Proof.
  intros Hall Hne. split.
  - destruct Hall as [|a xs Ha _]; [done|]. by destruct a.
  - apply forallb_forall. intros a Ha%list_elem_of_In.
    rewrite Forall_forall in Hall. specialize (Hall a Ha).
    apply bool_decide_eq_true_2. by destruct a.
Qed.

Lemma np_array_list_layout (xs : list pyarray) sh fl :
  xs ≠ [] →
  Forall (λ a, py_wf a ∧ py_shape a = sh ∧ py_is_float a = fl) xs →
  ∃ a, np_array_list xs = Ok a ∧ py_wf a ∧
       py_shape a = length xs :: sh ∧ py_is_float a = fl.
Proof.
  intros Hne Hall. unfold np_array_list. destruct fl.
  - destruct (mapM_as_float_Some xs) as (l & -> & ->).
    { eapply Forall_impl; [exact Hall|]. by intros a (_ & _ & ?). }
    destruct (stack_Ok l sh) as (a & -> & Hsha & Hwfa & _).
    { apply Forall_fmap in Hall. eapply Forall_impl; [exact Hall|].
      by intros a (? & ? & _). }
    { by destruct l. }
    exists (FloatArray a). rewrite length_fmap. by repeat split.
  - destruct (mapM_as_float_None xs) as [-> ->]; [|done|].
    { eapply Forall_impl; [exact Hall|]. by intros a (_ & _ & ?). }
    destruct (stack_Ok (as_object <$> xs) sh) as (a & -> & Hsha & Hwfa & _).
    { apply Forall_fmap. eapply Forall_impl; [exact Hall|].
      intros [a|a] (? & ? & ?); [done|]. by split. }
    { by destruct xs. }
    exists (ObjectArray a). rewrite length_fmap in Hsha. by repeat split.
Qed.

Lemma mapM_as_float_fmap (l : list (ndarray val)) :
  mapM as_float (FloatArray <$> l) = Some l.
Proof.
  induction l as [|a l IH]; [done|].
  change (mapM as_float (FloatArray <$> l) ≫= (λ k, mret (a :: k))
          = Some (a :: l)).
  by rewrite IH.
Qed.

Lemma np_array_list_floats (l : list (ndarray val)) :
  np_array_list (FloatArray <$> l) = FloatArray <$> stack l.
Proof. unfold np_array_list. by rewrite mapM_as_float_fmap. Qed.

(** ** The new points as an array *)

(** For a list of one-dimensional distributions, [np.hstack(np.array(x)).T]
    has one row per realization and one column per distribution. *)
Lemma batch_columns ds (temps : list (ndarray val)) n nd (xs : list pyarray) :
  0 < n →
  Forall2 (λ j xj, ∃ a, xj = FloatArray a ∧ shape a = [nd; 1] ∧ wf a ∧
                        ∀ k, item a [k; 0] = (temps !! k) ≫= (λ t, item t [j; 0]))
          (seq 0 n) xs →
  ∃ a, batch (DistList ds) true (XList xs) = Ok (FloatArray a) ∧
       shape a = [n; nd] ∧ wf a ∧
       ∀ j k, j < n → k < nd →
         item a [j; k] = (temps !! k) ≫= (λ t, item t [j; 0]).
Proof.
  intros Hn HF. pose proof (Forall2_seq_length _ _ _ HF) as Hlen.
  assert (∃ l : list (ndarray val), xs = FloatArray <$> l ∧
            Forall2 (λ j a, shape a = [nd; 1] ∧ wf a ∧
                     ∀ k, item a [k; 0] = (temps !! k) ≫= (λ t, item t [j; 0]))
                    (seq 0 n) l) as (l & -> & HFl).
  { clear Hlen. induction HF as [|j xj js xs (a & -> & Ha) _ (l & -> & IH)].
    - by exists [].
    - exists (a :: l). split; [done|]. by constructor. }
  rewrite length_fmap in Hlen.
  unfold batch, np_array_x. rewrite np_array_list_floats.
  destruct (stack_Ok l [nd; 1]) as (x & -> & Hshx & Hwfx & Hxitem).
  { apply Forall_forall. intros a [j Hj]%list_elem_of_lookup.
    destruct (Forall2_lookup_r _ _ _ _ _ HFl Hj) as (? & _ & ? & ? & _). done. }
  { destruct l; [simpl in Hlen; lia|done]. }
  rewrite Hlen in Hshx. simpl.
  destruct (hstack_columns x n nd Hshx Hwfx Hn) as (h & Hh & Hshh & Hwfh & Hhitem).
  unfold py_hstack, py_lift1. rewrite Hh. simpl.
  destruct (transpose_2 h nd n Hshh Hwfh) as (t & Ht & Hsht & Hwft & Htitem).
  unfold py_transpose, py_lift1. rewrite Ht. simpl.
  exists t. split; [done|]. split; [done|]. split; [done|].
  intros j k Hj Hk. rewrite Htitem, Hhitem, Hxitem by done.
  destruct (lookup_lt_is_Some_2 l j) as [a Ha]; [lia|]. rewrite Ha. simpl.
  destruct (Forall2_lookup_r _ _ _ _ _ HFl Ha) as (j' & Hj' & _ & _ & Haitem).
  apply lookup_seq in Hj' as [-> _]. apply Haitem.
Qed.

(** ** The first half of [run] *)

Lemma draw_samples_list n ds fs (P : nat → pyarray → Prop) (s : sampler) :
  dist_object s = DistList ds →
  Forall2 (λ d f, rvs d = Some f) ds fs →
  (∀ j, j < n → ∃ xj, realization (draws n fs (current_state s)) j = Ok xj ∧ P j xj) →
  ∃ s1 xs, draw_samples n s = (Ok tt, s1) ∧ x s1 = XList xs ∧
           Forall2 P (seq 0 n) xs ∧
           dist_object s1 = dist_object s ∧ array_flag s1 = array_flag s ∧
           samples s1 = samples s.
Proof.
  intros Hds Hfs HP.
  unfold draw_samples, mbind at 1, method_bind at 1, get. rewrite Hds.
  destruct (draw_all_Ok n ds fs [] s Hfs) as (s1 & Hs1 & Hsame).
  unfold mbind at 1, method_bind at 1. rewrite Hs1. simpl app.
  unfold mbind at 1, method_bind at 1, set.
  destruct (assemble_Ok (seq 0 n) (draws n fs (current_state s)) P []
              (set_x (XList []) s1)) as (xs & Hxs & HF).
  { done. }
  { intros j [_ Hj]%elem_of_seq. apply HP. lia. }
  rewrite Hxs. destruct Hsame as (Hd1 & _ & Ha1 & Hs1' & _).
  exists (set_x (XList ([] ++ xs)) (set_x (XList []) s1)), xs.
  split; [done|]. split; [done|]. split; [done|]. simpl.
  by rewrite Hd1, Ha1, Hs1', Hds.
Qed.

Lemma draw_samples_single n d f (s : sampler) :
  dist_object s = Single d → rvs d = Some f →
  ∃ s1, draw_samples n s = (Ok tt, s1) ∧
        x s1 = XArray (f n (current_state s)).1 ∧
        dist_object s1 = dist_object s ∧ array_flag s1 = array_flag s ∧
        samples s1 = samples s.
Proof.
  intros Hd Hf.
  unfold draw_samples, mbind at 1, method_bind at 1, get. rewrite Hd, Hf.
  unfold mbind, method_bind, set.
  destruct (call_rvs_eq f n s) as (s1 & -> & (Hd1 & _ & Ha1 & Hs1 & _) & _).
  exists (set_x (XArray (f n (current_state s)).1) s1).
  split; [done|]. split; [done|]. simpl. by rewrite Hd1, Ha1, Hs1, Hd.
Qed.

Lemma all_continuous_1d (ds : list Distribution) :
  snd (_process_distributions (DistList ds)) = true →
  Forall (λ d : Distribution, class_of d = DistributionContinuous1D) ds.
Proof.
  unfold _process_distributions. case_decide as Hlen; [|done]. intros _.
  induction ds as [|d ds IH]; [constructor|].
  rewrite filter_cons in Hlen.
  pose proof (length_filter
    (λ d : Distribution, class_of d = DistributionContinuous1D) ds).
  case_decide; simpl in Hlen; [|lia].
  constructor; [done|]. apply IH. lia.
Qed.

Lemma rvs_returns_1d (ds : list Distribution) dims fs :
  Forall (λ d : Distribution, class_of d = DistributionContinuous1D) ds →
  Forall3 (λ d dim f, rvs_returns d dim f) ds dims fs →
  Forall2 (λ d f, rvs_returns d 1 f) ds fs.
Proof.
  intros Hall HF. induction HF as [|d dim f ds dims fs Hd HF IH].
  - constructor.
  - apply Forall_cons in Hall as [Hcls Hall].
    constructor; [|by apply IH].
    destruct Hd as (Hf & Hdim & Hsh). rewrite Hdim in Hsh by done.
    split; [done|]. split; done.
Qed.

(** The new points of a list of one-dimensional distributions. *)
Lemma new_points_columns n ds fs (s : sampler) :
  dist_object s = DistList ds → ds ≠ [] → 0 < n →
  Forall2 (λ d f, rvs_returns d 1 f) ds fs →
  ∃ s1 a, draw_samples n s = (Ok tt, s1) ∧
    dist_object s1 = dist_object s ∧ array_flag s1 = array_flag s ∧
    samples s1 = samples s ∧
    batch (DistList ds) true (x s1) = Ok (FloatArray a) ∧
    shape a = [n; length ds] ∧ wf a ∧
    ∀ j k, j < n → k < length ds →
      item a [j; k] = (draws n fs (current_state s) !! k) ≫= (λ t, item t [j; 0]).
Proof.
  intros Hds Hne Hn HF.
  set (temps := draws n fs (current_state s)).
  assert (Forall (λ t, shape t = [n; 1] ∧ wf t) temps ∧ length temps = length ds)
    as [Htemps Hlen].
  { unfold temps. clear Hds Hne. generalize (current_state s).
    induction HF as [|d f ds fs (_ & _ & Hf) HF IH]; intros g; simpl.
    - by split.
    - destruct (IH (f n g).2) as [IH1 IH2]. split; [|by rewrite IH2].
      constructor; [apply Hf|done]. }
  destruct (draw_samples_list n ds fs
    (λ j xj, ∃ a, xj = FloatArray a ∧ shape a = [length ds; 1] ∧ wf a ∧
             ∀ k, item a [k; 0] = (temps !! k) ≫= (λ t, item t [j; 0])) s)
    as (s1 & xs & Hs1 & Hx & HFxs & Hd1 & Ha1 & Hsm1).
  { done. }
  { eapply Forall2_impl; [exact HF|]. by intros d f (? & _). }
  { intros j Hj. fold temps.
    destruct (realization_columns temps n j) as (a & Ha & Hsha & Hwfa & Hitem);
      [|done|done|].
    { intros Hnil. rewrite Hnil in Hlen. by destruct ds. }
    exists (FloatArray a). split; [done|]. exists a. rewrite Hlen in Hsha.
    done. }
  destruct (batch_columns ds temps n (length ds) xs Hn HFxs)
    as (a & Ha & Hsha & Hwfa & Hitem).
  exists s1, a. rewrite Hx. done.
Qed.

Lemma row_layout_nonempty dims : (row_layout dims).1 ≠ [].
Proof.
  unfold row_layout. destruct dims as [|dim dims]; [done|].
  by destruct (forallb _ _).
Qed.

Lemma point_layout_nonempty (dist : distributions) dims :
  well_behaved dist dims → (point_layout dist dims).1 ≠ [].
Proof.
  destruct dist as [d|ds]; simpl.
  - by intros (dim & f & -> & _).
  - intros _. destruct (snd _); [done|]. apply row_layout_nonempty.
Qed.

Lemma point_layout_list (ds : list Distribution) dims :
  point_layout (DistList ds) dims
  = if snd (_process_distributions (DistList ds)) then ([length ds], true)
    else row_layout dims.
Proof. done. Qed.

(** The new points of any object whose distributions keep their promise:
    an array with one point per realization. *)
Lemma new_points n (dist : distributions) dims (s : sampler) :
  well_behaved dist dims → dist_object s = dist →
  array_flag s = snd (_process_distributions dist) → 0 < n →
  ∃ s1 new, draw_samples n s = (Ok tt, s1) ∧
    dist_object s1 = dist ∧ array_flag s1 = array_flag s ∧
    samples s1 = samples s ∧
    batch dist (array_flag s1) (x s1) = Ok new ∧ py_wf new ∧
    py_shape new = n :: (point_layout dist dims).1 ∧
    py_is_float new = (point_layout dist dims).2.
Proof.
  intros Hwb Hdist Harr Hn. destruct dist as [d|ds].
  - destruct Hwb as (dim & f & -> & Hf & _ & Hsh).
    destruct (draw_samples_single n d f s Hdist Hf)
      as (s1 & Hs1 & Hx & Hd1 & Ha1 & Hsm1).
    exists s1, (FloatArray (f n (current_state s)).1).
    split; [done|]. split; [congruence|]. split; [done|]. split; [done|].
    unfold batch. rewrite Hx. simpl.
    destruct (Hsh n (current_state s)) as [Hshape Hwf]. done.
  - destruct Hwb as (Hne & fs & HF3).
    destruct (snd (_process_distributions (DistList ds))) eqn:Hmode.
    + pose proof (all_continuous_1d ds Hmode) as H1d.
      pose proof (rvs_returns_1d ds dims fs H1d HF3) as HF.
      destruct (new_points_columns n ds fs s Hdist Hne Hn HF)
        as (s1 & a & Hs1 & Hd1 & Ha1 & Hsm1 & Hbatch & Hsha & Hwfa & _).
      exists s1, (FloatArray a).
      split; [done|]. split; [congruence|]. split; [done|]. split; [done|].
      rewrite Ha1, Harr. split; [done|]. split; [done|].
      rewrite point_layout_list, Hmode. simpl. by rewrite Hsha.
    + set (temps := draws n fs (current_state s)).
      assert (Forall2 (λ t dim, shape t = [n; dim] ∧ wf t) temps dims) as Htemps.
      { apply draws_shape. clear -HF3.
        induction HF3 as [|d dim f ds dims fs (_ & _ & Hf) _ IH]; by constructor. }
      assert (temps ≠ []) as Htne.
      { intros Hnil. apply Forall2_length in Htemps.
        apply Forall3_length_lm in HF3. rewrite Hnil in Htemps.
        simpl in Htemps. rewrite <- Htemps in HF3. by destruct ds. }
      destruct (draw_samples_list n ds fs
        (λ j xj, py_wf xj ∧ py_shape xj = (row_layout dims).1 ∧
                 py_is_float xj = (row_layout dims).2) s)
        as (s1 & xs & Hs1 & Hx & HFxs & Hd1 & Ha1 & Hsm1).
      { done. }
      { clear -HF3.
        induction HF3 as [|d dim f ds dims fs (? & _) _ IH]; by constructor. }
      { intros j Hj. fold temps.
        destruct (realization_layout temps dims n j Htne Htemps Hj)
          as (xj & Hxj & Hwfx & Hlay).
        exists xj. split; [done|]. split; [done|].
        by rewrite <- Hlay. }
      pose proof (Forall2_seq_length _ _ _ HFxs) as Hlen.
      destruct (np_array_list_layout xs (row_layout dims).1 (row_layout dims).2)
        as (a & Ha & Hwfa & Hsha & Hfla).
      { destruct xs; [simpl in Hlen; lia|done]. }
      { apply Forall_forall. intros xj [j Hj]%list_elem_of_lookup.
        by destruct (Forall2_lookup_r _ _ _ _ _ HFxs Hj) as (? & _ & ?). }
      exists s1, a.
      split; [done|]. split; [congruence|]. split; [done|]. split; [done|].
      rewrite Ha1, Harr. split.
      { unfold batch. rewrite Hx. simpl. by rewrite Ha. }
      split; [done|]. rewrite point_layout_list, Hmode. by rewrite Hsha, Hlen.
Qed.

(** ** Putting the new points after the old ones *)

Lemma py_concatenate0_floats (a b : ndarray val) :
  py_concatenate0 [FloatArray a; FloatArray b]
  = FloatArray <$> concatenate0 [a; b].
Proof. reflexivity. Qed.

Lemma py_vstack_floats (a b : ndarray val) :
  py_vstack [FloatArray a; FloatArray b]
  = FloatArray <$> concatenate0 [atleast_2d a; atleast_2d b].
Proof. reflexivity. Qed.

Lemma py_concatenate0_objects (a b : ndarray pyobj) :
  py_concatenate0 [ObjectArray a; ObjectArray b]
  = ObjectArray <$> concatenate0 [a; b].
Proof. reflexivity. Qed.

Lemma py_vstack_objects (a b : ndarray pyobj) :
  py_vstack [ObjectArray a; ObjectArray b]
  = ObjectArray <$> concatenate0 [atleast_2d a; atleast_2d b].
Proof. reflexivity. Qed.

Lemma py_append (old new : pyarray) n1 n2 sh :
  py_wf old → py_wf new → py_shape old = n1 :: sh → py_shape new = n2 :: sh →
  sh ≠ [] → py_is_float old = py_is_float new →
  ∃ a, py_concatenate0 [old; new] = Ok a ∧ py_vstack [old; new] = Ok a ∧
       py_wf a ∧ py_shape a = (n1 + n2) :: sh ∧
       py_is_float a = py_is_float old ∧
       ∀ j, j < n1 → ∃ r, py_row old j = Ok r ∧ py_row a j = Ok r.
Proof.
  intros Hwo Hwn Hso Hsn Hsh Hfl.
  destruct sh as [|m sh']; [done|].
  destruct old as [a|a], new as [b|b]; try done; simpl in *.
  - destruct (concatenate0_pair a b n1 n2 (m :: sh') Hso Hsn Hwo Hwn)
      as (c & Hc & Hshc & Hwfc & Hitem).
    exists (FloatArray c).
    rewrite py_concatenate0_floats, py_vstack_floats.
    rewrite (atleast_2d_id a n1 m sh'), (atleast_2d_id b n2 m sh') by done.
    rewrite Hc. do 5 (split; [done|]).
    intros j Hj.
    destruct (row_concatenate0 a b c n1 n2 (m :: sh') j Hso Hsn Hwo Hwn Hc Hj)
      as (r & Hr & Hr').
    exists (FloatArray r). unfold py_row, py_lift1. by rewrite Hr, Hr'.
  - destruct (concatenate0_pair a b n1 n2 (m :: sh') Hso Hsn Hwo Hwn)
      as (c & Hc & Hshc & Hwfc & Hitem).
    exists (ObjectArray c).
    rewrite py_concatenate0_objects, py_vstack_objects.
    rewrite (atleast_2d_id a n1 m sh'), (atleast_2d_id b n2 m sh') by done.
    rewrite Hc. do 5 (split; [done|]).
    intros j Hj.
    destruct (row_concatenate0 a b c n1 n2 (m :: sh') j Hso Hsn Hwo Hwn Hc Hj)
      as (r & Hr & Hr').
    exists (ObjectArray r). unfold py_row, py_lift1. by rewrite Hr, Hr'.
Qed.

Lemma py_len_shape (a : pyarray) n sh : py_shape a = n :: sh → py_len a = Ok n.
Proof. destruct a as [a|a]; simpl; unfold len; by intros ->. Qed.

(** ** [run] on an object whose distributions keep their promise *)

Lemma run_first n rs (dist : distributions) dims (s : sampler) :
  well_behaved dist dims → dist_object s = dist →
  array_flag s = snd (_process_distributions dist) → samples s = None →
  (0 < n)%Z →
  ∃ s' a, run n rs s = (Ok tt, s') ∧ holds dist dims s' (Z.to_nat n) a ∧
          dist_object s' = dist ∧ array_flag s' = array_flag s ∧
          samples_number s' = Some n.
Proof.
  intros Hwb Hdist Harr Hnone Hn. rewrite run_unfold by done.
  set (s0 := set_random_state _ s).
  destruct (new_points (Z.to_nat n) dist dims s0 Hwb Hdist Harr)
    as (s1 & new & Hs1 & Hd1 & Ha1 & Hsm1 & Hbatch & Hwf & Hshape & Hfl); [lia|].
  eexists _, new. split.
  { apply method_bind_Ok. exists tt, s1. split; [done|].
    apply store_samples_Ok. exists new, new, (Z.to_nat n).
    rewrite Hd1, Hbatch, Hsm1. simpl. rewrite Hnone.
    split; [done|]. split; [done|]. split; [|done].
    by eapply py_len_shape. }
  simpl. split; [done|]. split; [done|]. split; [done|].
  by rewrite Z2Nat.id by lia.
Qed.

Lemma run_next n rs (dist : distributions) dims (s : sampler) n0 old :
  well_behaved dist dims → dist_object s = dist →
  array_flag s = snd (_process_distributions dist) →
  holds dist dims s n0 old → (0 < n)%Z →
  ∃ s' a, run n rs s = (Ok tt, s') ∧ holds dist dims s' (n0 + Z.to_nat n) a ∧
          dist_object s' = dist ∧ array_flag s' = array_flag s ∧
          samples_number s' = Some (Z.of_nat n0 + n)%Z ∧
          ∀ j, j < n0 → ∃ r, py_row old j = Ok r ∧ py_row a j = Ok r.
Proof.
  intros Hwb Hdist Harr (Hold & Hwfo & Hsho & Hflo) Hn.
  rewrite run_unfold by done.
  set (s0 := set_random_state _ s).
  destruct (new_points (Z.to_nat n) dist dims s0 Hwb Hdist Harr)
    as (s1 & new & Hs1 & Hd1 & Ha1 & Hsm1 & Hbatch & Hwf & Hshape & Hfl); [lia|].
  destruct (py_append old new n0 (Z.to_nat n) (point_layout dist dims).1)
    as (a & Hcat & Hvst & Hwfa & Hsha & Hfla & Hrows);
    [done|done|done|done|by apply point_layout_nonempty|congruence|].
  eexists _, a. split.
  { apply method_bind_Ok. exists tt, s1. split; [done|].
    apply store_samples_Ok. exists new, a, (n0 + Z.to_nat n).
    rewrite Hd1, Hbatch, Hsm1. simpl. rewrite Hold.
    split; [done|]. split; [by destruct (is_dist_list dist && array_flag s1)%bool|].
    split; [|done]. by eapply py_len_shape. }
  simpl. split; [split; [done|]; split; [done|]; split; [done|congruence]|].
  split; [done|]. split; [done|]. split; [|done].
  f_equal. lia.
Qed.

Lemma new_attributes (dist : distributions) sn rs g :
  dist_object (new dist sn rs g) = dist ∧
  array_flag (new dist sn rs g) = snd (_process_distributions dist) ∧
  samples (new dist sn rs g) = None.
Proof. unfold new. by destruct (_process_distributions dist). Qed.

(** X24 (the part of C4 that holds).  On an object made for one distribution
    or for a list of at least one distribution, the distributions returning
    one row per point asked for: two calls of [run], for [n1] and for [n2]
    points, leave a collection of [n1 + n2] points whose first [n1] points
    are the points that the first call has left. *)
Theorem run_twice_appends_points (dist : distributions) dims sn rs g
    n1 rs1 n2 rs2 :
  well_behaved dist dims → (0 < n1)%Z → (0 < n2)%Z →
  run_twice_appends (new dist sn rs g) n1 rs1 n2 rs2.
Proof.
  intros Hwb Hn1 Hn2.
  destruct (new_attributes dist sn rs g) as (Hd0 & Ha0 & Hs0).
  destruct (run_first n1 rs1 dist dims (new dist sn rs g) Hwb Hd0 Ha0 Hs0 Hn1)
    as (s1 & a1 & Hrun1 & Hholds1 & Hd1 & Ha1 & Hnum1).
  destruct (run_next n2 rs2 dist dims s1 (Z.to_nat n1) a1 Hwb Hd1)
    as (s2 & a2 & Hrun2 & Hholds2 & Hd2 & Ha2 & Hnum2 & Hrows);
    [congruence|done|done|].
  exists s1, s2, a1, a2.
  destruct Hholds1 as (Hsm1 & _ & Hsh1 & _).
  destruct Hholds2 as (Hsm2 & _ & Hsh2 & _).
  split; [done|]. split; [done|]. split; [done|]. split; [done|].
  split; [by eapply py_len_shape|]. split; [by eapply py_len_shape|].
  split; [|done]. rewrite Hnum2. f_equal. lia.
Qed.

(** C5, as amended.  On an object made for a list of at least one
    one-dimensional distribution, [run] for [n] points leaves an array of
    shape [(n, len(distributions))] whose column [k] holds the draws of
    distribution [k], the distributions drawing one after the other, in the
    order of the list, from the one random state of the call: column 0 is
    what distribution 0 draws from the state of the seed, and column [k] is
    what distribution [k] draws from the state as the distributions before
    it have left it. *)
Theorem run_fills_columns_of_1d (ds : list Distribution) fs sn rs0 g n rs :
  ds ≠ [] →
  Forall (λ d : Distribution, class_of d = DistributionContinuous1D) ds →
  Forall2 (λ d f, rvs_returns d 1 f) ds fs → (0 < n)%Z →
  run_fills_columns ds fs (new (DistList ds) sn rs0 g) n rs.
Proof.
  intros Hne H1d HF Hn. unfold run_fills_columns.
  set (s := new (DistList ds) sn rs0 g).
  destruct (new_attributes (DistList ds) sn rs0 g) as (Hd0 & Ha0 & Hs0).
  fold s in Hd0, Ha0, Hs0.
  assert (snd (_process_distributions (DistList ds)) = true) as Hmode.
  { unfold _process_distributions. rewrite decide_True; [done|].
    clear -H1d. induction H1d as [|d ds Hd _ IH]; [done|].
    rewrite filter_cons, decide_True by done. simpl. by rewrite IH. }
  rewrite run_unfold by done.
  set (s0 := set_random_state _ s).
  destruct (new_points_columns (Z.to_nat n) ds fs s0) as
    (s1 & a & Hs1 & Hd1 & Ha1 & Hsm1 & Hbatch & Hsha & Hwfa & Hitem);
    [done|done|lia|done|].
  eexists _, a. split.
  { apply method_bind_Ok. exists tt, s1. split; [done|].
    apply store_samples_Ok. exists (FloatArray a), (FloatArray a), (Z.to_nat n).
    rewrite Hd1, Ha1, Hsm1. simpl. rewrite Hd0, Ha0, Hs0, Hmode.
    split; [done|]. split; [done|]. split; [|done].
    unfold len. by rewrite Hsha. }
  simpl. split; [done|]. split; [done|].
  intros j k Hj Hk.
  assert (length (draws (Z.to_nat n) fs (start_state rs s)) = length ds) as Hlen.
  { generalize (start_state rs s). clear -HF.
    induction HF as [|d f ds fs _ _ IH]; intros g; simpl; [done|].
    by rewrite IH. }
  destruct (lookup_lt_is_Some_2 (draws (Z.to_nat n) fs (start_state rs s)) k)
    as [t Ht]; [lia|].
  assert (shape t = [Z.to_nat n; 1] ∧ wf t) as [Hsht Hwft].
  { assert (Forall2 (λ dim f, ∀ n g, shape (f n g).1 = [n; dim] ∧ wf (f n g).1)
              (replicate (length ds) 1) fs) as HF'.
    { clear -HF. induction HF as [|d f ds fs (_ & _ & Hf) _ IH]; by constructor. }
    pose proof (draws_shape (Z.to_nat n) fs (start_state rs s) _ HF') as Hsh.
    destruct (Forall2_lookup_l _ _ _ _ _ Hsh Ht) as (dim & Hdim & Ht').
    apply lookup_replicate in Hdim as [-> _]. done. }
  destruct (item_in_bounds t [j; 0] Hwft) as [v Hv].
  { rewrite Hsht. apply ravel_2. exists j, 0. split; [done|]. split; [done|]. lia. }
  exists t, v. split; [done|]. split; [done|].
  rewrite Hitem by done.
  change (current_state s0) with (start_state rs s) at 1.
  rewrite Ht. done.
Qed.

End sampler.
End MonteCarloSamplingFacts.

(** * Properties of [GrassmannianKernel.calculate_kernel_matrix] *)

Module GrassmannianKernelFacts.
Import NumPy NumPyFacts GrassmannianKernel.

(** ** The pairs *)

Lemma elem_of_combinations n i j :
  (i, j) ∈ combinations_with_replacement n ↔ i ≤ j ∧ j < n.
Proof.
  unfold combinations_with_replacement. rewrite list_elem_of_bind. split.
  - intros (i' & (j' & [= -> ->] & Hj)%list_elem_of_fmap & Hi).
    apply elem_of_seq in Hj, Hi. lia.
  - intros [Hij Hj]. exists i. split.
    + apply list_elem_of_fmap. exists j. split; [done|]. apply elem_of_seq. lia.
    + apply elem_of_seq. lia.
Qed.

Lemma NoDup_combinations n : NoDup (combinations_with_replacement n).
Proof.
  unfold combinations_with_replacement. apply NoDup_bind.
  - intros i1 i2 [i j] _ _ (? & [= -> ->] & _)%list_elem_of_fmap
      (? & [= -> _] & _)%list_elem_of_fmap. done.
  - intros i _. apply NoDup_fmap_2; [|apply NoDup_seq]. by intros ? ? [= ->].
  - apply NoDup_seq.
Qed.

Section kernel.
Context {val : Type} `{!@Kernel val}.

Local Abbreviation GrassmannPoint := (@GrassmannPoint val).

(** ** Truncation *)



(** With a rank that is not zero the point is cut to its leading columns:
    the first [p] of them for a positive [p] (all of them when there are
    fewer). *)
Lemma truncate_columns (x : GrassmannPoint) (p : Z) r c :
  p ≠ 0%Z → shape (point_data x) = [r; c] → wf (point_data x) →
  ∃ d, truncate (Some p) x = Ok {| point_data := d |} ∧
       shape d = [r; slice_stop p c] ∧ wf d ∧
       ∀ i j, i < r → j < slice_stop p c → item d [i; j] = item (point_data x) [i; j].
Proof.
  intros Hp Hsh Hwf. unfold truncate. rewrite decide_False by done.
  destruct (take_columns_Ok (point_data x) r c p Hsh Hwf) as (d & -> & Hd).
  by exists d.
Qed.

Lemma truncate_Ok p (x : GrassmannPoint) :
  valid_point x → ∃ x', truncate p x = Ok x'.
Proof.
  intros (r & c & Hsh & Hwf). destruct p as [p|]; [|by eexists].
  destruct (decide (p = 0%Z)) as [->|Hp]; [by eexists|].
  destruct (truncate_columns x p r c Hp Hsh Hwf) as (d & -> & _). by eexists.
Qed.

Lemma entry_Ok (points : list GrassmannPoint) p i j :
  Forall valid_point points → i < length points → j < length points →
  ∃ e, entry points p i j = Ok e.
Proof.
  intros Hvalid Hi Hj. unfold entry.
  destruct (lookup_lt_is_Some_2 points i Hi) as [pi Hpi].
  destruct (lookup_lt_is_Some_2 points j Hj) as [pj Hpj].
  rewrite Hpi, Hpj. simpl.
  destruct (truncate_Ok p pi) as [xi ->];
    [by eapply Forall_lookup_1|].
  destruct (truncate_Ok p pj) as [xj ->];
    [by eapply Forall_lookup_1|].
  by eexists.
Qed.

(** ** The loop *)

Section loop.
Context (points : list GrassmannPoint) (p : option Z).
Context (Hvalid : Forall valid_point points).

Local Abbreviation n := (length points).

Lemma kernel_step_Ok kernel calls i j :
  shape kernel = [n; n] → wf kernel → i < n → j < n →
  ∃ kernel' e,
    entry points p i j = Ok e ∧
    kernel_step points p (kernel, calls) (i, j) = Ok (kernel', calls ++ [(i, j)]) ∧
    shape kernel' = [n; n] ∧ wf kernel' ∧
    item kernel' [i; j] = Some e ∧ item kernel' [j; i] = Some e ∧
    ∀ a b, (a, b) ≠ (i, j) → (a, b) ≠ (j, i) →
      item kernel' [a; b] = item kernel [a; b].
Proof.
  intros Hsh Hwf Hi Hj. unfold kernel_step.
  destruct (entry_Ok points p i j Hvalid Hi Hj) as [e He]. rewrite He. simpl.
  destruct (assign_item_Ok kernel n n i j e Hsh Hwf Hi Hj)
    as (k1 & -> & Hsh1 & Hwf1 & Hij1 & Hother1). simpl.
  rewrite Hij1. simpl.
  destruct (assign_item_Ok k1 n n j i e Hsh1 Hwf1 Hj Hi)
    as (k2 & -> & Hsh2 & Hwf2 & Hji2 & Hother2). simpl.
  exists k2, e. split; [done|]. split; [done|]. split; [done|]. split; [done|].
  split; [|split; [done|]].
  - destruct (decide ((i, j) = (j, i))) as [[= ->]|Hne]; [done|].
    by rewrite Hother2.
  - intros a b Hab Hba. rewrite Hother2 by done. by apply Hother1.
Qed.

Lemma kernel_loop pairs kernel calls :
  shape kernel = [n; n] → wf kernel →
  (∀ i j, (i, j) ∈ pairs → i < n ∧ j < n) →
  NoDup pairs →
  (∀ i j, (i, j) ∈ pairs → (j, i) ∈ pairs → i = j) →
  ∃ kernel',
    for_each pairs (kernel_step points p) (kernel, calls)
      = Ok (kernel', calls ++ pairs) ∧
    shape kernel' = [n; n] ∧ wf kernel' ∧
    (∀ a b, (a, b) ∉ pairs → (b, a) ∉ pairs →
       item kernel' [a; b] = item kernel [a; b]) ∧
    (∀ i j, (i, j) ∈ pairs →
       ∃ e, entry points p i j = Ok e ∧
            item kernel' [i; j] = Some e ∧ item kernel' [j; i] = Some e).
Proof.
  intros Hsh Hwf Hbounds Hnd. revert kernel calls Hsh Hwf Hbounds.
  induction Hnd as [|[i j] pairs Hnotin Hnd IH];
    intros kernel calls Hsh Hwf Hbounds Hanti.
  - exists kernel. rewrite app_nil_r. split; [done|]. split; [done|].
    split; [done|]. split; [done|]. intros i j Hin. by apply elem_of_nil in Hin.
  - destruct (Hbounds i j) as [Hi Hj]; [by left|].
    destruct (kernel_step_Ok kernel calls i j Hsh Hwf Hi Hj)
      as (k1 & e & He & Hstep & Hsh1 & Hwf1 & Hij1 & Hji1 & Hother1).
    assert ((j, i) ∉ pairs) as Hnotin'.
    { intros Hin. assert (i = j) as ->; [|done].
      apply Hanti; [by left|by right]. }
    destruct (IH k1 (calls ++ [(i, j)]) Hsh1 Hwf1)
      as (k2 & Hloop & Hsh2 & Hwf2 & Hother2 & Hin2).
    { intros ? ? ?. apply Hbounds. by right. }
    { intros a b Hab Hba. apply Hanti; by right. }
    exists k2. rewrite for_each_cons, Hstep. simpl.
    rewrite Hloop, <- app_assoc.
    split; [done|]. split; [done|]. split; [done|]. split.
    + intros a b [Hab Hab']%not_elem_of_cons [Hba Hba']%not_elem_of_cons.
      rewrite Hother2 by done. apply Hother1; [done|]. by intros [= -> ->].
    + intros a b [[= -> ->]|Hin]%elem_of_cons.
      * exists e. split; [done|]. by rewrite !Hother2.
      * by apply Hin2.
Qed.

End loop.

(** C9.  For a list of points (each with data of two axes),
    [calculate_kernel_matrix] returns an [n] by [n] matrix that is its own
    transpose; for [i <= j] both [M[i, j]] and [M[j, i]] are the entry of
    the pair [(i, j)], hence [M[i, i]] the entry of [(i, i)]; and
    [kernel_entry] has been called once for each pair [(i, j)] with
    [i <= j], and for no other pair. *)
Theorem calculate_kernel_matrix_symmetric (zero : val)
    (points : list GrassmannPoint) (p : option Z) :
  Forall valid_point points →
  ∃ M calls,
    calculate_kernel_matrix_calls zero points p = Ok (M, calls) ∧
    calculate_kernel_matrix zero points p = Ok M ∧
    shape M = [length points; length points] ∧ wf M ∧
    transpose M = Ok M ∧
    (∀ i j, i ≤ j → j < length points →
       ∃ e, entry points p i j = Ok e ∧
            item M [i; j] = Some e ∧ item M [j; i] = Some e) ∧
    NoDup calls ∧
    (∀ i j, (i, j) ∈ calls ↔ i ≤ j ∧ j < length points).
Proof.
  intros Hvalid.
  destruct (kernel_loop points p Hvalid
              (combinations_with_replacement (length points))
              (zeros zero [length points; length points]) [])
    as (M & Hloop & Hsh & Hwf & _ & Hin).
  { done. }
  { apply wf_zeros. }
  { intros i j Hij%elem_of_combinations. lia. }
  { apply NoDup_combinations. }
  { intros i j Hij%elem_of_combinations Hji%elem_of_combinations. lia. }
  assert (∀ i j, i ≤ j → j < length points →
            ∃ e, entry points p i j = Ok e ∧
                 item M [i; j] = Some e ∧ item M [j; i] = Some e) as Hentries.
  { intros i j Hij Hj. apply Hin, elem_of_combinations. lia. }
  exists M, (combinations_with_replacement (length points)).
  split; [done|]. split.
  { unfold calculate_kernel_matrix, calculate_kernel_matrix_calls.
    unfold calculate_kernel_matrix_calls in Hloop. by rewrite Hloop. }
  split; [done|]. split; [done|]. split.
  { destruct (transpose_2 M _ _ Hsh Hwf) as (T & -> & HshT & HwfT & HT).
    f_equal. apply item_ext; [by rewrite HshT, Hsh|done|done|].
    intros idx. destruct (ravel (shape M) idx) as [o|] eqn:Ho.
    - assert (is_Some (ravel (shape M) idx)) as HS by (by eexists).
      rewrite Hsh in HS. apply ravel_2 in HS as (a & b & -> & Ha & Hb).
      rewrite HT by done.
      destruct (decide (a ≤ b)) as [Hab|Hab].
      + destruct (Hentries a b Hab Hb) as (e & _ & -> & ->). done.
      + destruct (Hentries b a) as (e & _ & -> & ->); [lia|done|done].
    - rewrite !item_out_of_bounds; [done|done|]. by rewrite HshT, <- Hsh. }
  split; [done|]. split; [apply NoDup_combinations|].
  intros i j. apply elem_of_combinations.
Qed.

End kernel.
End GrassmannianKernelFacts.

(** * The theorems at concrete inputs *)

Module Checks.
Import NumPy NumPyFacts Examples.

(** ** Bootstrap *)

Section sensitivity.
Import Sensitivity SensitivityFacts.

#[local] Instance counter_source_laws : RandomSourceLaws (H := counter_source).
Proof.
  split.
  - done.
  - intros g high sz. unfold wf. simpl. by rewrite length_fmap, length_seq.
  - intros g high sz Hhigh. simpl. apply Forall_fmap, Forall_forall.
    intros i _. simpl. apply Nat.mod_upper_bound. lia.
Qed.

Lemma bootstrap_sample_generator_3D_yield_witness :
  shape samples_2_3_2 = [2; 3; 2] ∧ wf samples_2_3_2 ∧
  ∃ out,
    next (H := counter_source) (bootstrap_sample_generator_3D samples_2_3_2) 1
      = (Ok out, (randint (RandomSource := counter_source) 1 3 [3; 2]).2) ∧
    shape out = [2; 3; 2] ∧ wf out ∧
    ∀ k r c, k < 2 → r < 3 → c < 2 →
      ∃ i x, item (randint (RandomSource := counter_source) 1 3 [3; 2]).1 [r; c] = Some i ∧ i < 3 ∧
             item samples_2_3_2 [k; i; c] = Some x ∧
             item out [k; r; c] = Some x.
Proof.
  split; [reflexivity|]. split; [reflexivity|].
  apply (bootstrap_sample_generator_3D_yield (H := counter_source)
           samples_2_3_2 2 3 2 1);
    reflexivity.
Defined.

Lemma bootstrapping_confidence_interval_witness :
  shape qoi_mean_1_1 = [1; 1] ∧ wf qoi_mean_1_1 ∧
  create_generators 0 [] [] = Ok ([] : list (option (@generator R))) ∧
  for_each_rand (seq 0 2) (bootstrap_step constant_estimator [])
    (zeros 0%R [1; 1; 2]) 5 = (Ok (NdArray [1; 1; 2] [3%R; 3%R]), 5) ∧
  ∃ ci,
    bootstrapping (H0 := two_sigma) constant_estimator [] qoi_mean_1_1 2
      (95 / 100)%R 5 = (Ok ci, 5) ∧
    shape ci = [1; 2] ∧
    ∀ j q, j < 1 → q < 1 →
      interval_spec (H0 := two_sigma) qoi_mean_1_1 (NdArray [1; 1; 2] [3%R; 3%R])
        (95 / 100)%R 1 2 ci j q.
Proof.
  split; [reflexivity|]. split; [reflexivity|]. split; [reflexivity|].
  split; [reflexivity|].
  apply (bootstrapping_confidence_interval (H := counter_source)
           (H0 := two_sigma) constant_estimator
           [] qoi_mean_1_1 2 (95 / 100)%R 1 1 [] (NdArray [1; 1; 2] [3%R; 3%R])
           5 5); reflexivity.
Defined.

End sensitivity.

(** ** Monte Carlo sampling *)

Section sampling.
Import MonteCarloSampling MonteCarloSamplingFacts.

Lemma ramp_returns k : rvs_returns (ramp k) 1 (ramp_rvs k).
Proof.
  split; [done|]. split; [done|]. intros n g. split; [done|].
  unfold wf. simpl. rewrite length_fmap, length_seq. lia.
Qed.

Lemma run_samples_number_witness :
  run 3 RSNone two_ramps_sampler = (Ok tt, (run 3 RSNone two_ramps_sampler).2) ∧
  ∃ a l, samples (run 3 RSNone two_ramps_sampler).2 = Some a ∧
         py_len a = Ok l ∧
         samples_number (run 3 RSNone two_ramps_sampler).2 = Some (Z.of_nat l).
Proof.
  assert (run 3 RSNone two_ramps_sampler
          = (Ok tt, (run 3 RSNone two_ramps_sampler).2)) as Hrun
    by (vm_compute; reflexivity).
  split; [exact Hrun|].
  exact (run_samples_number 3 RSNone two_ramps_sampler _ Hrun).
Defined.

Lemma run_rejects_nonpositive_count_witness :
  (0 ≤ 0)%Z ∧
  run 0 RSNone two_ramps_sampler = (Raise BeartypeViolation, two_ramps_sampler).
Proof.
  split; [lia|].
  apply (run_rejects_nonpositive_count 0 RSNone two_ramps_sampler); lia.
Defined.

Lemma run_twice_appends_points_witness :
  well_behaved (DistList two_ramps) [1; 1] ∧ (0 < 3)%Z ∧ (0 < 2)%Z ∧
  run_twice_appends two_ramps_sampler 3 RSNone 2 RSNone.
Proof.
  assert (well_behaved (DistList two_ramps) [1; 1]) as Hwb.
  { split; [done|]. exists [ramp_rvs 1; ramp_rvs 2].
    repeat constructor; apply ramp_returns. }
  split; [exact Hwb|]. split; [lia|]. split; [lia|].
  apply (run_twice_appends_points (DistList two_ramps) [1; 1] None (RSInt 10)
           0 3 RSNone 2 RSNone Hwb); lia.
Defined.

Lemma run_fills_columns_of_1d_witness :
  two_ramps ≠ [] ∧
  Forall (λ d : Distribution, class_of d = DistributionContinuous1D) two_ramps ∧
  Forall2 (λ d f, rvs_returns d 1 f) two_ramps [ramp_rvs 1; ramp_rvs 2] ∧
  (0 < 5)%Z ∧
  run_fills_columns two_ramps [ramp_rvs 1; ramp_rvs 2] two_ramps_sampler 5
    RSNone.
Proof.
  assert (Forall2 (λ d f, rvs_returns d 1 f) two_ramps
            [ramp_rvs 1; ramp_rvs 2]) as Hrvs.
  { repeat constructor; apply ramp_returns. }
  split; [done|]. split; [by repeat constructor|]. split; [exact Hrvs|].
  split; [lia|].
  apply (run_fills_columns_of_1d two_ramps [ramp_rvs 1; ramp_rvs 2] None
           (RSInt 10) 0 5 RSNone); [done|by repeat constructor|exact Hrvs|lia].
Defined.

(** What that call leaves: the two columns, the second one drawn from the
    random state as the first distribution has left it. *)
Example two_ramps_samples :
  samples (run 5 RSNone two_ramps_sampler).2
  = Some (FloatArray (NdArray [5; 2]
            [110; 215; 111; 216; 112; 217; 113; 218; 114; 219])).
Proof. reflexivity. Qed.

(** Column 0 is what the first distribution draws alone from the seed;
    column 1 is not what the second one draws alone from the seed. *)
Example two_ramps_standalone :
  (ramp_rvs 1 5 (RandomState 10)).1 = NdArray [5; 1] [110; 111; 112; 113; 114] ∧
  (ramp_rvs 2 5 (RandomState 10)).1 = NdArray [5; 1] [210; 211; 212; 213; 214].
Proof. split; reflexivity. Qed.

(** Column 1 is not what the second distribution draws alone from the state
    of the seed: its first entry is 215, and the second distribution alone
    draws 210 from the seed 10. *)
Lemma second_column_is_not_standalone :
  item (NdArray [5; 2] [110; 215; 111; 216; 112; 217; 113; 218; 114; 219])
       [0; 1] = Some 215 ∧
  item (ramp_rvs 2 5 (RandomState 10)).1 [0; 0] = Some 210 ∧
  ¬ columns_match_standalone two_ramps [ramp_rvs 1; ramp_rvs 2]
      two_ramps_sampler 5 RSNone.
Proof.
  split; [reflexivity|]. split; [reflexivity|].
  intros (s' & a & Hrun & Hs & _ & Hcols).
  assert (samples s' = samples (run 5 RSNone two_ramps_sampler).2) as Hs'
    by (by rewrite Hrun).
  rewrite two_ramps_samples in Hs'. rewrite Hs in Hs'. injection Hs' as ->.
  destruct (Hcols 0 1) as (f & v & Hf & Hv & Ha); [lia|simpl; lia|].
  injection Hf as <-. vm_compute in Hv, Ha. congruence.
Qed.

(** *** The empty list of distributions *)

(** [run] for 3 and then for 2 points on it: both calls return, and the
    collection is an array of shape [(0,)], of length 0. *)
Example run_empty_list :
  ∃ s1 s2,
    run 3 RSNone empty_sampler = (Ok tt, s1) ∧
    samples s1 = Some (FloatArray (NdArray [0] [])) ∧
    samples_number s1 = Some 0%Z ∧
    run 2 RSNone s1 = (Ok tt, s2) ∧
    samples s2 = Some (FloatArray (NdArray [0] [])) ∧
    samples_number s2 = Some 0%Z.
Proof.
  exists (run 3 RSNone empty_sampler).2,
         (run 2 RSNone (run 3 RSNone empty_sampler).2).2.
  vm_compute. repeat split.
Qed.

(** C4, on the empty list of distributions.  Two calls of [run], for 3 and
    for 2 points, do not leave a collection of 5 points whose first 3 are
    those of the first call: the collection stays an array of shape [(0,)],
    of length 0 ([run_empty_list]), where the class promises the shape
    [(samples_number, len(distributions))]. *)
Theorem run_twice_on_empty_list :
  ¬ run_twice_appends empty_sampler 3 RSNone 2 RSNone.
Proof.
  intros (s1 & s2 & a1 & a2 & Hrun1 & Hs1 & _ & _ & Hlen1 & _).
  vm_compute in Hrun1. injection Hrun1 as <-.
  vm_compute in Hs1. injection Hs1 as <-.
  vm_compute in Hlen1. discriminate Hlen1.
Qed.

(** On that list the array of the samples does not have the shape
    [(n, len(distributions))] either, here [(5, 0)]. *)
Lemma run_on_empty_list_shape :
  ¬ run_fills_columns [] [] empty_sampler 5 RSNone.
Proof.
  intros (s' & a & Hrun & Hs & Hshape & _).
  vm_compute in Hrun. injection Hrun as <-.
  vm_compute in Hs. injection Hs as <-.
  vm_compute in Hshape. discriminate Hshape.
Qed.

(** *** A distribution without [rvs] *)

(** C6, for the one distribution of an object: [run] does not raise at the
    call of the missing [rvs], which it skips.  The first call stores
    [np.array(None)] in [samples] and then raises the [TypeError] of
    [len()] of an array without axes; a second call returns, and leaves two
    rows of [None] and [samples_number = 2]. *)
Theorem run_skips_missing_rvs :
  ∃ s1 s2,
    run 5 RSNone no_rvs_sampler = (Raise LenOfUnsized, s1) ∧
    samples s1 = Some (ObjectArray (NdArray [] [ONone])) ∧
    run 5 RSNone s1 = (Ok tt, s2) ∧
    samples s2 = Some (ObjectArray (NdArray [2; 1] [ONone; ONone])) ∧
    samples_number s2 = Some 2%Z.
Proof.
  exists (run 5 RSNone no_rvs_sampler).2,
         (run 5 RSNone (run 5 RSNone no_rvs_sampler).2).2.
  vm_compute. repeat split.
Qed.

(** In a list, the missing [rvs] does raise. *)
Example run_list_missing_rvs :
  ∃ s', run 5 RSNone (new (DistList [ramp 1; no_rvs]) None RSNone 0)
        = (Raise RvsMissing, s').
Proof.
  exists (run 5 RSNone (new (DistList [ramp 1; no_rvs]) None RSNone 0)).2.
  vm_compute. reflexivity.
Qed.

End sampling.

(** ** Kernel matrix *)

Section kernels.
Import GrassmannianKernel GrassmannianKernelFacts.

Lemma calculate_kernel_matrix_symmetric_witness :
  Forall valid_point two_points ∧
  ∃ M calls,
    calculate_kernel_matrix_calls 0 two_points None = Ok (M, calls) ∧
    calculate_kernel_matrix 0 two_points None = Ok M ∧
    shape M = [length two_points; length two_points] ∧ wf M ∧
    transpose M = Ok M ∧
    (∀ i j, i ≤ j → j < length two_points →
       ∃ e, entry two_points None i j = Ok e ∧
            item M [i; j] = Some e ∧ item M [j; i] = Some e) ∧
    NoDup calls ∧
    (∀ i j, (i, j) ∈ calls ↔ i ≤ j ∧ j < length two_points).
Proof.
  assert (Forall valid_point two_points) as Hvalid.
  { repeat constructor; exists 2, 2; split; reflexivity. }
  split; [exact Hvalid|].
  apply (calculate_kernel_matrix_symmetric (H := sum_kernel) 0 two_points None
           Hvalid).
Defined.

(** The matrix of the two points, and the calls of the kernel. *)
Example two_points_matrix :
  calculate_kernel_matrix_calls 0 two_points None
  = Ok (NdArray [2; 2] [1010; 1026; 1026; 2626], [(0, 0); (0, 1); (1, 1)]).
Proof. reflexivity. Qed.

End kernels.

End Checks.

(** * More on [calculate_kernel_matrix]: points as they are, and truncation *)

Module TruncationFacts.
Import NumPy NumPyFacts GrassmannianKernel GrassmannianKernelFacts.

Lemma length_combinations n :
  2 * length (combinations_with_replacement n) = n * (n + 1).
Proof.
  unfold combinations_with_replacement.
  assert (∀ k m, 2 * length (i ← seq k m; (λ j, (i, j)) <$> seq i (k + m - i))
                 = m * (m + 1)) as Hgen.
  { intros k m. revert k. induction m as [|m IH]; intros k; [done|].
    cbn [seq mbind list_bind]. change (list_bind ?f ?l) with (l ≫= f).
    rewrite length_app, length_fmap, length_seq.
    replace (k + S m - k) with (S m) by lia.
    specialize (IH (S k)).
    replace (S k + m) with (k + S m) in IH by lia. lia. }
  specialize (Hgen 0 n). by rewrite Nat.add_0_l in Hgen.
Qed.

Section kernel.
Context {val : Type} `{!@Kernel val}.

Local Abbreviation GrassmannPoint := (@GrassmannPoint val).

Section loop.
Context (points : list GrassmannPoint) (p : option Z).

Local Abbreviation n := (length points).

(** The loop over the pairs, when every entry it asks for can be computed. *)
Lemma kernel_loop_entries pairs kernel calls :
  shape kernel = [n; n] → wf kernel →
  (∀ i j, (i, j) ∈ pairs → i < n ∧ j < n ∧ ∃ e, entry points p i j = Ok e) →
  NoDup pairs →
  (∀ i j, (i, j) ∈ pairs → (j, i) ∈ pairs → i = j) →
  ∃ kernel',
    for_each pairs (kernel_step points p) (kernel, calls)
      = Ok (kernel', calls ++ pairs) ∧
    shape kernel' = [n; n] ∧ wf kernel' ∧
    (∀ a b, (a, b) ∉ pairs → (b, a) ∉ pairs →
       item kernel' [a; b] = item kernel [a; b]) ∧
    (∀ i j, (i, j) ∈ pairs →
       ∃ e, entry points p i j = Ok e ∧
            item kernel' [i; j] = Some e ∧ item kernel' [j; i] = Some e).
Proof.
  intros Hsh Hwf Hbounds Hnd. revert kernel calls Hsh Hwf Hbounds.
  induction Hnd as [|[i j] pairs Hnotin Hnd IH];
    intros kernel calls Hsh Hwf Hbounds Hanti.
  - exists kernel. rewrite app_nil_r. split; [done|]. split; [done|].
    split; [done|]. split; [done|]. intros i j Hin. by apply elem_of_nil in Hin.
  - destruct (Hbounds i j) as (Hi & Hj & e & He); [by left|].
    destruct (assign_item_Ok kernel n n i j e Hsh Hwf Hi Hj)
      as (k1 & Hk1 & Hsh1 & Hwf1 & Hij1 & Hother1).
    destruct (assign_item_Ok k1 n n j i e Hsh1 Hwf1 Hj Hi)
      as (k2 & Hk2 & Hsh2 & Hwf2 & Hji2 & Hother2).
    assert (kernel_step points p (kernel, calls) (i, j)
            = Ok (k2, calls ++ [(i, j)])) as Hstep.
    { unfold kernel_step. rewrite He. simpl. rewrite Hk1. simpl.
      rewrite Hij1. simpl. by rewrite Hk2. }
    assert (item k2 [i; j] = Some e) as Hij2.
    { destruct (decide ((i, j) = (j, i))) as [[= ->]|Hne]; [done|].
      by rewrite Hother2. }
    assert ((j, i) ∉ pairs) as Hnotin'.
    { intros Hin. assert (i = j) as ->; [|done].
      apply Hanti; [by left|by right]. }
    destruct (IH k2 (calls ++ [(i, j)]) Hsh2 Hwf2)
      as (k3 & Hloop & Hsh3 & Hwf3 & Hother3 & Hin3).
    { intros ? ? ?. apply Hbounds. by right. }
    { intros a b Hab Hba. apply Hanti; by right. }
    exists k3. rewrite for_each_cons, Hstep. simpl.
    rewrite Hloop, <- app_assoc.
    split; [done|]. split; [done|]. split; [done|]. split.
    + intros a b [Hab Hab']%not_elem_of_cons [Hba Hba']%not_elem_of_cons.
      rewrite Hother3 by done. rewrite Hother2 by (by intros [= -> ->]).
      apply Hother1. done.
    + intros a b [[= -> ->]|Hin]%elem_of_cons.
      * exists e. split; [done|]. by rewrite !Hother3.
      * by apply Hin3.
Qed.

(** The whole computation, under the same condition. *)
Lemma kernel_matrix_of_entries (zero : val) :
  (∀ i j, i ≤ j → j < n → ∃ e, entry points p i j = Ok e) →
  ∃ M,
    calculate_kernel_matrix_calls zero points p
      = Ok (M, combinations_with_replacement n) ∧
    shape M = [n; n] ∧ wf M ∧
    ∀ i j, i ≤ j → j < n →
      ∃ e, entry points p i j = Ok e ∧
           item M [i; j] = Some e ∧ item M [j; i] = Some e.
Proof.
  intros Hentries.
  destruct (kernel_loop_entries (combinations_with_replacement n)
              (zeros zero [n; n]) [])
    as (M & Hloop & Hsh & Hwf & _ & Hin).
  { done. }
  { apply wf_zeros. }
  { intros i j [Hij Hj]%elem_of_combinations.
    split; [lia|]. split; [done|]. by apply Hentries. }
  { apply NoDup_combinations. }
  { intros i j Hij%elem_of_combinations Hji%elem_of_combinations. lia. }
  exists M. split; [done|]. split; [done|]. split; [done|].
  intros i j Hij Hj. apply Hin, elem_of_combinations. lia.
Qed.

End loop.

Lemma entry_unfold (points : list GrassmannPoint) p i j :
  entry points p i j
  = match points !! i, points !! j with
    | Some pi, Some pj =>
        xi ← truncate p pi; xj ← truncate p pj; Ok (kernel_entry xi xj)
    | _, _ => Raise IndexError
    end.
Proof.
  unfold entry. destruct (points !! i); [|done]. by destruct (points !! j).
Qed.

Lemma entry_untruncated (points : list GrassmannPoint) p i j xi xj :
  p = None ∨ p = Some 0%Z →
  points !! i = Some xi → points !! j = Some xj →
  entry points p i j = Ok (kernel_entry xi xj).
Proof.
  intros Hp Hi Hj. unfold entry. rewrite Hi, Hj. simpl.
  by destruct Hp as [-> | ->].
Qed.

(** X1.  Without truncation ([p] is [None] or [0]),
    [calculate_kernel_matrix] returns for every list of points, whatever
    their data: an [n] by [n] matrix in which, for [i <= j], both [M[i, j]]
    and [M[j, i]] are [kernel_entry(points[i], points[j])], the points passed
    as they are; the position below the diagonal is never computed from
    [kernel_entry(points[j], points[i])]. *)
Theorem calculate_kernel_matrix_untruncated (zero : val)
    (points : list GrassmannPoint) (p : option Z) :
  p = None ∨ p = Some 0%Z →
  ∃ M,
    calculate_kernel_matrix zero points p = Ok M ∧
    shape M = [length points; length points] ∧ wf M ∧
    ∀ i j xi xj, i ≤ j → points !! i = Some xi → points !! j = Some xj →
      item M [i; j] = Some (kernel_entry xi xj) ∧
      item M [j; i] = Some (kernel_entry xi xj).
Proof.
  intros Hp.
  destruct (kernel_matrix_of_entries points p zero) as (M & HM & Hsh & Hwf & Hin).
  { intros i j Hij Hj.
    destruct (lookup_lt_is_Some_2 points i) as [xi Hxi]; [lia|].
    destruct (lookup_lt_is_Some_2 points j) as [xj Hxj]; [lia|].
    exists (kernel_entry xi xj). by apply entry_untruncated. }
  exists M. split.
  { unfold calculate_kernel_matrix. by rewrite HM. }
  split; [done|]. split; [done|].
  intros i j xi xj Hij Hxi Hxj.
  destruct (Hin i j Hij) as (e & He & Hij' & Hji').
  { by eapply lookup_lt_Some. }
  rewrite (entry_untruncated points p i j xi xj Hp Hxi Hxj) in He.
  injection He as <-. done.
Qed.

(** X2.  For [n] points, [kernel_entry] is called [n (n + 1) / 2] times:
    once for each pair of [combinations_with_replacement], in the order of
    that list. *)
Theorem calculate_kernel_matrix_number_of_calls (zero : val)
    (points : list GrassmannPoint) (p : option Z) :
  Forall valid_point points →
  ∃ M calls,
    calculate_kernel_matrix_calls zero points p = Ok (M, calls) ∧
    calls = combinations_with_replacement (length points) ∧
    2 * length calls = length points * (length points + 1).
Proof.
  intros Hvalid.
  destruct (kernel_matrix_of_entries points p zero) as (M & HM & _).
  { intros i j Hij Hj. apply entry_Ok; [done|lia|done]. }
  exists M, (combinations_with_replacement (length points)).
  split; [done|]. split; [done|]. apply length_combinations.
Qed.

(** ** Truncation to the leading columns *)

(** The number of columns that [data[:, :p]] keeps of [c]. *)
Lemma slice_stop_positive p c : (0 < p)%Z → slice_stop p c = Nat.min (Z.to_nat p) c.
Proof. intros Hp. unfold slice_stop. by rewrite decide_False by lia. Qed.

Lemma slice_stop_negative p c :
  (p < 0)%Z → slice_stop p c = c - Z.to_nat (- p).
Proof. intros Hp. unfold slice_stop. rewrite decide_True by done. lia. Qed.

(** X3.  With a rank [p] that is not zero, the entry of a pair is
    [kernel_entry] of the two points cut to their leading columns, and the
    rows are kept: of [c] columns a positive [p] keeps the first
    [min(p, c)], and a negative [p] drops the last [|p|] (all of them when
    [|p| >= c]). *)
Theorem entry_of_truncated_points (points : list GrassmannPoint) (p : Z)
    i j xi xj ri ci rj cj :
  p ≠ 0%Z →
  points !! i = Some xi → points !! j = Some xj →
  shape (point_data xi) = [ri; ci] → wf (point_data xi) →
  shape (point_data xj) = [rj; cj] → wf (point_data xj) →
  let keep c := if decide (0 < p)%Z then Nat.min (Z.to_nat p) c
                else c - Z.to_nat (- p) in
  ∃ di dj,
    entry points (Some p) i j
      = Ok (kernel_entry {| point_data := di |} {| point_data := dj |}) ∧
    shape di = [ri; keep ci] ∧ wf di ∧
    shape dj = [rj; keep cj] ∧ wf dj ∧
    (∀ a b, a < ri → b < keep ci → item di [a; b] = item (point_data xi) [a; b]) ∧
    (∀ a b, a < rj → b < keep cj → item dj [a; b] = item (point_data xj) [a; b]).
Proof.
  intros Hp Hi Hj Hshi Hwfi Hshj Hwfj keep.
  assert (∀ c, slice_stop p c = keep c) as Hkeep.
  { intros c. unfold keep. case_decide.
    - by apply slice_stop_positive.
    - apply slice_stop_negative. lia. }
  destruct (truncate_columns xi p ri ci Hp Hshi Hwfi)
    as (di & Hti & Hdi & Hwdi & Hitemi).
  destruct (truncate_columns xj p rj cj Hp Hshj Hwfj)
    as (dj & Htj & Hdj & Hwdj & Hitemj).
  rewrite Hkeep in Hdi, Hdj, Hitemi, Hitemj.
  exists di, dj. split.
  { rewrite entry_unfold, Hi, Hj. cbv beta iota. rewrite Hti, Htj. done. }
  done.
Qed.

(** A point that has no more than [p] columns is not changed. *)
Lemma truncate_all_columns (x : GrassmannPoint) (p : Z) r c :
  shape (point_data x) = [r; c] → wf (point_data x) → (Z.of_nat c ≤ p)%Z →
  truncate (Some p) x = Ok x.
Proof.
  intros Hsh Hwf Hp. unfold truncate. case_decide as Hz; [done|].
  destruct (take_columns_Ok (point_data x) r c p Hsh Hwf)
    as (d & -> & Hd & Hwd & Hitem). simpl.
  assert (slice_stop p c = c) as Hc.
  { unfold slice_stop. rewrite decide_False by lia. lia. }
  rewrite Hc in Hd, Hitem.
  assert (d = point_data x) as ->.
  { apply item_ext; [by rewrite Hd|done|done|].
    intros idx. destruct (ravel [r; c] idx) as [o|] eqn:Ho.
    - assert (is_Some (ravel [r; c] idx)) as (a & b & -> & Ha & Hb)%ravel_2
        by (by eexists).
      by apply Hitem.
    - rewrite !item_out_of_bounds; [done|by rewrite Hsh|by rewrite Hd]. }
  by destruct x.
Qed.

(** X4.  A rank [p] that is at least the number of columns of every point
    cuts nothing: the matrix and the calls are those of the computation
    without a rank. *)
Theorem rank_above_columns_is_no_truncation (zero : val)
    (points : list GrassmannPoint) (p : Z) :
  Forall (λ x, ∃ r c, shape (point_data x) = [r; c] ∧ wf (point_data x) ∧
                      (Z.of_nat c ≤ p)%Z) points →
  calculate_kernel_matrix_calls zero points (Some p)
    = calculate_kernel_matrix_calls zero points None ∧
  calculate_kernel_matrix zero points (Some p)
    = calculate_kernel_matrix zero points None.
Proof.
  intros Hall.
  assert (∀ i j, entry points (Some p) i j = entry points None i j) as Hentry.
  { intros i j. rewrite !entry_unfold.
    destruct (points !! i) as [xi|] eqn:Hi; [|done].
    destruct (points !! j) as [xj|] eqn:Hj; [|done]. cbv beta iota.
    destruct (Forall_lookup_1 _ _ _ _ Hall Hi) as (ri & ci & Hshi & Hwfi & Hci).
    destruct (Forall_lookup_1 _ _ _ _ Hall Hj) as (rj & cj & Hshj & Hwfj & Hcj).
    rewrite (truncate_all_columns xi p ri ci), (truncate_all_columns xj p rj cj);
      done. }
  assert (calculate_kernel_matrix_calls zero points (Some p)
          = calculate_kernel_matrix_calls zero points None) as Heq.
  { unfold calculate_kernel_matrix_calls. apply for_each_ext.
    intros [kernel calls] [i j]. unfold kernel_step. by rewrite Hentry. }
  split; [done|]. unfold calculate_kernel_matrix. by rewrite Heq.
Qed.



End kernel.
End TruncationFacts.

(** * More on the bootstrap: the other generators, the inputs, and few
      bootstrap samples *)

Module GeneratorFacts.
Import NumPy NumPyFacts Sensitivity SensitivityFacts EstimatorInputs.

Lemma ravel_cons_None n sh i idx :
  ravel sh idx = None → ravel (n :: sh) (i :: idx) = None.
Proof. intros Hidx. rewrite ravel_cons, Hidx. by case_decide. Qed.

Section generators.
Context `{RandomSource} `{!RandomSourceLaws} {A : Type}.

(** X5.  On an array whose first axis has extent [n], one advance of the 1-D
    generator draws [n] indices below [n] and yields an array of the shape
    of [samples] whose [r]-th row ([out[r, ...]]) is the row
    [samples[indices[r], ...]]: whole rows are picked, with replacement. *)
Theorem bootstrap_sample_generator_1D_yield (samples : ndarray A) n sh g :
  shape samples = n :: sh → wf samples →
  ∃ out,
    next (bootstrap_sample_generator_1D samples) g
      = (Ok out, (randint g n [n]).2) ∧
    shape out = n :: sh ∧ wf out ∧
    ∀ r, r < n →
      ∃ i, item (randint g n [n]).1 [r] = Some i ∧ i < n ∧
           ∀ idx, item out (r :: idx) = item samples (i :: idx).
Proof.
  intros Hsh Hwf.
  set (I := (randint g n [n]).1).
  assert (shape I = [n]) as HshI by apply randint_shape.
  assert (∀ r, r < n → ∃ i, item I [r] = Some i ∧ i < n) as HI.
  { intros r Hr. apply item_randint; [|lia]. apply ravel_1. by exists r. }
  destruct (gather_total (n :: sh)
    (λ idx, i ← item I (take 1 idx); item samples (i :: drop 1 idx)))
    as (out & Hout & Hshape & Hwfo & Hitems).
  { intros idx (r & idx' & -> & Hr & Hidx')%ravel_cons_inv.
    cbn [firstn skipn take drop]. rewrite take_0, drop_0.
    destruct (HI r Hr) as (i & -> & Hi). simpl.
    apply item_in_bounds; [done|]. rewrite Hsh. by apply ravel_cons_is_Some. }
  exists out. split; [|split; [done|split; [done|]]].
  - unfold next, mbind, rand_bind, lift, shape_at. rewrite Hsh. simpl.
    rewrite draw_eq. fold I.
    unfold index_rows. rewrite Hsh. unfold ndim. rewrite HshI. simpl.
    by rewrite Hout.
  - intros r Hr. destruct (HI r Hr) as (i & HIi & Hi).
    exists i. split; [done|]. split; [done|]. intros idx.
    destruct (ravel sh idx) as [o|] eqn:Hidx.
    + rewrite Hitems by (apply ravel_cons_is_Some; split; [done|by eexists]).
      cbn [firstn skipn take drop]. rewrite take_0, drop_0. by rewrite HIi.
    + rewrite !item_out_of_bounds; [done| |].
      * rewrite Hsh. by apply ravel_cons_None.
      * rewrite Hshape. by apply ravel_cons_None.
Qed.

(** X6.  On an array of shape [(n, m)], one advance of the 2-D generator
    draws one [(n, m)] array of indices below [n] and yields an array of
    shape [(n, m)] whose entry [(r, c)] is [samples[indices[r, c], c]]:
    every column is resampled on its own. *)
Theorem bootstrap_sample_generator_2D_yield (samples : ndarray A) n m g :
  shape samples = [n; m] → wf samples →
  ∃ out,
    next (bootstrap_sample_generator_2D samples) g
      = (Ok out, (randint g n [n; m]).2) ∧
    shape out = [n; m] ∧ wf out ∧
    ∀ r c, r < n → c < m →
      ∃ i x, item (randint g n [n; m]).1 [r; c] = Some i ∧ i < n ∧
             item samples [i; c] = Some x ∧
             item out [r; c] = Some x.
Proof.
  intros Hsh Hwf.
  set (I := (randint g n [n; m]).1).
  assert (shape I = [n; m]) as HshI by apply randint_shape.
  assert (∀ r c, r < n → c < m → ∃ i, item I [r; c] = Some i ∧ i < n) as HI.
  { intros r c Hr Hc. apply item_randint; [|lia]. apply ravel_2. by exists r, c. }
  assert (∀ i c, i < n → c < m → is_Some (item samples [i; c])) as Hs.
  { intros i c Hi Hc. apply item_in_bounds; [done|].
    rewrite Hsh. apply ravel_2. by exists i, c. }
  destruct (gather_total [n; m]
    (λ idx, i ← bitem I (take 2 idx); j ← bitem (arange m) (take 2 idx);
            item samples (i :: j :: drop 2 idx)))
    as (out & Hout & Hshape & Hwfo & Hitems).
  { intros idx (r & c & -> & Hr & Hc)%ravel_2. cbn [firstn skipn take drop].
    rewrite (bitem_same_shape_2 I n m), bitem_arange by done.
    destruct (HI r c Hr Hc) as (i & -> & Hi). simpl. by apply Hs. }
  exists out. split; [|split; [done|split; [done|]]].
  - unfold next, mbind, rand_bind, lift, shape_at. rewrite Hsh. simpl.
    rewrite draw_eq. fold I.
    unfold index_pairs. rewrite Hsh, HshI.
    change (shape (arange m)) with [m].
    rewrite broadcast_shape_2_1. simpl.
    by rewrite Hout.
  - intros r c Hr Hc.
    destruct (HI r c Hr Hc) as (i & HIi & Hi).
    destruct (Hs i c Hi Hc) as [x Hx].
    exists i, x. split; [done|]. split; [done|]. split; [done|].
    rewrite Hitems by (apply ravel_2; by exists r, c). cbn [firstn skipn take drop].
    rewrite (bitem_same_shape_2 I n m), bitem_arange by done.
    rewrite HIi. simpl. done.
Qed.

(** ** One advance of a generator, as the estimator sees it *)

(** The array that a generator yields has the shape of the generator's
    array, and its entries are drawn from the columns of that array. *)
Lemma next_1D_drawn (samples : ndarray A) n g :
  shape samples = [n; 1] → wf samples →
  ∃ out g', next (bootstrap_sample_generator_1D samples) g = (Ok out, g') ∧
            shape out = [n; 1] ∧ wf out ∧ drawn_from samples out.
Proof.
  intros Hsh Hwf.
  set (I := (randint g n [n]).1).
  assert (shape I = [n]) as HshI by apply randint_shape.
  assert (∀ r, r < n → ∃ i, item I [r] = Some i ∧ i < n) as HI.
  { intros r Hr. apply item_randint; [|lia]. apply ravel_1. by exists r. }
  assert (∀ i c, i < n → c < 1 → is_Some (item samples [i; c])) as Hs.
  { intros i c Hi Hc. apply item_in_bounds; [done|].
    rewrite Hsh. apply ravel_2. by exists i, c. }
  destruct (gather_total [n; 1]
    (λ idx, i ← item I (take 1 idx); item samples (i :: drop 1 idx)))
    as (out & Hout & Hshape & Hwfo & Hitems).
  { intros idx (r & c & -> & Hr & Hc)%ravel_2.
    cbn [firstn skipn take drop]. rewrite ?take_0, ?drop_0.
    destruct (HI r Hr) as (i & -> & Hi). simpl. by apply Hs. }
  exists out, (randint g n [n]).2. split; [|split; [done|split; [done|]]].
  - unfold next, mbind, rand_bind, lift, shape_at. rewrite Hsh. simpl.
    rewrite draw_eq. fold I.
    unfold index_rows. rewrite Hsh. unfold ndim. rewrite HshI. simpl.
    by rewrite Hout.
  - unfold drawn_from. rewrite Hsh. intros r c Hr Hc.
    destruct (HI r Hr) as (i & HIi & Hi). destruct (Hs i c Hi Hc) as [x Hx].
    exists i, x. split; [done|]. split; [done|].
    rewrite Hitems by (apply ravel_2; by exists r, c).
    cbn [firstn skipn take drop]. rewrite ?take_0, ?drop_0.
    rewrite HIi. simpl. done.
Qed.

Lemma next_2D_drawn (samples : ndarray A) n m g :
  shape samples = [n; m] → wf samples →
  ∃ out g', next (bootstrap_sample_generator_2D samples) g = (Ok out, g') ∧
            shape out = [n; m] ∧ wf out ∧ drawn_from samples out.
Proof.
  intros Hsh Hwf.
  set (I := (randint g n [n; m]).1).
  assert (shape I = [n; m]) as HshI by apply randint_shape.
  assert (∀ r c, r < n → c < m → ∃ i, item I [r; c] = Some i ∧ i < n) as HI.
  { intros r c Hr Hc. apply item_randint; [|lia]. apply ravel_2. by exists r, c. }
  assert (∀ i c, i < n → c < m → is_Some (item samples [i; c])) as Hs.
  { intros i c Hi Hc. apply item_in_bounds; [done|].
    rewrite Hsh. apply ravel_2. by exists i, c. }
  destruct (gather_total [n; m]
    (λ idx, i ← bitem I (take 2 idx); j ← bitem (arange m) (take 2 idx);
            item samples (i :: j :: drop 2 idx)))
    as (out & Hout & Hshape & Hwfo & Hitems).
  { intros idx (r & c & -> & Hr & Hc)%ravel_2. cbn [firstn skipn take drop].
    rewrite (bitem_same_shape_2 I n m), bitem_arange by done.
    destruct (HI r c Hr Hc) as (i & -> & Hi). simpl. by apply Hs. }
  exists out, (randint g n [n; m]).2. split; [|split; [done|split; [done|]]].
  - unfold next, mbind, rand_bind, lift, shape_at. rewrite Hsh. simpl.
    rewrite draw_eq. fold I.
    unfold index_pairs. rewrite Hsh, HshI.
    change (shape (arange m)) with [m].
    rewrite broadcast_shape_2_1. simpl.
    by rewrite Hout.
  - unfold drawn_from. rewrite Hsh. intros r c Hr Hc.
    destruct (HI r c Hr Hc) as (i & HIi & Hi).
    destruct (Hs i c Hi Hc) as [x Hx].
    exists i, x. split; [done|]. split; [done|].
    rewrite Hitems by (apply ravel_2; by exists r, c). cbn [firstn skipn take drop].
    rewrite (bitem_same_shape_2 I n m), bitem_arange by done.
    rewrite HIi. simpl. done.
Qed.

Lemma next_3D_drawn (samples : ndarray A) d n m g :
  shape samples = [d; n; m] → wf samples →
  ∃ out g', next (bootstrap_sample_generator_3D samples) g = (Ok out, g') ∧
            shape out = [d; n; m] ∧ wf out ∧ drawn_from samples out.
Proof.
  intros Hsh Hwf.
  set (I := (randint g n [n; m]).1).
  assert (shape I = [n; m]) as HshI by apply randint_shape.
  assert (∀ r c, r < n → c < m → ∃ i, item I [r; c] = Some i ∧ i < n) as HI.
  { intros r c Hr Hc. apply item_randint; [|lia]. apply ravel_2. by exists r, c. }
  assert (∀ k i c, k < d → i < n → c < m → is_Some (item samples [k; i; c]))
    as Hs.
  { intros k i c Hk Hi Hc. apply item_in_bounds; [done|].
    rewrite Hsh. apply ravel_3. by exists k, i, c. }
  destruct (gather_total [d; n; m]
    (λ idx, match idx with
            | s :: idx' =>
                i ← bitem I (take 2 idx'); j ← bitem (arange m) (take 2 idx');
                item samples (s :: i :: j :: drop 2 idx')
            | [] => None
            end)) as (out & Hout & Hshape & Hwfo & Hitems).
  { intros idx (k & r & c & -> & Hk & Hr & Hc)%ravel_3. cbn [firstn skipn take drop].
    rewrite (bitem_same_shape_2 I n m), bitem_arange by done.
    destruct (HI r c Hr Hc) as (i & -> & Hi). simpl. by apply Hs. }
  exists out, (randint g n [n; m]).2. split; [|split; [done|split; [done|]]].
  - unfold next, mbind, rand_bind, lift, shape_at. rewrite Hsh. simpl.
    rewrite draw_eq. fold I.
    unfold index_slice_pairs. rewrite Hsh, HshI.
    change (shape (arange m)) with [m].
    rewrite broadcast_shape_2_1. simpl.
    by rewrite Hout.
  - unfold drawn_from. rewrite Hsh. intros r c Hr Hc.
    destruct (HI r c Hr Hc) as (i & HIi & Hi).
    exists i. split; [done|]. intros k Hk.
    destruct (Hs k i c Hk Hi Hc) as [x Hx].
    exists x. split; [done|].
    rewrite Hitems by (apply ravel_3; by exists k, r, c). cbn [firstn skipn take drop].
    rewrite (bitem_same_shape_2 I n m), bitem_arange by done.
    rewrite HIi. simpl. done.
Qed.

(** ** The inputs *)

Lemma create_generators_accepted (inputs : list (@pyobj A)) i gens0 :
  Forall accepted inputs →
  ∃ gens, create_generators i inputs gens0 = Ok (gens0 ++ gens) ∧
          Forall2 generator_for inputs gens.
Proof.
  intros Hall. revert i gens0.
  induction Hall as [|input rest Hin _ IH]; intros i gens0.
  - exists []. by rewrite app_nil_r.
  - destruct input as [|a|]; [| |done].
    + destruct (IH (S i) (gens0 ++ [None])) as (gens & Hgens & Hfor).
      exists (None :: gens). simpl. rewrite Hgens, <- app_assoc.
      split; [done|]. by constructor.
    + destruct Hin as [Hwf [(n & m & Hsh & Hm)|(d & n & m & Hsh)]].
      * destruct (decide (m = 1)) as [->|Hm1].
        -- destruct (IH (S i) (gens0 ++ [Some (bootstrap_sample_generator_1D a)]))
             as (gens & Hgens & Hfor).
           exists (Some (bootstrap_sample_generator_1D a) :: gens).
           cbn [create_generators]. unfold ndim. rewrite Hsh.
           rewrite decide_True by done. rewrite Hgens, <- app_assoc.
           split; [done|]. constructor; [|done]. left. by exists n.
        -- destruct (IH (S i) (gens0 ++ [Some (bootstrap_sample_generator_2D a)]))
             as (gens & Hgens & Hfor).
           exists (Some (bootstrap_sample_generator_2D a) :: gens).
           cbn [create_generators]. unfold ndim. rewrite Hsh.
           rewrite decide_False by (simpl; intros [_ ?]; done).
           rewrite decide_True by (simpl; split; [done|lia]).
           rewrite Hgens, <- app_assoc.
           split; [done|]. constructor; [|done]. right; left. exists n, m.
           split; [done|]. split; [lia|done].
      * destruct (IH (S i) (gens0 ++ [Some (bootstrap_sample_generator_3D a)]))
          as (gens & Hgens & Hfor).
        exists (Some (bootstrap_sample_generator_3D a) :: gens).
        cbn [create_generators]. unfold ndim. rewrite Hsh.
        rewrite decide_False by (simpl; intros [? _]; done).
        rewrite decide_False by (simpl; intros [? _]; done).
        rewrite decide_True by done.
        rewrite Hgens, <- app_assoc.
        split; [done|]. constructor; [|done]. right; right. by exists d, n, m.
Qed.

(** X7.  When every input is [None], an array of two axes with at least one
    column, or an array of three axes, the loop "CREATE GENERATORS" stores
    one entry per input, in the order of the inputs: [None] for [None], the
    1-D generator for one column, the 2-D generator for more columns, the
    3-D generator for three axes. *)
Theorem create_generators_one_per_input (inputs : list (@pyobj A)) :
  Forall accepted inputs →
  ∃ gens, create_generators 0 inputs [] = Ok gens ∧
          Forall2 generator_for inputs gens.
Proof. intros Hall. by apply (create_generators_accepted inputs 0 []). Qed.

Lemma generate_samples_resampled (inputs : list (@pyobj A)) gens args0 g :
  Forall accepted inputs → Forall2 generator_for inputs gens →
  ∃ args g', generate_samples gens args0 g = (Ok (args0 ++ args), g') ∧
             Forall2 resampled inputs args.
Proof.
  intros Hall Hfor. revert args0 g.
  induction Hfor as [|input gen inputs gens Hgen Hfor IH]; intros args0 g.
  - exists [], g. by rewrite app_nil_r.
  - apply Forall_cons in Hall as [Hin Hall].
    destruct input as [|a|]; [| |done].
    + simpl in Hgen. subst gen.
      destruct (IH Hall (args0 ++ [None]) g) as (args & g' & Hargs & Hres).
      exists (None :: args), g'. simpl. rewrite Hargs, <- app_assoc.
      split; [done|]. by constructor.
    + destruct Hin as [Hwf _].
      assert (∃ gen', gen = Some gen' ∧
                ∃ out g1, next gen' g = (Ok out, g1) ∧
                          shape out = shape a ∧ wf out ∧ drawn_from a out)
        as (gen' & -> & out & g1 & Hnext & Hsh & Hwfo & Hdrawn).
      { destruct Hgen as [(n & Hsh & ->)|[(n & m & Hsh & _ & ->)|
                                           (d & n & m & Hsh & ->)]];
          (eexists; split; [done|]); rewrite Hsh.
        - by apply next_1D_drawn.
        - by apply next_2D_drawn.
        - by apply next_3D_drawn. }
      destruct (IH Hall (args0 ++ [Some out]) g1) as (args & g' & Hargs & Hres).
      exists (Some out :: args), g'. cbn [generate_samples].
      unfold mbind at 1, rand_bind at 1. rewrite Hnext, Hargs, <- app_assoc.
      split; [done|]. constructor; [|done]. by exists out.
Qed.

(** X8.  For such inputs, the arguments of every call of the estimator are
    there, one per input and in the order of the inputs: [None] for [None],
    and for an array a resampled array: an array of the same shape, every
    entry of which is an entry of the same column of the input; for an
    input of three axes, one row of the input serves all the slices. *)
Theorem estimator_arguments (inputs : list (@pyobj A)) g :
  Forall accepted inputs →
  ∃ gens args g',
    create_generators 0 inputs [] = Ok gens ∧
    generate_samples gens [] g = (Ok args, g') ∧
    Forall2 resampled inputs args.
Proof.
  intros Hall.
  destruct (create_generators_accepted inputs 0 [] Hall) as (gens & Hgens & Hfor).
  destruct (generate_samples_resampled inputs gens [] g Hall Hfor)
    as (args & g' & Hargs & Hres).
  by exists gens, args, g'.
Qed.

End generators.

(** ** Fewer than two bootstrap samples *)

Section few.
Context `{RandomSource} `{NormalQuantile}.

Lemma bootstrapping_Ok_inv (estimator : estimator_fn) inputs qoi_mean N cl
    n_qois n_outputs g ci g' :
  shape qoi_mean = [n_qois; n_outputs] →
  bootstrapping estimator inputs qoi_mean N cl g = (Ok ci, g') →
  ∃ gens bq,
    create_generators 0 inputs [] = Ok gens ∧
    for_each_rand (seq 0 N) (bootstrap_step estimator gens)
      (zeros 0%R [n_outputs; n_qois; N]) g = (Ok bq, g') ∧
    confidence_interval qoi_mean cl n_qois n_outputs bq = Ok ci.
Proof.
  intros Hmean. unfold bootstrapping, mbind, rand_bind, lift, shape_at.
  rewrite Hmean. simpl.
  destruct (create_generators 0 inputs []) as [gens|e]; [|done].
  destruct (for_each_rand _ _ _ g) as [[bq|e] g1] eqn:Hloop; [|done].
  intros [= Hci <-]. by exists gens, bq.
Qed.

(** X9.  With [num_bootstrap_samples] 0 or 1 the standard deviation with
    divisor [num_bootstrap_samples - 1] is not a number, and so is every
    bound of every interval that [bootstrapping] returns. *)
Theorem bootstrapping_few_samples_nan (estimator : estimator_fn) inputs
    qoi_mean N cl n_qois n_outputs g ci g' :
  shape qoi_mean = [n_qois; n_outputs] → wf qoi_mean → N ≤ 1 →
  bootstrapping estimator inputs qoi_mean N cl g = (Ok ci, g') →
  ∀ j q b, j < n_outputs → q < n_qois → b < 2 →
    interval_bound ci n_outputs j q b = Some nan.
Proof.
  intros Hmean Hwf HN Hrun j q b Hj Hq Hb.
  destruct (bootstrapping_Ok_inv _ _ _ _ _ _ _ _ _ _ Hmean Hrun)
    as (gens & bq & _ & Hloop & Hci).
  pose proof (bootstrap_loop_shape _ _ _ _ _ _ _ (wf_zeros _ _) Hloop)
    as [Hbq Hwf_bq].
  destruct (confidence_interval_Ok qoi_mean bq cl n_qois n_outputs N
              Hmean Hwf Hbq Hwf_bq) as (ci' & Hci' & _ & Hspec).
  rewrite Hci in Hci'. injection Hci' as <-.
  destruct (Hspec j q Hj Hq) as (m & xs & _ & _ & _ & Hlo & Hup & _).
  rewrite decide_False in Hlo, Hup by lia.
  destruct b as [|[|b]]; [done|done|lia].
Qed.

(** X10.  With [num_bootstrap_samples = 0] and inputs that are arrays or
    [None], [bootstrapping] returns without a call of the estimator and
    without a draw: whatever the estimator, the random source is as it was,
    and the result has the shape of the intervals. *)
Theorem bootstrapping_no_samples (estimator : estimator_fn) inputs
    qoi_mean cl n_qois n_outputs g :
  shape qoi_mean = [n_qois; n_outputs] → wf qoi_mean →
  Forall (λ input, input ≠ PyOther) inputs →
  ∃ ci, bootstrapping estimator inputs qoi_mean 0 cl g = (Ok ci, g) ∧
        shape ci = (if decide (n_outputs = 1) then [n_qois; 2]
                    else [n_outputs; n_qois; 2]).
Proof.
  intros Hmean Hwf Hinputs.
  assert (∀ i gens0, ∃ gens, create_generators i inputs gens0 = Ok gens)
    as Hgens.
  { induction Hinputs as [|input rest Hin _ IH]; intros i gens0; [by eexists|].
    destruct input as [|a|]; [apply IH| |done].
    simpl. repeat case_decide; apply IH. }
  destruct (Hgens 0 []) as [gens Hg].
  destruct (confidence_interval_Ok qoi_mean (zeros 0%R [n_outputs; n_qois; 0])
              cl n_qois n_outputs 0 Hmean Hwf) as (ci & Hci & Hshape & _).
  { done. }
  { apply wf_zeros. }
  exists ci. split; [|done].
  unfold bootstrapping, mbind, rand_bind, lift, shape_at.
  rewrite Hmean. simpl. rewrite Hg. simpl. by rewrite Hci.
Qed.

End few.

End GeneratorFacts.

(** * Properties of [transform_u01] *)

Module TransformU01Facts.
Import NumPy NumPyFacts MonteCarloSampling MonteCarloSamplingFacts TransformU01.

(** ** Assignment to a part of an array *)

Lemma size_1_inv n sh : size (n :: sh) = 1 → n = 1 ∧ size sh = 1.
Proof. unfold size. simpl. intros Hn. apply Nat.eq_mul_1 in Hn. done. Qed.

Lemma strip_ones_size_1 sh : size sh = 1 → strip_ones sh 0 = [].
Proof.
  induction sh as [|n sh IH]; [done|].
  intros [-> Hsh]%size_1_inv. cbn [strip_ones].
  rewrite decide_True by (split; [done|simpl; lia]). by apply IH.
Qed.

Lemma strip_ones_same_length sh : strip_ones sh (length sh) = sh.
Proof.
  destruct sh as [|n sh]; [done|]. cbn [strip_ones].
  by rewrite decide_False by (intros [_ ?]; lia).
Qed.

(** [a[i, j] = v] for an array [v] with one element. *)
Lemma assign_at_position {A} (a v : ndarray A) n m i j y :
  shape a = [n; m] → wf a → i < n → j < m →
  size (shape v) = 1 → data v = [y] →
  ∃ a', assign_at a [i; j] 0 v = Ok a' ∧ shape a' = [n; m] ∧ wf a' ∧
        item a' [i; j] = Some y ∧
        ∀ i' j', (i', j') ≠ (i, j) → item a' [i'; j'] = item a [i'; j'].
Proof.
  intros Hsh Hwf Hi Hj Hsize Hdata. unfold assign_at, ndim. rewrite Hsh.
  cbn [length take drop firstn skipn Nat.add].
  rewrite decide_True; last first.
  { split; [lia|]. apply ravel_2. by exists i, j. }
  rewrite (strip_ones_size_1 _ Hsize), Hdata.
  change (broadcastable (shape (NdArray [] [y])) []) with true. cbv iota.
  destruct (gather_total [n; m]
    (λ idx, if decide (take 2 idx = [i; j]) then bitem (NdArray [] [y]) (drop 2 idx)
            else item a idx)) as (a' & Ha' & Hsh' & Hwf' & Hitems).
  { intros idx (i' & j' & -> & Hi' & Hj')%ravel_2.
    cbn [take drop firstn skipn]. case_decide; [by eexists|].
    apply item_in_bounds; [done|]. rewrite Hsh. apply ravel_2. by exists i', j'. }
  exists a'. split; [done|]. split; [done|]. split; [done|]. split.
  - rewrite Hitems by (apply ravel_2; by exists i, j).
    cbn [take drop firstn skipn]. by rewrite decide_True.
  - intros i' j' Hne.
    destruct (ravel [n; m] [i'; j']) as [o|] eqn:Ho.
    + rewrite Hitems by (by eexists). cbn [take drop firstn skipn].
      rewrite decide_False; [done|]. by intros [= -> ->].
    + rewrite !item_out_of_bounds; [done|by rewrite Hsh|by rewrite Hsh'].
Qed.

(** [a[i, :] = v] for an array [v] of one axis, of extent [1] or of the
    extent of the row. *)
Lemma assign_at_row {A} (a v : ndarray A) n m i w :
  shape a = [n; m] → wf a → i < n →
  shape v = [w] → wf v → w = 1 ∨ w = m →
  ∃ a', assign_at a [i] 1 v = Ok a' ∧ shape a' = [n; m] ∧ wf a' ∧
        (∀ c, c < m → item a' [i; c] = bitem v [c]) ∧
        ∀ i' c, i' ≠ i → item a' [i'; c] = item a [i'; c].
Proof.
  intros Hsh Hwf Hi Hv Hwfv Hw. unfold assign_at, ndim. rewrite Hsh.
  cbn [length take drop firstn skipn Nat.add].
  rewrite decide_True; last first.
  { split; [lia|]. apply ravel_1. by exists i. }
  rewrite Hv. change (length [m]) with (length [w]).
  rewrite strip_ones_same_length.
  assert (NdArray [w] (data v) = v) as -> by (destruct v; simpl in *; congruence).
  assert (broadcastable (shape v) [m] = true) as ->.
  { rewrite Hv. unfold broadcastable. simpl.
    destruct Hw as [->| ->]; [|by rewrite bool_decide_true].
    rewrite (bool_decide_true (1 = 1)) by done. by rewrite orb_true_r. }
  assert (∀ c, c < m → is_Some (bitem v [c])) as Hb.
  { intros c Hc. unfold bitem, bindex. rewrite Hv. simpl.
    apply item_in_bounds; [done|]. rewrite Hv. apply ravel_1.
    case_decide; [exists 0; split; [done|lia]|exists c; split; [done|lia]]. }
  destruct (gather_total [n; m]
    (λ idx, if decide (take 1 idx = [i]) then bitem v (drop 1 idx)
            else item a idx)) as (a' & Ha' & Hsh' & Hwf' & Hitems).
  { intros idx (i' & c & -> & Hi' & Hc)%ravel_2.
    cbn [take drop firstn skipn]. rewrite ?take_0, ?drop_0.
    case_decide; [by apply Hb|].
    apply item_in_bounds; [done|]. rewrite Hsh. apply ravel_2. by exists i', c. }
  exists a'. split; [done|]. split; [done|]. split; [done|]. split.
  - intros c Hc. rewrite Hitems by (apply ravel_2; by exists i, c).
    cbn [take drop firstn skipn]. rewrite ?take_0, ?drop_0. by rewrite decide_True.
  - intros i' c Hne.
    destruct (ravel [n; m] [i'; c]) as [o|] eqn:Ho.
    + rewrite Hitems by (by eexists). cbn [take drop firstn skipn].
      rewrite ?take_0, ?drop_0. rewrite decide_False; [done|]. by intros [= ->].
    + rewrite !item_out_of_bounds; [done|by rewrite Hsh|by rewrite Hsh'].
Qed.

(** A row of an array of one axis is its element. *)
Lemma row_number {A} (z : ndarray A) k j x :
  shape z = [k] → wf z → item z [j] = Some x → row z j = Ok (NdArray [] [x]).
Proof.
  intros Hsh Hwf Hx.
  assert (j < k) as Hj.
  { destruct (decide (j < k)) as [|Hge]; [done|].
    rewrite item_out_of_bounds in Hx; [done|]. rewrite Hsh. simpl.
    by rewrite decide_False. }
  destruct (row_Ok z k [] j Hsh Hwf Hj) as (r & -> & Hr & Hwfr & Hitem).
  f_equal. apply item_ext; [done|done|done|].
  intros idx. rewrite Hitem. destruct idx as [|i idx].
  - by rewrite Hx.
  - rewrite !item_out_of_bounds; [done|done|]. rewrite Hsh. simpl.
    case_decide; [|done]. by destruct idx.
Qed.

Section transform.
Context {val : Type} `{RandomStates} (zero : val).

Local Abbreviation sampler := (@sampler val _).
Local Abbreviation pyarray := (@pyarray val).
Local Abbreviation Distribution := (@Distribution val _).
Local Abbreviation distributions := (@distributions val _).
Local Abbreviation umethod := (@umethod val _).

(** ** The monad *)

Lemma bind_Returns {A B} (m : umethod A) (f : A → umethod B) s a s1 :
  m s = (Returns a, s1) → (m ≫= f) s = f a s1.
Proof. intros Hm. unfold mbind, umethod_bind. by rewrite Hm. Qed.

Lemma bind_Raises {A B} (m : umethod A) (f : A → umethod B) s e s1 :
  m s = (Raises e, s1) → (m ≫= f) s = (Raises e, s1).
Proof. intros Hm. unfold mbind, umethod_bind. by rewrite Hm. Qed.

Lemma bind_get {A B} (field : sampler → A) (f : A → umethod B) s :
  (uget field ≫= f) s = f (field s) s.
Proof. done. Qed.

Lemma bind_lift_Ok {A B} (r : result A) (f : A → umethod B) s a :
  r = Ok a → (ulift r ≫= f) s = f a s.
Proof. by intros ->. Qed.

Lemma bind_lift_Raise {A B} (r : result A) (f : A → umethod B) s e :
  r = Raise e → (ulift r ≫= f) s = (Raises e, s).
Proof. by intros ->. Qed.

Lemma for_each_u_cons {S X} (body : S → X → umethod S) x xs st :
  for_each_u (x :: xs) body st = body st x ≫= for_each_u xs body.
Proof. done. Qed.

(** ** The first branch: a list of one-dimensional distributions *)

Lemma cdf_entry_Returns (ds : list Distribution) d F (z zi : ndarray val)
    n i j x s :
  ds !! j = Some d → cdf_of_number d F →
  shape z = [length ds] → wf z → item z [j] = Some x →
  shape zi = [n; length ds] → wf zi → i < n →
  ∃ zi', cdf_entry ds (FloatArray z) i (FloatArray zi) j s
           = (Returns (FloatArray zi'), s) ∧
         shape zi' = [n; length ds] ∧ wf zi' ∧
         item zi' [i; j] = Some (F x) ∧
         ∀ i' j', (i', j') ≠ (i, j) → item zi' [i'; j'] = item zi [i'; j'].
Proof.
  intros Hd (f & Hf & Hfx) Hz Hwfz Hx Hzi Hwfzi Hi.
  destruct (Hfx x) as (sh & Hfx' & Hsize).
  assert (j < length ds) as Hj by (by eapply lookup_lt_Some).
  destruct (assign_at_position zi (f (NdArray [] [x])) n (length ds) i j (F x))
    as (zi' & Hassign & Hrest); [done|done|done|done|by rewrite Hfx'|by rewrite Hfx'|].
  exists zi'. split; [|done].
  unfold cdf_entry. rewrite (bind_lift_Ok _ _ _ d) by (by rewrite Hd).
  rewrite Hf.
  rewrite (bind_lift_Ok _ _ _ (FloatArray (NdArray [] [x]))); last first.
  { unfold py_item. by rewrite (row_number z (length ds) j x). }
  unfold call_cdf. rewrite (bind_Returns _ _ _ (f (NdArray [] [x])) s) by done.
  unfold store, ulift. by rewrite Hassign.
Qed.

(** The inner loop over distributions [js] that all have a [cdf]. *)
Lemma cdf_entry_loop (ds : list Distribution) (Fs : list (val → val))
    (z zi : ndarray val) n i js s :
  (∀ j, j ∈ js → ∃ d F, ds !! j = Some d ∧ Fs !! j = Some F ∧ cdf_of_number d F) →
  shape z = [length ds] → wf z → shape zi = [n; length ds] → wf zi → i < n →
  NoDup js →
  ∃ zi', for_each_u js (cdf_entry ds (FloatArray z) i) (FloatArray zi) s
           = (Returns (FloatArray zi'), s) ∧
         shape zi' = [n; length ds] ∧ wf zi' ∧
         (∀ j x F, j ∈ js → item z [j] = Some x → Fs !! j = Some F →
            item zi' [i; j] = Some (F x)) ∧
         (∀ i' j', i' ≠ i ∨ j' ∉ js → item zi' [i'; j'] = item zi [i'; j']).
Proof.
  intros Hcdf Hz Hwfz Hzi Hwfzi Hi Hnd. revert zi Hzi Hwfzi Hcdf.
  induction Hnd as [|j js Hnotin Hnd IH]; intros zi Hzi Hwfzi Hcdf.
  - exists zi. split; [done|]. split; [done|]. split; [done|].
    split; [|done]. intros j x F Hin. by apply elem_of_nil in Hin.
  - destruct (Hcdf j) as (d & F & Hd & HF & HdF); [by left|].
    assert (j < length ds) as Hj by (by eapply lookup_lt_Some).
    destruct (item_in_bounds z [j]) as [x Hx];
      [done|rewrite Hz; apply ravel_1; by exists j|].
    destruct (cdf_entry_Returns ds d F z zi n i j x s)
      as (zi1 & Hstep & Hzi1 & Hwf1 & Hset1 & Hother1); [done..|].
    destruct (IH zi1 Hzi1 Hwf1) as (zi2 & Hloop & Hzi2 & Hwf2 & Hset2 & Hother2).
    { intros j' Hj'. apply Hcdf. by right. }
    exists zi2. split.
    { rewrite for_each_u_cons. by rewrite (bind_Returns _ _ _ _ _ Hstep). }
    split; [done|]. split; [done|]. split.
    + intros j' x' F' [->|Hin]%elem_of_cons Hx' HF'.
      * rewrite Hother2 by (by right). rewrite Hset1. congruence.
      * by apply Hset2.
    + intros i' j' Hcase. rewrite Hother2.
      * apply Hother1. intros [= -> ->]. destruct Hcase as [|Hcase]; [done|].
        apply Hcase. by left.
      * destruct Hcase as [|Hcase]; [by left|]. right.
        intros Hin. apply Hcase. by right.
Qed.

Section columns.
Context (ds : list Distribution) (Fs : list (val → val)).
Context (Hcdf : Forall2 cdf_of_number ds Fs).

Local Abbreviation k := (length ds).

Lemma cdf_entries_loop (a zi : ndarray val) n rows s :
  shape a = [n; k] → wf a → shape zi = [n; k] → wf zi →
  NoDup rows → (∀ i, i ∈ rows → i < n) →
  ∃ zi', for_each_u rows (cdf_entries ds (Some (FloatArray a))) (FloatArray zi) s
           = (Returns (FloatArray zi'), s) ∧
         shape zi' = [n; k] ∧ wf zi' ∧
         (∀ i j x F, i ∈ rows → item a [i; j] = Some x → Fs !! j = Some F →
            item zi' [i; j] = Some (F x)) ∧
         (∀ i' j', i' ∉ rows → item zi' [i'; j'] = item zi [i'; j']).
Proof.
  intros Ha Hwfa Hzi Hwfzi Hnd. revert zi Hzi Hwfzi.
  induction Hnd as [|i rows Hnotin Hnd IH]; intros zi Hzi Hwfzi Hlt.
  - exists zi. split; [done|]. split; [done|]. split; [done|].
    split; [|done]. intros i j x F Hin. by apply elem_of_nil in Hin.
  - assert (i < n) as Hi by (apply Hlt; left).
    destruct (row_Ok a n [k] i Ha Hwfa Hi) as (z & Hrow & Hz & Hwfz & Hitem).
    destruct (cdf_entry_loop ds Fs z zi n i (seq 0 k) s)
      as (zi1 & Hinner & Hzi1 & Hwf1 & Hset1 & Hother1);
      [|done|done|done|done|done|apply NoDup_seq|].
    { intros j [_ Hj]%elem_of_seq.
      destruct (lookup_lt_is_Some_2 ds j) as [d Hd]; [lia|].
      destruct (Forall2_lookup_l _ _ _ _ _ Hcdf Hd) as (F & HF & HdF).
      by exists d, F. }
    destruct (IH zi1 Hzi1 Hwf1) as (zi2 & Hloop & Hzi2 & Hwf2 & Hset2 & Hother2).
    { intros i' Hi'. apply Hlt. by right. }
    assert (cdf_entries ds (Some (FloatArray a)) (FloatArray zi) i s
            = (Returns (FloatArray zi1), s)) as Hstep.
    { unfold cdf_entries.
      rewrite (bind_lift_Ok _ _ _ (FloatArray z)); [done|].
      unfold row_slice. cbn [py_shape]. rewrite Ha.
      rewrite decide_True by (simpl; lia).
      unfold py_row, py_lift1. by rewrite Hrow. }
    exists zi2. split.
    { rewrite for_each_u_cons. by rewrite (bind_Returns _ _ _ _ _ Hstep). }
    split; [done|]. split; [done|]. split.
    + intros i' j x F [->|Hin]%elem_of_cons Hx HF.
      * rewrite Hother2 by done.
        assert (j < k) as Hj.
        { rewrite (Forall2_length _ _ _ Hcdf). by eapply lookup_lt_Some. }
        apply Hset1; [apply elem_of_seq; lia| |done]. by rewrite Hitem.
      * by apply Hset2.
    + intros i' j' Hcase. apply not_elem_of_cons in Hcase as [Hne Hcase].
      rewrite Hother2 by done. apply Hother1. by left.
Qed.

(** [transform_u01] on an array of samples, column by column: the lemma
    behind the two properties below of [transform_u01] on its own and after
    [run]. *)
Lemma transform_u01_array_of_columns (s : sampler) (a : ndarray val) n :
  dist_object s = DistList ds → array_flag s = true →
  samples s = Some (FloatArray a) → shape a = [n; length ds] → wf a →
  samples_number s = Some (Z.of_nat n) →
  ∃ u, transform_u01 zero s
         = (Returns tt, set_samplesU01 (Some (inr (FloatArray u))) s) ∧
       shape u = [n; length ds] ∧ wf u ∧
       ∀ i j x F, item a [i; j] = Some x → Fs !! j = Some F →
         item u [i; j] = Some (F x).
Proof.
  intros Hdist Harray Hsamples Ha Hwfa Hnum.
  destruct (cdf_entries_loop a (zeros zero (shape a)) n (seq 0 n) s)
    as (u & Hloop & Hu & Hwfu & Hset & _);
    [done|done|by rewrite Ha|apply wf_zeros|apply NoDup_seq|
     intros i [_ Hi]%elem_of_seq; lia|].
  exists u. split; [|split; [done|split; [done|]]].
  - unfold transform_u01. rewrite !bind_get, Hdist, Harray, Hsamples.
    rewrite bind_get. unfold self_samples_number. rewrite Hnum.
    rewrite (bind_lift_Ok _ _ _ (seq 0 n)) by (simpl; by rewrite Nat2Z.id).
    cbn [zeros_like].
    by rewrite (bind_Returns _ _ _ _ _ Hloop).
  - intros i j x F Hx HF. apply (Hset i j x F); [|done|done].
    assert (is_Some (ravel [n; k] [i; j])) as (i' & j' & [= <- <-] & Hi & _)%ravel_2.
    { destruct (ravel [n; k] [i; j]) eqn:Hr; [by eexists|].
      rewrite item_out_of_bounds in Hx; [done|by rewrite Ha]. }
    apply elem_of_seq. lia.
Qed.

(** X11.  For a list of one-dimensional distributions whose [cdf] gives one
    value for one number, and samples of shape [(n, len(distributions))]
    with [samples_number = n]: [transform_u01] returns, changes no attribute
    but [samplesU01], and [samplesU01] is an array of the shape of [samples]
    whose entry [(i, j)] is the [cdf] of distribution [j] at
    [samples[i, j]]. *)
Theorem transform_u01_columns (s : sampler) (a : ndarray val) n :
  dist_object s = DistList ds → array_flag s = true →
  samples s = Some (FloatArray a) → shape a = [n; length ds] → wf a →
  samples_number s = Some (Z.of_nat n) →
  ∃ u, transform_u01 zero s
         = (Returns tt, set_samplesU01 (Some (inr (FloatArray u))) s) ∧
       shape u = [n; length ds] ∧ wf u ∧
       ∀ i j x F, item a [i; j] = Some x → Fs !! j = Some F →
         item u [i; j] = Some (F x).
Proof.
  intros Hdist Harray Hsamples Ha Hwfa Hnum.
  destruct (cdf_entries_loop a (zeros zero (shape a)) n (seq 0 n) s)
    as (u & Hloop & Hu & Hwfu & Hset & _);
    [done|done|by rewrite Ha|apply wf_zeros|apply NoDup_seq|
     intros i [_ Hi]%elem_of_seq; lia|].
  exists u. split; [|split; [done|split; [done|]]].
  - unfold transform_u01. rewrite !bind_get, Hdist, Harray, Hsamples.
    rewrite bind_get. unfold self_samples_number. rewrite Hnum.
    rewrite (bind_lift_Ok _ _ _ (seq 0 n)) by (simpl; by rewrite Nat2Z.id).
    cbn [zeros_like].
    by rewrite (bind_Returns _ _ _ _ _ Hloop).
  - intros i j x F Hx HF. apply (Hset i j x F); [|done|done].
    assert (is_Some (ravel [n; k] [i; j])) as (i' & j' & [= <- <-] & Hi & _)%ravel_2.
    { destruct (ravel [n; k] [i; j]) eqn:Hr; [by eexists|].
      rewrite item_out_of_bounds in Hx; [done|by rewrite Ha]. }
    apply elem_of_seq. lia.
Qed.

End columns.

(** ** The second branch: one distribution *)

Lemma cdf_row_loop (f : ndarray val → ndarray val) (a zi : ndarray val)
    n dim rows s :
  (∀ z, shape z = [dim] → wf z →
        wf (f z) ∧ (shape (f z) = [1] ∨ shape (f z) = [dim])) →
  shape a = [n; dim] → wf a → shape zi = [n; dim] → wf zi →
  NoDup rows → (∀ i, i ∈ rows → i < n) →
  ∃ zi', for_each_u rows (cdf_row f (Some (FloatArray a))) (FloatArray zi) s
           = (Returns (FloatArray zi'), s) ∧
         shape zi' = [n; dim] ∧ wf zi' ∧
         (∀ i c z, i ∈ rows → c < dim → row a i = Ok z →
            item zi' [i; c] = bitem (f z) [c]) ∧
         (∀ i' c, i' ∉ rows → item zi' [i'; c] = item zi [i'; c]).
Proof.
  intros Hf Ha Hwfa Hzi Hwfzi Hnd. revert zi Hzi Hwfzi.
  induction Hnd as [|i rows Hnotin Hnd IH]; intros zi Hzi Hwfzi Hlt.
  - exists zi. split; [done|]. split; [done|]. split; [done|].
    split; [|done]. intros i c z Hin. by apply elem_of_nil in Hin.
  - assert (i < n) as Hi by (apply Hlt; left).
    destruct (row_Ok a n [dim] i Ha Hwfa Hi) as (z & Hrow & Hz & Hwfz & Hitem).
    destruct (Hf z Hz Hwfz) as [Hwfv Hshv].
    assert (∃ w, shape (f z) = [w] ∧ (w = 1 ∨ w = dim)) as (w & Hv & Hw).
    { destruct Hshv as [->| ->]; eexists; split; eauto. }
    destruct (assign_at_row zi (f z) n dim i w Hzi Hwfzi Hi Hv Hwfv Hw)
      as (zi1 & Hassign & Hzi1 & Hwf1 & Hset1 & Hother1).
    destruct (IH zi1 Hzi1 Hwf1) as (zi2 & Hloop & Hzi2 & Hwf2 & Hset2 & Hother2).
    { intros i' Hi'. apply Hlt. by right. }
    assert (cdf_row f (Some (FloatArray a)) (FloatArray zi) i s
            = (Returns (FloatArray zi1), s)) as Hstep.
    { unfold cdf_row.
      rewrite (bind_lift_Ok _ _ _ (FloatArray z)); last first.
      { unfold row_slice. cbn [py_shape]. rewrite Ha.
        rewrite decide_True by (simpl; lia).
        unfold py_row, py_lift1. by rewrite Hrow. }
      unfold call_cdf. rewrite (bind_Returns _ _ _ (f z) s) by done.
      unfold store, ulift. by rewrite Hassign. }
    exists zi2. split.
    { rewrite for_each_u_cons. by rewrite (bind_Returns _ _ _ _ _ Hstep). }
    split; [done|]. split; [done|]. split.
    + intros i' c z' [->|Hin]%elem_of_cons Hc Hz'.
      * rewrite Hother2 by done. rewrite Hrow in Hz'. injection Hz' as <-.
        by apply Hset1.
      * by eapply Hset2.
    + intros i' c Hcase. apply not_elem_of_cons in Hcase as [Hne Hcase].
      rewrite Hother2 by done. by apply Hother1.
Qed.

(** X12.  For one distribution with a [cdf] that returns, for a point, one
    value or one value per coordinate, and samples of shape [(n, dim)] with
    [samples_number = n]: [transform_u01] returns, changes no attribute but
    [samplesU01], and the row [i] of [samplesU01] is [cdf(samples[i, :])],
    broadcast to the length of the row. *)
Theorem transform_u01_single (d : Distribution) f (s : sampler)
    (a : ndarray val) n dim :
  dist_object s = Single d → cdf d = Some f →
  samples s = Some (FloatArray a) → shape a = [n; dim] → wf a →
  samples_number s = Some (Z.of_nat n) →
  (∀ z, shape z = [dim] → wf z →
        wf (f z) ∧ (shape (f z) = [1] ∨ shape (f z) = [dim])) →
  ∃ u, transform_u01 zero s
         = (Returns tt, set_samplesU01 (Some (inr (FloatArray u))) s) ∧
       shape u = [n; dim] ∧ wf u ∧
       ∀ i c z, c < dim → row a i = Ok z → item u [i; c] = bitem (f z) [c].
Proof.
  intros Hdist Hcdf Hsamples Ha Hwfa Hnum Hf.
  destruct (cdf_row_loop f a (zeros zero (shape a)) n dim (seq 0 n) s)
    as (u & Hloop & Hu & Hwfu & Hset & _);
    [done|done|done|by rewrite Ha|apply wf_zeros|apply NoDup_seq|
     intros i [_ Hi]%elem_of_seq; lia|].
  exists u. split; [|split; [done|split; [done|]]].
  - unfold transform_u01. rewrite !bind_get, Hdist, Hcdf, Hsamples.
    rewrite bind_get. unfold self_samples_number. rewrite Hnum.
    rewrite (bind_lift_Ok _ _ _ (seq 0 n)) by (simpl; by rewrite Nat2Z.id).
    cbn [zeros_like].
    by rewrite (bind_Returns _ _ _ _ _ Hloop).
  - intros i c z Hc Hrow. apply Hset; [|done|done].
    apply elem_of_seq. unfold row in Hrow. rewrite Ha in Hrow.
    case_decide; [lia|done].
Qed.

(** ** Missing methods, and calls before [run] *)

(** X13.  On an object on which [run] has not been called
    ([samples_number] is [None]), [transform_u01] raises, and stores
    nothing: for one distribution without [cdf] the [ValueError] of the
    missing method; in every other case, a list of distributions without
    [cdf] included, the [TypeError] of [range(None)]. *)
Theorem transform_u01_before_run (dist : distributions) rs g :
  transform_u01 zero (new dist None rs g)
  = (Raises (match dist with
             | Single d =>
                 match cdf d with
                 | Some _ => NoneAsInteger
                 | None => CdfMissing
                 end
             | DistList _ => NoneAsInteger
             end),
     new dist None rs g).
Proof.
  destruct dist as [d|ds].
  - unfold new, transform_u01. simpl. rewrite !bind_get. simpl.
    by destruct (cdf d).
  - unfold new, _process_distributions. case_decide; reflexivity.
Qed.

Lemma for_each_u_Raises {S X} (body : S → X → umethod S) xs1 x xs2
    st st1 e s s1 s2 :
  for_each_u xs1 body st s = (Returns st1, s1) →
  body st1 x s1 = (Raises e, s2) →
  for_each_u (xs1 ++ x :: xs2) body st s = (Raises e, s2).
Proof.
  revert st s. induction xs1 as [|x1 xs1 IH]; intros st s.
  - intros [= <- <-] Hx. cbn [app]. rewrite for_each_u_cons.
    by rewrite (bind_Raises _ _ _ _ _ Hx).
  - cbn [app]. rewrite !for_each_u_cons.
    destruct (body st x1 s) as [[st'|e'|] s'] eqn:Hbody.
    + rewrite !(bind_Returns _ _ _ _ _ Hbody). apply IH.
    + by rewrite (bind_Raises _ _ _ _ _ Hbody).
    + unfold mbind, umethod_bind. by rewrite Hbody.
Qed.

(** X14.  For a list of one-dimensional distributions and at least one
    sample: when a distribution has no [cdf], and those before it in the
    list have one that gives one value for one number, [transform_u01]
    raises the [ValueError] of the missing method and stores nothing. *)
Theorem transform_u01_list_cdf_missing (ds : list Distribution)
    (Fs : list (val → val)) (s : sampler) (a : ndarray val) n j0 d0 :
  dist_object s = DistList ds → array_flag s = true →
  samples s = Some (FloatArray a) → shape a = [n; length ds] → wf a →
  samples_number s = Some (Z.of_nat n) → 0 < n →
  ds !! j0 = Some d0 → cdf d0 = None →
  Forall2 cdf_of_number (take j0 ds) Fs →
  transform_u01 zero s = (Raises CdfMissing, s).
Proof.
  intros Hdist Harray Hsamples Ha Hwfa Hnum Hn Hd0 Hnone Hcdf.
  assert (j0 < length ds) as Hj0 by (by eapply lookup_lt_Some).
  destruct (row_Ok a n [length ds] 0 Ha Hwfa Hn) as (z & Hrow & Hz & Hwfz & _).
  destruct (cdf_entry_loop ds Fs z (zeros zero (shape a)) n 0 (seq 0 j0) s)
    as (zi1 & Hinner & _); [|done|done|by rewrite Ha|apply wf_zeros|done|
                            apply NoDup_seq|].
  { intros j [_ Hj]%elem_of_seq.
    destruct (lookup_lt_is_Some_2 (take j0 ds) j) as [d Hd];
      [rewrite length_take; lia|].
    destruct (Forall2_lookup_l _ _ _ _ _ Hcdf Hd) as (F & HF & HdF).
    exists d, F. split; [|done]. rewrite lookup_take_lt in Hd by lia. done. }
  assert (cdf_entry ds (FloatArray z) 0 (FloatArray zi1) j0 s
          = (Raises CdfMissing, s)) as Hfail.
  { unfold cdf_entry. rewrite (bind_lift_Ok _ _ _ d0) by (by rewrite Hd0).
    by rewrite Hnone. }
  assert (cdf_entries ds (Some (FloatArray a))
            (FloatArray (zeros zero (shape a))) 0 s
          = (Raises CdfMissing, s)) as Hrow0.
  { unfold cdf_entries.
    rewrite (bind_lift_Ok _ _ _ (FloatArray z)); last first.
    { unfold row_slice. cbn [py_shape]. rewrite Ha.
      rewrite decide_True by (simpl; lia).
      unfold py_row, py_lift1. by rewrite Hrow. }
    replace (seq 0 (length ds))
      with (seq 0 j0 ++ j0 :: seq (S j0) (length ds - S j0)); last first.
    { change (j0 :: seq (S j0) (length ds - S j0))
        with (seq j0 (S (length ds - S j0))).
      rewrite <- (Nat.add_0_l j0) at 2. rewrite <- seq_app. f_equal. lia. }
    by apply (for_each_u_Raises _ _ _ _ _ _ _ _ _ _ Hinner Hfail). }
  unfold transform_u01. rewrite !bind_get, Hdist, Harray, Hsamples.
  rewrite bind_get. unfold self_samples_number. rewrite Hnum.
  rewrite (bind_lift_Ok _ _ _ (seq 0 n)) by (simpl; by rewrite Nat2Z.id).
  cbn [zeros_like].
  destruct n as [|n]; [lia|].
  rewrite (bind_Raises _ _ _ CdfMissing s); [done|].
  cbn [seq]. rewrite for_each_u_cons.
  by rewrite (bind_Raises _ _ _ _ _ Hrow0).
Qed.

(** ** After [run] *)

(** X15.  On an object made for a list of at least one one-dimensional
    distribution, whose [rvs] return one row per point and whose [cdf] give
    one value for one number: after [run] for [n] points, [transform_u01]
    returns, and [samplesU01] has the shape [(n, len(distributions))] of
    [samples], with the [cdf] of distribution [j] at [samples[i, j]] in
    position [(i, j)]. *)
Theorem run_then_transform_u01 (ds : list Distribution) fs
    (Fs : list (val → val)) sn rs0 g n rs :
  ds ≠ [] →
  Forall (λ d : Distribution, class_of d = DistributionContinuous1D) ds →
  Forall2 (λ d f, rvs_returns d 1 f) ds fs →
  Forall2 cdf_of_number ds Fs → (0 < n)%Z →
  ∃ s1 a u,
    run n rs (new (DistList ds) sn rs0 g) = (Ok tt, s1) ∧
    samples s1 = Some (FloatArray a) ∧
    transform_u01 zero s1
      = (Returns tt, set_samplesU01 (Some (inr (FloatArray u))) s1) ∧
    shape a = [Z.to_nat n; length ds] ∧ shape u = [Z.to_nat n; length ds] ∧
    ∀ i j x F, item a [i; j] = Some x → Fs !! j = Some F →
      item u [i; j] = Some (F x).
Proof.
  intros Hne H1d Hrvs Hcdf Hn.
  assert (snd (_process_distributions (DistList ds)) = true) as Hmode.
  { unfold _process_distributions. rewrite decide_True; [done|].
    clear -H1d. induction H1d as [|d ds Hd _ IH]; [done|].
    rewrite filter_cons_True by done. simpl. by rewrite IH. }
  assert (well_behaved (DistList ds) (replicate (length ds) 1)) as Hwb.
  { split; [done|]. exists fs. clear -Hrvs.
    induction Hrvs as [|d f ds fs Hd _ IH]; simpl; by constructor. }
  destruct (new_attributes (DistList ds) sn rs0 g) as (Hd0 & Ha0 & Hs0).
  destruct (run_first n rs (DistList ds) (replicate (length ds) 1)
              (new (DistList ds) sn rs0 g) Hwb Hd0)
    as (s1 & a & Hrun & (Hsm & Hwfa & Hsh & Hfl) & Hd1 & Ha1 & Hnum);
    [done|done|done|].
  rewrite point_layout_list, Hmode in Hsh, Hfl. simpl in Hsh, Hfl.
  destruct a as [a|a]; [|done]. simpl in Hwfa, Hsh.
  destruct (transform_u01_array_of_columns ds Fs Hcdf s1 a (Z.to_nat n))
    as (u & Htr & Hu & _ & Hitems);
    [done|by rewrite Ha1, Ha0|done|done|done|by rewrite Hnum, Z2Nat.id by lia|].
  by exists s1, a, u.
Qed.

(** ** The third branch: a list with distributions of several dimensions *)

Section objects.
Context (ds : list Distribution) (fs : list (ndarray val → ndarray val)).
Context (dim : nat).
Context (Hcdf : Forall2 (λ d f, cdf d = Some f ∧
                   ∀ x, shape x = [dim] → wf x → shape (f x) = [1] ∧ wf (f x))
                 ds fs).

Local Abbreviation k := (length ds).

Lemma cdf_object_loop (z : ndarray val) m cnt vs s :
  shape z = [k; dim] → wf z → m + cnt = k → length vs = m →
  ∃ ws, for_each_u (seq m cnt) (cdf_object ds (FloatArray z))
          ((Some <$> vs) ++ replicate cnt None) s
          = (Returns (Some <$> (vs ++ ws)), s) ∧
        Forall2 (λ j w, shape w = [1] ∧ wf w ∧
                        ∃ f zj, fs !! j = Some f ∧ row z j = Ok zj ∧ w = f zj)
                (seq m cnt) ws.
Proof.
  intros Hz Hwfz. revert m vs. induction cnt as [|cnt IH]; intros m vs Hm Hvs.
  - exists []. rewrite !app_nil_r. split; [done|constructor].
  - assert (m < k) as Hlt by lia.
    destruct (lookup_lt_is_Some_2 ds m Hlt) as [d Hd].
    destruct (Forall2_lookup_l _ _ _ _ _ Hcdf Hd) as (f & Hf & Hdf & Hfx).
    destruct (row_Ok z k [dim] m Hz Hwfz Hlt) as (zm & Hrow & Hzm & Hwfzm & _).
    destruct (Hfx zm Hzm Hwfzm) as [Hsh Hwf].
    destruct (IH (S m) (vs ++ [f zm])) as (ws & Hloop & HF);
      [lia|rewrite length_app; simpl; lia|].
    exists (f zm :: ws). split; [|constructor; [|done]].
    + cbn [seq]. rewrite for_each_u_cons.
      assert (cdf_object ds (FloatArray z)
                ((Some <$> vs) ++ replicate (S cnt) None) m s
              = (Returns ((Some <$> (vs ++ [f zm])) ++ replicate cnt None), s))
        as Hstep.
      { unfold cdf_object. rewrite (bind_lift_Ok _ _ _ d) by (by rewrite Hd).
        rewrite Hdf.
        rewrite (bind_lift_Ok _ _ _ (FloatArray zm)); last first.
        { unfold py_item. by rewrite Hrow. }
        unfold call_cdf. rewrite (bind_Returns _ _ _ (f zm) s) by done.
        unfold mret, umethod_ret. do 2 f_equal.
        rewrite insert_app_r_alt by (rewrite length_fmap; lia).
        rewrite length_fmap, Hvs, Nat.sub_diag. cbn [replicate].
        rewrite fmap_app, <- app_assoc. done. }
      rewrite (bind_Returns _ _ _ _ _ Hstep), Hloop.
      by rewrite <- app_assoc.
    + split; [done|]. split; [done|]. by exists f, zm.
Qed.

Lemma cdf_objects_loop (a : ndarray val) n rows temp s :
  ds ≠ [] → shape a = [n; k; dim] → wf a → Forall (λ i, i < n) rows →
  ∃ us, for_each_u rows (cdf_objects ds (Some (FloatArray a))) temp s
          = (Returns (temp ++ us), s) ∧
        Forall2 (λ i u, ∃ t, u = FloatArray t ∧ shape t = [k; 1] ∧ wf t ∧
                   ∀ j f zi zij, fs !! j = Some f → row a i = Ok zi →
                     row zi j = Ok zij → item t [j; 0] = item (f zij) [0])
                rows us.
Proof.
  intros Hne Ha Hwfa Hrows. revert temp.
  induction Hrows as [|i rows Hi _ IH]; intros temp.
  - exists []. rewrite app_nil_r. split; [done|constructor].
  - destruct (row_Ok a n [k; dim] i Ha Hwfa Hi) as (zi & Hrow & Hzi & Hwfzi & _).
    destruct (cdf_object_loop zi 0 k [] s Hzi Hwfzi) as (ws & Hinner & HF);
      [done|done|].
    cbn [fmap list_fmap app] in Hinner.
    assert (length ws = k) as Hlen.
    { apply Forall2_length in HF. by rewrite length_seq in HF. }
    assert (ws ≠ []) as Hwne.
    { intros ->. simpl in Hlen. by destruct ds. }
    assert (Forall (λ b, shape b = [1] ∧ wf b) ws) as Hshapes.
    { apply Forall_forall. intros w [j Hj]%list_elem_of_lookup.
      destruct (Forall2_lookup_r _ _ _ _ _ HF Hj) as (? & _ & ? & ? & _). done. }
    destruct (stack_Ok ws [1] Hshapes Hwne) as (t & Ht & Hsht & Hwft & Hitem).
    assert (np_array_rows ws = Ok (FloatArray t)) as Harr.
    { unfold np_array_rows.
      assert (forallb (λ b, bool_decide (Some (shape b) = shape <$> head ws)) ws
              = true) as ->.
      { apply forallb_forall. intros w Hw%list_elem_of_In.
        apply bool_decide_eq_true_2.
        rewrite Forall_forall in Hshapes.
        destruct ws as [|w0 ws']; [done|]. simpl.
        destruct (Hshapes w Hw) as [-> _].
        destruct (Hshapes w0) as [-> _]; [by left|done]. }
      by rewrite Ht. }
    assert (cdf_objects ds (Some (FloatArray a)) temp i s
            = (Returns (temp ++ [FloatArray t]), s)) as Hstep.
    { unfold cdf_objects.
      rewrite (bind_lift_Ok _ _ _ (FloatArray zi)); last first.
      { unfold item_slice, py_item. rewrite Hrow. simpl.
        unfold ndim. rewrite Hzi. by rewrite decide_False. }
      rewrite (bind_Returns _ _ _ _ _ Hinner).
      unfold np_array_y. rewrite mapM_fmap_Some by done.
      by rewrite (bind_lift_Ok _ _ _ (FloatArray t)). }
    destruct (IH (temp ++ [FloatArray t])) as (us & Hloop & HFus).
    exists (FloatArray t :: us). split.
    { rewrite for_each_u_cons, (bind_Returns _ _ _ _ _ Hstep), Hloop.
      by rewrite <- app_assoc. }
    constructor; [|done].
    exists t. split; [done|]. rewrite Hsht, Hlen. split; [done|]. split; [done|].
    intros j f zi' zij Hf Hzi' Hzij.
    rewrite Hrow in Hzi'. injection Hzi' as <-.
    rewrite Hitem.
    assert (j < k) as Hj.
    { apply lookup_lt_Some in Hf. by rewrite (Forall2_length _ _ _ Hcdf). }
    destruct (lookup_lt_is_Some_2 ws j) as [w Hw]; [lia|].
    rewrite Hw. simpl.
    assert (seq 0 k !! j = Some j) as Hsj by (by apply lookup_seq_lt).
    destruct (Forall2_lookup_lr _ _ _ _ _ _ HF Hsj Hw)
      as (_ & _ & f' & zj & Hf' & Hzj & ->).
    congruence.
Qed.

(** X21.  For a list of distributions that is not a list of
    one-dimensional ones, with samples of shape [(n, k, dim)] and
    distributions whose [cdf] returns one value for a point:
    [transform_u01] returns, and [samplesU01] is not an array but a list of
    [n] arrays of shape [(k, 1)], the array [i] holding in row [j] the
    [cdf] of distribution [j] at [samples[i][j]]. *)
Theorem transform_u01_list_mode (s : sampler) (a : ndarray val) n :
  dist_object s = DistList ds → array_flag s = false → list_flag s = true →
  ds ≠ [] →
  samples s = Some (FloatArray a) → shape a = [n; length ds; dim] → wf a →
  samples_number s = Some (Z.of_nat n) →
  ∃ us, transform_u01 zero s = (Returns tt, set_samplesU01 (Some (inl us)) s) ∧
        length us = n ∧
        ∀ i u, us !! i = Some u →
          ∃ t, u = FloatArray t ∧ shape t = [length ds; 1] ∧ wf t ∧
               ∀ j f zi zij, fs !! j = Some f → row a i = Ok zi →
                 row zi j = Ok zij → item t [j; 0] = item (f zij) [0].
Proof.
  intros Hdist Harray Hlist Hne Hsamples Ha Hwfa Hnum.
  destruct (cdf_objects_loop a n (seq 0 n) [] s Hne Ha Hwfa)
    as (us & Hloop & HF).
  { apply Forall_forall. intros i [_ Hi]%elem_of_seq. lia. }
  exists us. split; [|split].
  - unfold transform_u01. rewrite !bind_get, Hdist, Harray, Hlist, Hsamples.
    rewrite bind_get. unfold self_samples_number. rewrite Hnum.
    rewrite (bind_lift_Ok _ _ _ (seq 0 n)) by (simpl; by rewrite Nat2Z.id).
    by rewrite (bind_Returns _ _ _ _ _ Hloop).
  - apply Forall2_length in HF. by rewrite length_seq in HF.
  - intros i u Hu.
    destruct (Forall2_lookup_r _ _ _ _ _ HF Hu) as (i' & Hi' & Hspec).
    apply lookup_seq in Hi' as [-> _]. done.
Qed.

End objects.

End transform.

End TransformU01Facts.

(** * More on [run] and on the constructor *)

Module SamplerFacts.
Import NumPy NumPyFacts MonteCarloSampling MonteCarloSamplingFacts
  SamplerInvariants.

Section sampler.
Context {val : Type} `{RandomStates}.

Local Abbreviation sampler := (@sampler val _).
Local Abbreviation method := (@method val _).
Local Abbreviation pyarray := (@pyarray val).
Local Abbreviation Distribution := (@Distribution val _).
Local Abbreviation distributions := (@distributions val _).

(** ** What [run] never changes *)

Lemma keeps_refl (s : sampler) : keeps_distributions s s.
Proof. done. Qed.

Lemma keeps_trans (s1 s2 s3 : sampler) :
  keeps_distributions s1 s2 → keeps_distributions s2 s3 →
  keeps_distributions s1 s3.
Proof.
  intros (? & ? & ? & ?) (? & ? & ? & ?). repeat split; congruence.
Qed.

Lemma keeps_bind {A B} (m : method A) (f : A → method B) :
  (∀ s, keeps_distributions s (m s).2) →
  (∀ a s, keeps_distributions s (f a s).2) →
  ∀ s, keeps_distributions s ((m ≫= f) s).2.
Proof.
  intros Hm Hf s. unfold mbind, method_bind. specialize (Hm s).
  destruct (m s) as [[a|e] s1]; [|done].
  eapply keeps_trans; [done|apply Hf].
Qed.

Lemma keeps_call_rvs f n (s : sampler) :
  keeps_distributions s (call_rvs f n s).2.
Proof.
  unfold call_rvs. destruct (random_state s); by destruct (f n _).
Qed.

Lemma keeps_draw_all n ds temp (s : sampler) :
  keeps_distributions s (draw_all n ds temp s).2.
Proof.
  revert temp s. induction ds as [|d ds IH]; intros temp s; [done|].
  simpl. destruct (rvs d) as [f|]; [|done].
  apply keeps_bind; [apply keeps_call_rvs|]. intros a s'. apply IH.
Qed.

Lemma keeps_assemble js temps (s : sampler) :
  keeps_distributions s (assemble js temps s).2.
Proof.
  revert s. induction js as [|j js IH]; intros s; [done|].
  simpl. apply keeps_bind; [done|]. intros xj s1.
  apply keeps_bind; [done|]. intros x_old s2.
  apply keeps_bind; [done|]. intros _ s3. apply IH.
Qed.

Lemma keeps_draw_samples n (s : sampler) :
  keeps_distributions s (draw_samples n s).2.
Proof.
  unfold draw_samples. apply keeps_bind; [done|]. intros [d|ds] s1.
  - destruct (rvs d) as [f|]; [|done].
    apply keeps_bind; [apply keeps_call_rvs|done].
  - apply keeps_bind; [apply keeps_draw_all|]. intros temps s2.
    apply keeps_bind; [done|]. intros _ s3. apply keeps_assemble.
Qed.

Lemma keeps_store_samples (s : sampler) :
  keeps_distributions s (store_samples s).2.
Proof.
  unfold store_samples.
  apply keeps_bind; [done|]. intros dist s1.
  apply keeps_bind; [done|]. intros old s2.
  apply keeps_bind; [done|]. intros array s3.
  apply keeps_bind; [done|]. intros xv s4.
  apply keeps_bind; [done|]. intros new s5.
  apply keeps_bind.
  { intros s6. destruct old as [old|]; [|done].
    apply keeps_bind; [done|done]. }
  intros _ s6.
  apply keeps_bind; [done|]. intros cur s7.
  apply keeps_bind; [done|done].
Qed.

(** X16.  Whatever its arguments and however it ends, [run] leaves
    [dist_object], the flags [list] and [array], and [samplesU01] as they
    are: the transformed samples are not brought up to date with the new
    samples. *)
Theorem run_keeps_distributions n rs (s : sampler) :
  keeps_distributions s (run n rs s).2.
Proof.
  unfold run. case_decide; [|done].
  apply keeps_bind; [done|]. intros old s1.
  apply keeps_bind; [done|]. intros _ s2.
  apply keeps_bind; [apply keeps_draw_samples|]. intros _ s3.
  apply keeps_store_samples.
Qed.

(** ** A list with a distribution without [rvs] *)

Lemma draw_all_rvs_missing_same n (ds : list Distribution) temp (s : sampler) :
  Exists (λ d, rvs d = None) ds →
  ∃ s', draw_all n ds temp s = (Raise RvsMissing, s') ∧ same_attributes s s'.
Proof.
  intros Hex. revert temp s.
  induction ds as [|d ds IH]; intros temp s; [by apply Exists_nil in Hex|].
  simpl. destruct (rvs d) as [f|] eqn:Hd.
  - apply Exists_cons in Hex as [Hex|Hex]; [congruence|].
    unfold mbind, method_bind.
    destruct (call_rvs_eq f n s) as (s1 & -> & Hsame1 & _).
    destruct (IH Hex (temp ++ [(f n (current_state s)).1]) s1)
      as (s2 & -> & Hsame2).
    exists s2. split; [done|]. by eapply same_attributes_trans.
  - exists s. split; [done|]. apply same_attributes_refl.
Qed.

(** X17.  For a list of distributions of which one has no [rvs], [run]
    raises the [ValueError] of the missing method, and [samples], [x],
    [samples_number] and [samplesU01] are as before the call (the random
    state may have been drawn from by the distributions before that one). *)
Theorem run_list_rvs_missing_keeps_samples n rs ds (s : sampler) :
  (0 < n)%Z → dist_object s = DistList ds →
  Exists (λ d, rvs d = None) ds →
  ∃ s', run n rs s = (Raise RvsMissing, s') ∧ same_attributes s s'.
Proof.
  intros Hn Hds Hex. rewrite run_unfold by done.
  unfold draw_samples, mbind at 1 2 3, method_bind at 1 2 3, get. simpl.
  rewrite Hds.
  edestruct (draw_all_rvs_missing_same (Z.to_nat n) ds [])
    as (s' & Hs' & Hsame); [done|].
  unfold mbind, method_bind. rewrite Hs'. exists s'. split; [done|].
  eapply same_attributes_trans; [|exact Hsame]. repeat split; reflexivity.
Qed.

(** ** The layout of the samples *)

(** X18.  After [run] for [n] points on an object made for distributions
    that return one row per point, [samples] is an array of [n] points: of
    shape [(n, dim)] for one distribution; of shape [(n, k)] for [k]
    one-dimensional distributions; for another list of [k] distributions,
    of shape [(n, k, dim)] when they all have the dimension [dim], and an
    array of objects of shape [(n, k)] when their dimensions differ. *)
Theorem run_layout (dist : distributions) dims sn rs0 g n rs :
  well_behaved dist dims → (0 < n)%Z →
  ∃ s' a,
    run n rs (new dist sn rs0 g) = (Ok tt, s') ∧ samples s' = Some a ∧
    py_wf a ∧
    py_shape a = Z.to_nat n :: (point_layout dist dims).1 ∧
    py_is_float a = (point_layout dist dims).2.
Proof.
  intros Hwb Hn.
  destruct (new_attributes dist sn rs0 g) as (Hd0 & Ha0 & Hs0).
  destruct (run_first n rs dist dims (new dist sn rs0 g) Hwb Hd0 Ha0 Hs0 Hn)
    as (s' & a & Hrun & (Hsm & Hwf & Hsh & Hfl) & _).
  by exists s', a.
Qed.

(** ** The constructor *)

(** The body of [run] does not read [samples_number]. *)
Lemma bind_samples_number {A B} (m : method A) (f : A → method B) v (s : sampler) :
  m (set_samples_number v s) = ((m s).1, set_samples_number v (m s).2) →
  (∀ a s, f a (set_samples_number v s)
          = ((f a s).1, set_samples_number v (f a s).2)) →
  (m ≫= f) (set_samples_number v s)
  = (((m ≫= f) s).1, set_samples_number v ((m ≫= f) s).2).
Proof.
  intros Hm Hf. unfold mbind, method_bind. rewrite Hm.
  destruct (m s) as [[a|e] s1]; simpl; [apply Hf|done].
Qed.

Lemma call_rvs_samples_number f n v (s : sampler) :
  call_rvs f n (set_samples_number v s)
  = ((call_rvs f n s).1, set_samples_number v (call_rvs f n s).2).
Proof.
  unfold call_rvs. simpl. destruct (random_state s); by destruct (f n _).
Qed.

Lemma draw_all_samples_number n ds temp v (s : sampler) :
  draw_all n ds temp (set_samples_number v s)
  = ((draw_all n ds temp s).1, set_samples_number v (draw_all n ds temp s).2).
Proof.
  revert temp s. induction ds as [|d ds IH]; intros temp s; [done|].
  simpl. destruct (rvs d) as [f|]; [|done].
  apply bind_samples_number; [apply call_rvs_samples_number|].
  intros a s'. apply IH.
Qed.

Lemma assemble_samples_number js temps v (s : sampler) :
  assemble js temps (set_samples_number v s)
  = ((assemble js temps s).1, set_samples_number v (assemble js temps s).2).
Proof.
  revert s. induction js as [|j js IH]; intros s; [done|].
  simpl. apply bind_samples_number; [done|]. intros xj s1.
  apply bind_samples_number; [done|]. intros x_old s2.
  apply bind_samples_number; [done|]. intros _ s3. apply IH.
Qed.

Lemma draw_samples_samples_number n v (s : sampler) :
  draw_samples n (set_samples_number v s)
  = ((draw_samples n s).1, set_samples_number v (draw_samples n s).2).
Proof.
  unfold draw_samples. apply bind_samples_number; [done|]. intros [d|ds] s1.
  - destruct (rvs d) as [f|]; [|done].
    apply bind_samples_number; [apply call_rvs_samples_number|done].
  - apply bind_samples_number; [apply draw_all_samples_number|].
    intros temps s2. apply bind_samples_number; [done|].
    intros _ s3. apply assemble_samples_number.
Qed.

Lemma store_samples_samples_number v (s : sampler) :
  (store_samples (set_samples_number v s)).1 = (store_samples s).1 ∧
  ((store_samples s).1 = Ok tt →
   (store_samples (set_samples_number v s)).2 = (store_samples s).2).
Proof.
  unfold store_samples, mbind, method_bind, get, set, lift. simpl.
  destruct (batch (dist_object s) (array_flag s) (x s)) as [new|e]; [|done].
  destruct (samples s) as [old|]; simpl.
  - destruct (if (is_dist_list (dist_object s) && array_flag s)%bool
              then py_concatenate0 [old; new] else py_vstack [old; new])
      as [a|e]; [|done]. simpl.
    by destruct (py_len a).
  - by destruct (py_len new).
Qed.

(** X19.  To give the number of samples and the random state to the
    constructor is to give them to [run] on an object made without them:
    both end in the same way, and when they return the two objects have the
    same attributes. *)
Theorem init_is_run_with_seed (dist : distributions) n rs g :
  (__init__ dist (Some n) rs g).1 = (run n rs (new dist None RSNone g)).1 ∧
  ((__init__ dist (Some n) rs g).1 = Ok tt →
   (__init__ dist (Some n) rs g).2 = (run n rs (new dist None RSNone g)).2).
Proof.
  unfold __init__.
  destruct (decide (0 < n)%Z) as [Hn|Hn]; last first.
  { unfold run. rewrite !decide_False by done. done. }
  rewrite !run_unfold by done.
  set (s := set_random_state (process_random_state rs) (new dist None RSNone g)).
  assert (set_random_state
            match (match self_random_state (new dist (Some n) rs g) with
                   | Some g0 => RSObject g0
                   | None => RSNone
                   end) with
            | RSNone => random_state (new dist (Some n) rs g)
            | _ => process_random_state
                     (match self_random_state (new dist (Some n) rs g) with
                      | Some g0 => RSObject g0
                      | None => RSNone
                      end)
            end (new dist (Some n) rs g)
          = set_samples_number (Some n) s) as ->.
  { unfold s, new, self_random_state.
    destruct (_process_distributions dist). by destruct rs. }
  assert (set_random_state
            match rs with
            | RSNone => random_state (new dist None RSNone g)
            | _ => process_random_state rs
            end (new dist None RSNone g) = s) as ->.
  { unfold s, new. destruct (_process_distributions dist). by destruct rs. }
  unfold mbind, method_bind.
  rewrite draw_samples_samples_number.
  destruct (draw_samples (Z.to_nat n) s) as [[[]|e] s1]; simpl.
  - destruct (store_samples_samples_number (Some n) s1) as [Hfst Hsnd].
    split; [done|]. rewrite Hfst. apply Hsnd.
  - split; [done|]. intros [=].
Qed.

(** ** The same seed again *)

Lemma draw_all_inv n (ds : list Distribution) temp (s s' : sampler) temps :
  draw_all n ds temp s = (Ok temps, s') →
  ∃ fs, Forall2 (λ d f, rvs d = Some f) ds fs.
Proof.
  revert temp s. induction ds as [|d ds IH]; intros temp s; [by exists []|].
  simpl. destruct (rvs d) as [f|] eqn:Hd; [|done].
  intros (a & s1 & _ & Hrest)%method_bind_Ok.
  destruct (IH _ _ Hrest) as [fs Hfs]. exists (f :: fs). by constructor.
Qed.

Lemma assemble_inv js temps (s s' : sampler) :
  assemble js temps s = (Ok tt, s') →
  ∀ j, j ∈ js → ∃ xj, realization temps j = Ok xj.
Proof.
  revert s. induction js as [|j js IH]; intros s Hrun j' Hin.
  { by apply elem_of_nil in Hin. }
  simpl in Hrun.
  apply method_bind_Ok in Hrun as (xj & s1 & Hxj & Hrun).
  apply method_bind_Ok in Hrun as (x_old & s2 & _ & Hrun).
  apply method_bind_Ok in Hrun as (u & s3 & _ & Hrun).
  apply elem_of_cons in Hin as [->|Hin].
  - exists xj. unfold lift in Hxj. congruence.
  - by eapply IH.
Qed.

Lemma Forall2_realization_unique temps js (xs xs' : list pyarray) :
  Forall2 (λ j xj, realization temps j = Ok xj) js xs →
  Forall2 (λ j xj, realization temps j = Ok xj) js xs' →
  xs = xs'.
Proof.
  intros HF. revert xs'. induction HF as [|j xj js xs Hj _ IH]; intros xs' HF'.
  - by apply Forall2_nil_inv_l in HF'.
  - apply Forall2_cons_inv_l in HF' as (xj' & xs'' & Hj' & HF' & ->).
    f_equal; [congruence|by apply IH].
Qed.

(** What [draw_samples] stores in [x] depends on the distributions and on
    the random state it draws from only. *)
Lemma draw_samples_replay n (s t s1 : sampler) :
  dist_object t = dist_object s → current_state t = current_state s →
  (∀ d, dist_object s = Single d → is_Some (rvs d)) →
  draw_samples n s = (Ok tt, s1) →
  ∃ t1, draw_samples n t = (Ok tt, t1) ∧ x t1 = x s1.
Proof.
  intros Hdist Hcur Hrvs Hrun.
  destruct (dist_object s) as [d|ds] eqn:Hds.
  - destruct (Hrvs d eq_refl) as [f Hf].
    destruct (draw_samples_single n d f s Hds Hf) as (s1' & Hs1 & Hx & _).
    destruct (draw_samples_single n d f t Hdist Hf) as (t1 & Ht1 & Hx' & _).
    exists t1. split; [done|]. rewrite Hs1 in Hrun. injection Hrun as <-.
    by rewrite Hx, Hx', Hcur.
  - unfold draw_samples in Hrun.
    apply method_bind_Ok in Hrun as (dist' & s0 & [= <- <-] & Hrun).
    rewrite Hds in Hrun.
    apply method_bind_Ok in Hrun as (temps & s2 & Hdraw & Hrun).
    apply method_bind_Ok in Hrun as (u & s3 & Hset & Hrun).
    destruct (draw_all_inv _ _ _ _ _ _ Hdraw) as [fs Hfs].
    destruct (draw_all_Ok n ds fs [] s Hfs) as (s2' & Hdraw' & _).
    rewrite Hdraw in Hdraw'. injection Hdraw' as -> <-.
    pose proof (assemble_inv _ _ _ _ Hrun) as Hreal.
    set (P := λ j (xj : pyarray),
           realization (draws n fs (current_state s)) j = Ok xj).
    destruct (draw_samples_list n ds fs P s Hds Hfs)
      as (s1' & xs & Hs1 & Hxs & HFxs & _).
    { intros j Hj. destruct (Hreal j) as [xj Hxj]; [apply elem_of_seq; lia|].
      by exists xj. }
    destruct (draw_samples_list n ds fs P t Hdist Hfs)
      as (t1 & xs' & Ht1 & Hxs' & HFxs' & _).
    { intros j Hj. rewrite Hcur.
      destruct (Hreal j) as [xj Hxj]; [apply elem_of_seq; lia|].
      by exists xj. }
    exists t1. split; [done|].
    assert (draw_samples n s = (Ok tt, s1)) as Hs1'.
    { unfold draw_samples. apply method_bind_Ok. exists (DistList ds), s.
      split; [by unfold get; rewrite Hds|].
      apply method_bind_Ok. exists (draws n fs (current_state s)), s2.
      split; [done|]. apply method_bind_Ok. by exists u, s3. }
    rewrite Hs1 in Hs1'. injection Hs1' as ->.
    rewrite Hxs, Hxs'. f_equal.
    by apply (Forall2_realization_unique (draws n fs (current_state s)) (seq 0 n)).
Qed.

(** The rows of two arrays put one after the other. *)
Lemma py_append_rows (old new : pyarray) n1 n2 sh :
  py_wf old → py_wf new → py_shape old = n1 :: sh → py_shape new = n2 :: sh →
  sh ≠ [] → py_is_float old = py_is_float new →
  ∃ a, py_concatenate0 [old; new] = Ok a ∧ py_vstack [old; new] = Ok a ∧
       py_shape a = (n1 + n2) :: sh ∧
       (∀ j, j < n1 → ∃ r, py_row old j = Ok r ∧ py_row a j = Ok r) ∧
       (∀ j, j < n2 → ∃ r, py_row new j = Ok r ∧ py_row a (n1 + j) = Ok r).
Proof.
  intros Hwo Hwn Hso Hsn Hsh Hfl.
  assert (∀ A (a b c : ndarray A),
    shape a = n1 :: sh → shape b = n2 :: sh → wf a → wf b →
    concatenate0 [a; b] = Ok c → shape c = (n1 + n2) :: sh → wf c →
    (∀ i idx, item c (i :: idx)
              = if decide (i < n1) then item a (i :: idx)
                else item b ((i - n1) :: idx)) →
    ∀ j, j < n2 → ∃ r, row b j = Ok r ∧ row c (n1 + j) = Ok r) as Hnew.
  { intros A a b c Ha Hb Hwa Hwb Hc Hshc Hwfc Hitem j Hj.
    destruct (row_Ok b n2 sh j Hb Hwb Hj) as (r & Hr & Hshr & Hwfr & Hir).
    destruct (row_Ok c (n1 + n2) sh (n1 + j) Hshc Hwfc) as (r' & Hr' & Hshr' & Hwfr' & Hir');
      [lia|].
    exists r. split; [done|]. rewrite Hr'. f_equal.
    apply item_ext; [congruence|done|done|].
    intros idx. rewrite Hir, Hir', Hitem, decide_False by lia.
    by replace (n1 + j - n1) with j by lia. }
  destruct sh as [|m sh']; [done|].
  destruct old as [a|a], new as [b|b]; try done; simpl in *.
  - destruct (concatenate0_pair a b n1 n2 (m :: sh') Hso Hsn Hwo Hwn)
      as (c & Hc & Hshc & Hwfc & Hitem).
    exists (FloatArray c).
    rewrite py_concatenate0_floats, py_vstack_floats.
    rewrite (atleast_2d_id a n1 m sh'), (atleast_2d_id b n2 m sh') by done.
    rewrite Hc. do 3 (split; [done|]). split.
    + intros j Hj.
      destruct (row_concatenate0 a b c n1 n2 (m :: sh') j Hso Hsn Hwo Hwn Hc Hj)
        as (r & Hr & Hr').
      exists (FloatArray r). unfold py_row, py_lift1. by rewrite Hr, Hr'.
    + intros j Hj.
      destruct (Hnew _ a b c Hso Hsn Hwo Hwn Hc Hshc Hwfc Hitem j Hj)
        as (r & Hr & Hr').
      exists (FloatArray r). unfold py_row, py_lift1. by rewrite Hr, Hr'.
  - destruct (concatenate0_pair a b n1 n2 (m :: sh') Hso Hsn Hwo Hwn)
      as (c & Hc & Hshc & Hwfc & Hitem).
    exists (ObjectArray c).
    rewrite py_concatenate0_objects, py_vstack_objects.
    rewrite (atleast_2d_id a n1 m sh'), (atleast_2d_id b n2 m sh') by done.
    rewrite Hc. do 3 (split; [done|]). split.
    + intros j Hj.
      destruct (row_concatenate0 a b c n1 n2 (m :: sh') j Hso Hsn Hwo Hwn Hc Hj)
        as (r & Hr & Hr').
      exists (ObjectArray r). unfold py_row, py_lift1. by rewrite Hr, Hr'.
    + intros j Hj.
      destruct (Hnew _ a b c Hso Hsn Hwo Hwn Hc Hshc Hwfc Hitem j Hj)
        as (r & Hr & Hr').
      exists (ObjectArray r). unfold py_row, py_lift1. by rewrite Hr, Hr'.
Qed.

Lemma well_behaved_has_rvs (dist : distributions) dims d :
  well_behaved dist dims → dist = Single d → is_Some (rvs d).
Proof. intros Hwb ->. destruct Hwb as (dim & f & _ & Hf & _). by exists f. Qed.

(** X20.  Two calls of [run] with the same seed draw the same points: on an
    object made for distributions that return one row per point, after
    [run] for [n] points with the seed [seed], called twice, the
    collection holds the [n] points of the first call followed by the same
    [n] points. *)
Theorem run_with_same_seed_replays (dist : distributions) dims sn rs g n seed :
  well_behaved dist dims → (0 < n)%Z →
  ∃ s1 s2 a1 a2,
    run n (RSInt seed) (new dist sn rs g) = (Ok tt, s1) ∧ samples s1 = Some a1 ∧
    run n (RSInt seed) s1 = (Ok tt, s2) ∧ samples s2 = Some a2 ∧
    py_len a2 = Ok (Z.to_nat n + Z.to_nat n) ∧
    ∀ j, j < Z.to_nat n →
      ∃ r, py_row a1 j = Ok r ∧ py_row a2 j = Ok r ∧
           py_row a2 (Z.to_nat n + j) = Ok r.
Proof.
  intros Hwb Hn.
  destruct (new_attributes dist sn rs g) as (Hd0 & Ha0 & Hs0).
  set (s0 := new dist sn rs g) in *.
  set (G := RandomState seed).
  set (t0 := set_random_state (Some G) s0).
  destruct (new_points (Z.to_nat n) dist dims t0 Hwb Hd0 Ha0)
    as (t0' & b & Ht0 & Hd0' & Ha0' & Hsm0' & Hbatch0 & Hwfb & Hshb & Hflb);
    [lia|].
  set (s1 := set_samples_number (Some (Z.of_nat (Z.to_nat n)))
               (set_samples (Some b) t0')).
  assert (run n (RSInt seed) s0 = (Ok tt, s1)) as Hrun1.
  { rewrite run_unfold by done. fold G t0.
    apply method_bind_Ok. exists tt, t0'. split; [done|].
    apply store_samples_Ok. exists b, b, (Z.to_nat n).
    rewrite Hd0', Hbatch0, Hsm0'. simpl. rewrite Hs0.
    split; [done|]. split; [done|]. split; [|done]. by eapply py_len_shape. }
  set (t1 := set_random_state (Some G) s1).
  assert (dist_object t1 = dist) as Hdt1 by (simpl; exact Hd0').
  assert (dist_object t0 = dist) as Hdt0 by exact Hd0.
  destruct (draw_samples_replay (Z.to_nat n) t0 t1 t0') as (t1' & Ht1 & Hx1);
    [congruence|reflexivity| |done|].
  { intros d Hd. eapply well_behaved_has_rvs; [done|]. congruence. }
  assert (array_flag t1 = snd (_process_distributions dist)) as Hat1.
  { change (array_flag t1) with (array_flag t0'). by rewrite Ha0'. }
  destruct (new_points (Z.to_nat n) dist dims t1 Hwb Hdt1 Hat1)
    as (t1'' & b' & Ht1' & Hd1' & Ha1' & Hsm1' & Hbatch1 & _); [lia|].
  rewrite Ht1 in Ht1'. injection Ht1' as <-.
  assert (b' = b) as ->.
  { rewrite Hx1 in Hbatch1.
    replace (array_flag t1') with (array_flag t0') in Hbatch1
      by (by rewrite Ha1', Ha0').
    rewrite Hbatch0 in Hbatch1. by injection Hbatch1. }
  destruct (py_append_rows b b (Z.to_nat n) (Z.to_nat n) (point_layout dist dims).1)
    as (a2 & Hcat & Hvst & Hsha & Hold & Hnew);
    [done|done|done|done|by apply point_layout_nonempty|done|].
  exists s1, (set_samples_number (Some (Z.of_nat (Z.to_nat n + Z.to_nat n)))
                (set_samples (Some a2) t1')), b, a2.
  split; [done|]. split; [done|]. split.
  { rewrite run_unfold by done. fold G t1.
    apply method_bind_Ok. exists tt, t1'. split; [done|].
    apply store_samples_Ok. exists b, a2, (Z.to_nat n + Z.to_nat n).
    rewrite Hd1', Hbatch1, Hsm1'. simpl.
    split; [done|].
    split; [by destruct (is_dist_list dist && array_flag t1')%bool|].
    split; [|done]. by eapply py_len_shape. }
  split; [done|]. split; [by eapply py_len_shape|].
  intros j Hj.
  destruct (Hold j Hj) as (r & Hr & Hr1).
  destruct (Hnew j Hj) as (r' & Hr' & Hr2).
  exists r. split; [done|]. split; [done|]. congruence.
Qed.

(** ** The flags *)

Lemma filter_length_all {A} (P : A → Prop) `{∀ x, Decision (P x)} (l : list A) :
  length (filter P l) = length l ↔ Forall P l.
Proof.
  split.
  - induction l as [|x l IH]; [done|]. intros Hlen.
    destruct (decide (P x)) as [Hx|Hx].
    + rewrite filter_cons_True in Hlen by done. simpl in Hlen.
      constructor; [done|]. apply IH. lia.
    + rewrite filter_cons_False in Hlen by done.
      pose proof (length_filter P l). simpl in Hlen. lia.
  - induction 1 as [|x l Hx _ IH]; [done|].
    rewrite filter_cons_True by done. simpl. by rewrite IH.
Qed.

(** X23.  Of the two flags that the constructor sets, exactly one is set:
    [array] for one distribution and for a list in which every element is a
    one-dimensional distribution (the empty list included), [list] for
    every other list. *)
Theorem process_distributions_flags (dist : distributions) sn rs g :
  list_flag (new dist sn rs g) = negb (array_flag (new dist sn rs g)) ∧
  (array_flag (new dist sn rs g) = true ↔
   match dist with
   | Single _ => True
   | DistList ds =>
       Forall (λ d : Distribution, class_of d = DistributionContinuous1D) ds
   end).
Proof.
  unfold new. destruct dist as [d|ds]; simpl; [done|].
  case_decide as Hall; simpl.
  - split; [done|]. split; [|done]. intros _. by apply filter_length_all in Hall.
  - split; [done|]. split; [done|]. intros Hf. destruct Hall.
    by apply filter_length_all.
Qed.

End sampler.
End SamplerFacts.

(** * The further theorems at concrete inputs *)

Module MoreChecks.
Import NumPy NumPyFacts Examples.

(** ** Kernel matrix *)

Section kernels.
Import GrassmannianKernel GrassmannianKernelFacts TruncationFacts.

Lemma two_points_valid : Forall valid_point two_points.
Proof. repeat constructor; exists 2, 2; split; reflexivity. Qed.

Lemma calculate_kernel_matrix_untruncated_witness :
  ((None : option Z) = None ∨ (None : option Z) = Some 0%Z) ∧
  ∃ M,
    calculate_kernel_matrix 0 two_points None = Ok M ∧
    shape M = [length two_points; length two_points] ∧ wf M ∧
    ∀ i j xi xj, i ≤ j → two_points !! i = Some xi → two_points !! j = Some xj →
      item M [i; j] = Some (kernel_entry xi xj) ∧
      item M [j; i] = Some (kernel_entry xi xj).
Proof.
  split; [left; reflexivity|].
  apply (calculate_kernel_matrix_untruncated (H := sum_kernel) 0 two_points None).
  left; reflexivity.
Defined.

Lemma calculate_kernel_matrix_number_of_calls_witness :
  Forall valid_point two_points ∧
  ∃ M calls,
    calculate_kernel_matrix_calls 0 two_points (Some 1%Z) = Ok (M, calls) ∧
    calls = combinations_with_replacement (length two_points) ∧
    2 * length calls = length two_points * (length two_points + 1).
Proof.
  split; [exact two_points_valid|].
  apply (calculate_kernel_matrix_number_of_calls (H := sum_kernel) 0 two_points
           (Some 1%Z) two_points_valid).
Defined.

Lemma entry_of_truncated_points_witness :
  (1 ≠ 0)%Z ∧
  two_points !! 0 = Some first_point ∧ two_points !! 1 = Some second_point ∧
  shape (point_data first_point) = [2; 2] ∧ wf (point_data first_point) ∧
  shape (point_data second_point) = [2; 2] ∧ wf (point_data second_point) ∧
  ∃ di dj,
    entry two_points (Some 1%Z) 0 1
      = Ok (kernel_entry {| point_data := di |} {| point_data := dj |}) ∧
    shape di = [2; 1] ∧ wf di ∧ shape dj = [2; 1] ∧ wf dj ∧
    (∀ a b, a < 2 → b < 1 → item di [a; b] = item (point_data first_point) [a; b]) ∧
    (∀ a b, a < 2 → b < 1 → item dj [a; b] = item (point_data second_point) [a; b]).
Proof.
  split; [lia|]. do 6 (split; [reflexivity|]).
  apply (entry_of_truncated_points (H := sum_kernel) two_points 1 0 1
           first_point second_point 2 2 2 2); (lia || reflexivity).
Defined.



Lemma rank_above_columns_is_no_truncation_witness :
  Forall (λ x : GrassmannPoint (val:=nat),
            ∃ r c, shape (point_data x) = [r; c] ∧ wf (point_data x) ∧
                   (Z.of_nat c ≤ 2)%Z) two_points ∧
  calculate_kernel_matrix_calls 0 two_points (Some 2%Z)
    = calculate_kernel_matrix_calls 0 two_points None ∧
  calculate_kernel_matrix 0 two_points (Some 2%Z)
    = calculate_kernel_matrix 0 two_points None.
Proof.
  assert (Forall (λ x : GrassmannPoint (val:=nat),
            ∃ r c, shape (point_data x) = [r; c] ∧ wf (point_data x) ∧
                   (Z.of_nat c ≤ 2)%Z) two_points) as Hall.
  { repeat constructor; exists 2, 2; (split; [reflexivity|]);
      (split; [reflexivity|]); simpl; lia. }
  split; [exact Hall|].
  apply (rank_above_columns_is_no_truncation (H := sum_kernel) 0 two_points 2
           Hall).
Defined.

End kernels.

(** ** Bootstrap *)

Section sensitivity.
Import Sensitivity SensitivityFacts EstimatorInputs GeneratorFacts.

Lemma bootstrap_sample_generator_1D_yield_witness :
  shape samples_3_1 = [3; 1] ∧ wf samples_3_1 ∧
  ∃ out,
    next (H := counter_source) (bootstrap_sample_generator_1D samples_3_1) 1
      = (Ok out, (randint (RandomSource := counter_source) 1 3 [3]).2) ∧
    shape out = [3; 1] ∧ wf out ∧
    ∀ r, r < 3 →
      ∃ i, item (randint (RandomSource := counter_source) 1 3 [3]).1 [r] = Some i ∧
           i < 3 ∧
           ∀ idx, item out (r :: idx) = item samples_3_1 (i :: idx).
Proof.
  split; [reflexivity|]. split; [reflexivity|].
  apply (bootstrap_sample_generator_1D_yield (H := counter_source)
           (H0 := Checks.counter_source_laws)
           samples_3_1 3 [1] 1); reflexivity.
Defined.

Lemma bootstrap_sample_generator_2D_yield_witness :
  shape samples_3_2 = [3; 2] ∧ wf samples_3_2 ∧
  ∃ out,
    next (H := counter_source) (bootstrap_sample_generator_2D samples_3_2) 1
      = (Ok out, (randint (RandomSource := counter_source) 1 3 [3; 2]).2) ∧
    shape out = [3; 2] ∧ wf out ∧
    ∀ r c, r < 3 → c < 2 →
      ∃ i x,
        item (randint (RandomSource := counter_source) 1 3 [3; 2]).1 [r; c]
          = Some i ∧ i < 3 ∧
        item samples_3_2 [i; c] = Some x ∧ item out [r; c] = Some x.
Proof.
  split; [reflexivity|]. split; [reflexivity|].
  apply (bootstrap_sample_generator_2D_yield (H := counter_source)
           (H0 := Checks.counter_source_laws)
           samples_3_2 3 2 1); reflexivity.
Defined.

Lemma four_inputs_accepted : Forall accepted four_inputs.
Proof.
  apply Forall_cons. split; [exact I|].
  apply Forall_cons. split.
  { split; [reflexivity|]. left. exists 3, 1. split; [reflexivity|lia]. }
  apply Forall_cons. split.
  { split; [reflexivity|]. left. exists 3, 2. split; [reflexivity|lia]. }
  apply Forall_cons. split; [|constructor].
  split; [reflexivity|]. right. by exists 2, 3, 2.
Qed.

Lemma create_generators_one_per_input_witness :
  Forall accepted four_inputs ∧
  ∃ gens, create_generators 0 four_inputs [] = Ok gens ∧
          Forall2 generator_for four_inputs gens.
Proof.
  split; [exact four_inputs_accepted|].
  apply (create_generators_one_per_input four_inputs four_inputs_accepted).
Defined.

Lemma estimator_arguments_witness :
  Forall accepted four_inputs ∧
  ∃ gens args g',
    create_generators 0 four_inputs [] = Ok gens ∧
    generate_samples (H := counter_source) gens [] 1 = (Ok args, g') ∧
    Forall2 resampled four_inputs args.
Proof.
  split; [exact four_inputs_accepted|].
  apply (estimator_arguments (H := counter_source)
           (H0 := Checks.counter_source_laws)
           four_inputs 1 four_inputs_accepted).
Defined.

Lemma bootstrapping_few_samples_nan_witness :
  shape qoi_mean_1_1 = [1; 1] ∧ wf qoi_mean_1_1 ∧ 1 ≤ 1 ∧
  bootstrapping (H := counter_source) (H0 := two_sigma) constant_estimator []
    qoi_mean_1_1 1 (95 / 100)%R 5
  = (Ok (NdArray [1; 2] [nan; nan]), 5) ∧
  ∀ j q b, j < 1 → q < 1 → b < 2 →
    interval_bound (NdArray [1; 2] [nan; nan]) 1 j q b = Some nan.
Proof.
  split; [reflexivity|]. split; [reflexivity|]. split; [lia|].
  split; [reflexivity|].
  apply (bootstrapping_few_samples_nan (H := counter_source) (H0 := two_sigma)
           constant_estimator [] qoi_mean_1_1 1 (95 / 100)%R 1 1 5
           (NdArray [1; 2] [nan; nan]) 5); (reflexivity || lia).
Defined.

Lemma bootstrapping_no_samples_witness :
  shape qoi_mean_1_1 = [1; 1] ∧ wf qoi_mean_1_1 ∧
  Forall (λ input : pyobj (A:=R), input ≠ PyOther) [PyNone] ∧
  ∃ ci,
    bootstrapping (H := counter_source) (H0 := two_sigma) constant_estimator
      [PyNone] qoi_mean_1_1 0 (95 / 100)%R 5 = (Ok ci, 5) ∧
    shape ci = (if decide (1 = 1) then [1; 2] else [1; 1; 2]).
Proof.
  assert (Forall (λ input : pyobj (A:=R), input ≠ PyOther) [PyNone]) as Hin
    by (by repeat constructor).
  split; [reflexivity|]. split; [reflexivity|]. split; [exact Hin|].
  apply (bootstrapping_no_samples (H := counter_source) (H0 := two_sigma)
           constant_estimator [PyNone] qoi_mean_1_1 (95 / 100)%R 1 1 5);
    [reflexivity|reflexivity|exact Hin].
Defined.

Lemma bootstrapping_rejects_other_witness :
  shape qoi_mean_1_1 = [1; 1] ∧
  [PyNone; PyOther] !! 1 = Some (PyOther (A:=R)) ∧
  (∀ k', k' < 1 → [PyNone; PyOther] !! k' ≠ Some (PyOther (A:=R))) ∧
  bootstrapping (H := counter_source) (H0 := two_sigma) constant_estimator
    [PyNone; PyOther] qoi_mean_1_1 2 (95 / 100)%R 5
  = (Raise (EstimatorInputError 1), 5).
Proof.
  assert (∀ k', k' < 1 → [PyNone; PyOther] !! k' ≠ Some (PyOther (A:=R)))
    as Hbefore.
  { intros k' Hk'. by replace k' with 0 by lia. }
  split; [reflexivity|]. split; [reflexivity|]. split; [exact Hbefore|].
  apply (bootstrapping_rejects_other (H := counter_source) (H0 := two_sigma)
           constant_estimator [PyNone; PyOther] qoi_mean_1_1 2 (95 / 100)%R
           1 1 1 5); [reflexivity|reflexivity|exact Hbefore].
Defined.

End sensitivity.

(** ** Monte Carlo sampling *)

Section sampling.
Import MonteCarloSampling MonteCarloSamplingFacts SamplerInvariants SamplerFacts.

Lemma ladder_returns k : rvs_returns (ladder k) 1 (ramp_rvs k).
Proof.
  split; [done|]. split; [done|]. intros n g. split; [done|].
  unfold wf. simpl. rewrite length_fmap, length_seq. lia.
Qed.

Lemma wide_returns : rvs_returns wide 2 wide_rvs.
Proof.
  split; [done|]. split; [intros [=]|]. intros n g. split; [done|].
  unfold wf. simpl. rewrite length_fmap, length_seq. lia.
Qed.

Lemma two_ramps_well_behaved : well_behaved (DistList two_ramps) [1; 1].
Proof.
  split; [done|]. exists [ramp_rvs 1; ramp_rvs 2].
  repeat constructor; apply Checks.ramp_returns.
Qed.

Lemma two_wides_well_behaved : well_behaved (DistList two_wides) [2; 2].
Proof.
  split; [done|]. exists [wide_rvs; wide_rvs].
  repeat constructor; apply wide_returns.
Qed.

Lemma run_list_rvs_missing_keeps_samples_witness :
  (0 < 3)%Z ∧
  dist_object (new (DistList ramp_and_no_rvs) None RSNone 0)
    = DistList ramp_and_no_rvs ∧
  Exists (λ d : Distribution, rvs d = None) ramp_and_no_rvs ∧
  ∃ s', run 3 RSNone (new (DistList ramp_and_no_rvs) None RSNone 0)
          = (Raise RvsMissing, s') ∧
        same_attributes (new (DistList ramp_and_no_rvs) None RSNone 0) s'.
Proof.
  assert (Exists (λ d : Distribution, rvs d = None) ramp_and_no_rvs) as Hex.
  { apply Exists_cons_tl, Exists_cons_hd. reflexivity. }
  split; [lia|]. split; [reflexivity|]. split; [exact Hex|].
  apply (run_list_rvs_missing_keeps_samples 3 RSNone ramp_and_no_rvs
           (new (DistList ramp_and_no_rvs) None RSNone 0));
    [lia|reflexivity|exact Hex].
Defined.

Lemma run_layout_witness :
  well_behaved (DistList two_wides) [2; 2] ∧ (0 < 3)%Z ∧
  ∃ s' a,
    run 3 RSNone (new (DistList two_wides) None (RSInt 10) 0) = (Ok tt, s') ∧
    samples s' = Some a ∧ py_wf a ∧
    py_shape a = Z.to_nat 3 :: (point_layout (DistList two_wides) [2; 2]).1 ∧
    py_is_float a = (point_layout (DistList two_wides) [2; 2]).2.
Proof.
  split; [exact two_wides_well_behaved|]. split; [lia|].
  apply (run_layout (DistList two_wides) [2; 2] None (RSInt 10) 0 3 RSNone
           two_wides_well_behaved); lia.
Defined.

(** The layout in that case: three points, of two distributions, of
    dimension two. *)
Example two_wides_layout :
  Z.to_nat 3 :: (point_layout (DistList two_wides) [2; 2]).1 = [3; 2; 2] ∧
  (point_layout (DistList two_wides) [2; 2]).2 = true.
Proof. split; reflexivity. Qed.

Lemma run_with_same_seed_replays_witness :
  well_behaved (DistList two_ramps) [1; 1] ∧ (0 < 2)%Z ∧
  ∃ s1 s2 a1 a2,
    run 2 (RSInt 7) (new (DistList two_ramps) None RSNone 0) = (Ok tt, s1) ∧
    samples s1 = Some a1 ∧
    run 2 (RSInt 7) s1 = (Ok tt, s2) ∧ samples s2 = Some a2 ∧
    py_len a2 = Ok (Z.to_nat 2 + Z.to_nat 2) ∧
    ∀ j, j < Z.to_nat 2 →
      ∃ r, py_row a1 j = Ok r ∧ py_row a2 j = Ok r ∧
           py_row a2 (Z.to_nat 2 + j) = Ok r.
Proof.
  split; [exact two_ramps_well_behaved|]. split; [lia|].
  apply (run_with_same_seed_replays (DistList two_ramps) [1; 1] None RSNone 0
           2 7 two_ramps_well_behaved); lia.
Defined.

(** The collection after these two calls: the two points, twice. *)
Example two_ramps_replayed :
  samples (run 2 (RSInt 7)
             (run 2 (RSInt 7) (new (DistList two_ramps) None RSNone 0)).2).2
  = Some (FloatArray (NdArray [4; 2] [107; 209; 108; 210; 107; 209; 108; 210])).
Proof. vm_compute. reflexivity. Qed.

End sampling.

(** ** [transform_u01] *)

Section transform.
Import MonteCarloSampling MonteCarloSamplingFacts TransformU01 TransformU01Facts.

Lemma ladder_cdf k : cdf_of_number (ladder k) (shift k).
Proof. exists (shift_cdf k). split; [done|]. intros x. by exists [1]. Qed.

Lemma two_ladders_cdf : Forall2 cdf_of_number two_ladders [shift 1; shift 2].
Proof. repeat constructor; apply ladder_cdf. Qed.

Lemma shift_cdf_one_value k (z : ndarray nat) :
  shape z = [1] → wf z →
  wf (shift_cdf k z) ∧ (shape (shift_cdf k z) = [1] ∨ shape (shift_cdf k z) = [1]).
Proof. intros _ _. split; [reflexivity|by left]. Qed.

Lemma transform_u01_columns_witness :
  Forall2 cdf_of_number two_ladders [shift 1; shift 2] ∧
  dist_object two_ladders_sampler = DistList two_ladders ∧
  array_flag two_ladders_sampler = true ∧
  samples two_ladders_sampler = Some (FloatArray two_ladders_samples) ∧
  shape two_ladders_samples = [3; length two_ladders] ∧ wf two_ladders_samples ∧
  samples_number two_ladders_sampler = Some (Z.of_nat 3) ∧
  ∃ u, transform_u01 0 two_ladders_sampler
         = (Returns tt,
            set_samplesU01 (Some (inr (FloatArray u))) two_ladders_sampler) ∧
       shape u = [3; length two_ladders] ∧ wf u ∧
       ∀ i j x F, item two_ladders_samples [i; j] = Some x →
         [shift 1; shift 2] !! j = Some F → item u [i; j] = Some (F x).
Proof.
  split; [exact two_ladders_cdf|].
  do 6 (split; [vm_compute; reflexivity|]).
  apply (transform_u01_columns 0 two_ladders [shift 1; shift 2] two_ladders_cdf
           two_ladders_sampler two_ladders_samples 3); vm_compute; reflexivity.
Defined.

Lemma transform_u01_single_witness :
  dist_object ladder_sampler = Single (ladder 1) ∧
  cdf (ladder 1) = Some (shift_cdf 1) ∧
  samples ladder_sampler = Some (FloatArray ladder_samples) ∧
  shape ladder_samples = [2; 1] ∧ wf ladder_samples ∧
  samples_number ladder_sampler = Some (Z.of_nat 2) ∧
  (∀ z, shape z = [1] → wf z →
        wf (shift_cdf 1 z) ∧
        (shape (shift_cdf 1 z) = [1] ∨ shape (shift_cdf 1 z) = [1])) ∧
  ∃ u, transform_u01 0 ladder_sampler
         = (Returns tt, set_samplesU01 (Some (inr (FloatArray u))) ladder_sampler) ∧
       shape u = [2; 1] ∧ wf u ∧
       ∀ i c z, c < 1 → row ladder_samples i = Ok z →
         item u [i; c] = bitem (shift_cdf 1 z) [c].
Proof.
  do 6 (split; [vm_compute; reflexivity|]).
  split; [exact (shift_cdf_one_value 1)|].
  apply (transform_u01_single 0 (ladder 1) (shift_cdf 1) ladder_sampler
           ladder_samples 2 1);
    [vm_compute; reflexivity..|exact (shift_cdf_one_value 1)].
Defined.

Lemma transform_u01_list_cdf_missing_witness :
  dist_object ladder_and_ramp_sampler = DistList ladder_and_ramp ∧
  array_flag ladder_and_ramp_sampler = true ∧
  samples ladder_and_ramp_sampler = Some (FloatArray ladder_and_ramp_samples) ∧
  shape ladder_and_ramp_samples = [2; length ladder_and_ramp] ∧
  wf ladder_and_ramp_samples ∧
  samples_number ladder_and_ramp_sampler = Some (Z.of_nat 2) ∧ 0 < 2 ∧
  ladder_and_ramp !! 1 = Some (ramp 2) ∧ cdf (ramp 2) = None ∧
  Forall2 cdf_of_number (take 1 ladder_and_ramp) [shift 1] ∧
  transform_u01 0 ladder_and_ramp_sampler
  = (Raises CdfMissing, ladder_and_ramp_sampler).
Proof.
  assert (Forall2 cdf_of_number (take 1 ladder_and_ramp) [shift 1]) as Hcdf.
  { repeat constructor. apply ladder_cdf. }
  do 6 (split; [vm_compute; reflexivity|]). split; [lia|].
  split; [reflexivity|]. split; [reflexivity|]. split; [exact Hcdf|].
  apply (transform_u01_list_cdf_missing 0 ladder_and_ramp [shift 1]
           ladder_and_ramp_sampler ladder_and_ramp_samples 2 1 (ramp 2));
    [vm_compute; reflexivity..|lia|reflexivity|reflexivity|exact Hcdf].
Defined.

Lemma two_ladders_returns :
  Forall2 (λ d f, rvs_returns d 1 f) two_ladders [ramp_rvs 1; ramp_rvs 2].
Proof. repeat constructor; apply ladder_returns. Qed.

Lemma run_then_transform_u01_witness :
  two_ladders ≠ [] ∧
  Forall (λ d : Distribution, class_of d = DistributionContinuous1D) two_ladders ∧
  Forall2 (λ d f, rvs_returns d 1 f) two_ladders [ramp_rvs 1; ramp_rvs 2] ∧
  Forall2 cdf_of_number two_ladders [shift 1; shift 2] ∧ (0 < 4)%Z ∧
  ∃ s1 a u,
    run 4 RSNone (new (DistList two_ladders) None (RSInt 10) 0) = (Ok tt, s1) ∧
    samples s1 = Some (FloatArray a) ∧
    transform_u01 0 s1
      = (Returns tt, set_samplesU01 (Some (inr (FloatArray u))) s1) ∧
    shape a = [Z.to_nat 4; length two_ladders] ∧
    shape u = [Z.to_nat 4; length two_ladders] ∧
    ∀ i j x F, item a [i; j] = Some x → [shift 1; shift 2] !! j = Some F →
      item u [i; j] = Some (F x).
Proof.
  assert (Forall (λ d : Distribution, class_of d = DistributionContinuous1D)
            two_ladders) as H1d by (by repeat constructor).
  split; [done|]. split; [exact H1d|]. split; [exact two_ladders_returns|].
  split; [exact two_ladders_cdf|]. split; [lia|].
  apply (run_then_transform_u01 0 two_ladders [ramp_rvs 1; ramp_rvs 2]
           [shift 1; shift 2] None (RSInt 10) 0 4 RSNone);
    [done|exact H1d|exact two_ladders_returns|exact two_ladders_cdf|lia].
Defined.

Lemma two_wides_cdf :
  Forall2 (λ (d : Distribution) f,
             cdf d = Some f ∧
             ∀ x : ndarray nat, shape x = [2] → wf x →
               shape (f x) = [1] ∧ wf (f x))
          two_wides [shift_cdf 5; shift_cdf 5].
Proof. repeat constructor. Qed.

Lemma transform_u01_list_mode_witness :
  Forall2 (λ (d : Distribution) f,
             cdf d = Some f ∧
             ∀ x : ndarray nat, shape x = [2] → wf x →
               shape (f x) = [1] ∧ wf (f x))
          two_wides [shift_cdf 5; shift_cdf 5] ∧
  dist_object two_wides_sampler = DistList two_wides ∧
  array_flag two_wides_sampler = false ∧ list_flag two_wides_sampler = true ∧
  two_wides ≠ [] ∧
  samples two_wides_sampler = Some (FloatArray two_wides_samples) ∧
  shape two_wides_samples = [2; length two_wides; 2] ∧ wf two_wides_samples ∧
  samples_number two_wides_sampler = Some (Z.of_nat 2) ∧
  ∃ us, transform_u01 0 two_wides_sampler
          = (Returns tt, set_samplesU01 (Some (inl us)) two_wides_sampler) ∧
        length us = 2 ∧
        ∀ i u, us !! i = Some u →
          ∃ t, u = FloatArray t ∧ shape t = [length two_wides; 1] ∧ wf t ∧
               ∀ j f zi zij, [shift_cdf 5; shift_cdf 5] !! j = Some f →
                 row two_wides_samples i = Ok zi →
                 row zi j = Ok zij → item t [j; 0] = item (f zij) [0].
Proof.
  split; [exact two_wides_cdf|].
  do 3 (split; [vm_compute; reflexivity|]). split; [done|].
  do 4 (split; [vm_compute; reflexivity|]).
  apply (transform_u01_list_mode 0 two_wides [shift_cdf 5; shift_cdf 5] 2
           two_wides_cdf two_wides_sampler two_wides_samples 2);
    [vm_compute; reflexivity|vm_compute; reflexivity|vm_compute; reflexivity|
     done|vm_compute; reflexivity..].
Defined.

End transform.

End MoreChecks.
(** * Binary64 arithmetic: zeros and finite numbers *)

Module Binary64Facts.
Import PrimFloat.PrimFloatNotations.

Local Abbreviation float := PrimFloat.float.
Local Abbreviation Prim2SF := FloatOps.Prim2SF.
Local Abbreviation S754_zero := SpecFloat.S754_zero.
Local Abbreviation S754_finite := SpecFloat.S754_finite.
Local Abbreviation S754_infinity := SpecFloat.S754_infinity.
Local Abbreviation S754_nan := SpecFloat.S754_nan.

(** A binary64 number is given by its value in the specification of the
    format. *)
Lemma Prim2SF_inj (x y : float) : Prim2SF x = Prim2SF y → x = y.
Proof.
  intros Heq.
  rewrite <- (FloatAxioms.SF2Prim_Prim2SF x), <- (FloatAxioms.SF2Prim_Prim2SF y).
  by rewrite Heq.
Qed.

Lemma SFeqb_refl_finite s m e :
  SpecFloat.SFeqb (S754_finite s m e) (S754_finite s m e) = true.
Proof.
  unfold SpecFloat.SFeqb, SpecFloat.SFcompare.
  rewrite Z.compare_refl, Pos.compare_cont_refl. by destruct s.
Qed.

(** [x == 0.0] holds for the two zeros, and for them only. *)
Lemma is_zero_true (x : float) :
  PrimFloat.is_zero x = true ↔ ∃ b, Prim2SF x = S754_zero b.
Proof.
  unfold PrimFloat.is_zero. rewrite FloatAxioms.eqb_spec.
  change (Prim2SF PrimFloat.zero) with (S754_zero false).
  destruct (Prim2SF x) as [b|b| |s m e]; simpl.
  - split; [by exists b|done].
  - split; [by destruct b|by intros [? [=]]].
  - split; [done|by intros [? [=]]].
  - split; [by destruct s|by intros [? [=]]].
Qed.

Lemma is_zero_false (x : float) :
  PrimFloat.is_zero x = false ↔ ∀ b, Prim2SF x ≠ S754_zero b.
Proof.
  destruct (PrimFloat.is_zero x) eqn:Hz.
  - apply is_zero_true in Hz as [b Hb]. split; [done|]. intros Hx. by destruct (Hx b).
  - split; [|done]. intros _ b Hb.
    assert (PrimFloat.is_zero x = true) as Hz' by (apply is_zero_true; by exists b).
    congruence.
Qed.

Lemma is_nan_false (x : float) :
  PrimFloat.is_nan x = false ↔ Prim2SF x ≠ S754_nan.
Proof.
  unfold PrimFloat.is_nan. rewrite FloatAxioms.eqb_spec.
  destruct (Prim2SF x) as [b|b| |s m e].
  - simpl. split; done.
  - destruct b; simpl; split; done.
  - simpl. split; done.
  - rewrite SFeqb_refl_finite. simpl. split; done.
Qed.

(** A finite number is a zero or a number with a mantissa. *)
Lemma is_finite_true (x : float) :
  PrimFloat.is_finite x = true →
  (∃ b, Prim2SF x = S754_zero b) ∨ ∃ s m e, Prim2SF x = S754_finite s m e.
Proof.
  unfold PrimFloat.is_finite. intros Hfin.
  apply negb_true_iff, orb_false_iff in Hfin as [Hnan Hinf].
  apply is_nan_false in Hnan.
  unfold PrimFloat.is_infinity in Hinf.
  rewrite FloatAxioms.eqb_spec, FloatAxioms.abs_spec in Hinf.
  change (Prim2SF PrimFloat.infinity) with (S754_infinity false) in Hinf.
  destruct (Prim2SF x) as [b|b| |s m e].
  - left. by exists b.
  - by destruct b.
  - done.
  - right. by exists s, m, e.
Qed.

(** The product of a finite number and a zero is a zero; the product of an
    infinity and a zero is [nan]. *)
Lemma mul_finite_zero (d s : float) :
  PrimFloat.is_finite d = true → PrimFloat.is_zero s = true →
  ∃ b, Prim2SF (d * s) = S754_zero b.
Proof.
  intros Hd [bs Hs]%is_zero_true.
  rewrite FloatAxioms.mul_spec. unfold FloatAxioms.SF64mul, SpecFloat.SFmul.
  rewrite Hs.
  destruct (is_finite_true d Hd) as [[bd ->]|(sd & md & ed & ->)]; by eexists.
Qed.

(** Subtracting or adding a zero leaves a number that is not a zero as it
    is, and leaves a zero a zero. *)
Lemma sub_zero_same (m z : float) b :
  Prim2SF z = S754_zero b → PrimFloat.is_zero m = false → (m - z)%float = m.
Proof.
  intros Hz Hm. apply Prim2SF_inj.
  rewrite FloatAxioms.sub_spec. unfold FloatAxioms.SF64sub, SpecFloat.SFsub.
  rewrite Hz. pose proof (proj1 (is_zero_false m) Hm) as Hnz.
  destruct (Prim2SF m) as [bm|bm| |sm mm em]; [by destruct (Hnz bm)|done..].
Qed.

Lemma add_zero_same (m z : float) b :
  Prim2SF z = S754_zero b → PrimFloat.is_zero m = false → (m + z)%float = m.
Proof.
  intros Hz Hm. apply Prim2SF_inj.
  rewrite FloatAxioms.add_spec. unfold FloatAxioms.SF64add, SpecFloat.SFadd.
  rewrite Hz. pose proof (proj1 (is_zero_false m) Hm) as Hnz.
  destruct (Prim2SF m) as [bm|bm| |sm mm em]; [by destruct (Hnz bm)|done..].
Qed.

Lemma sub_zero_zero (m z : float) b :
  Prim2SF z = S754_zero b → PrimFloat.is_zero m = true →
  PrimFloat.is_zero (m - z)%float = true.
Proof.
  intros Hz [bm Hm]%is_zero_true. apply is_zero_true.
  rewrite FloatAxioms.sub_spec. unfold FloatAxioms.SF64sub, SpecFloat.SFsub.
  rewrite Hz, Hm. destruct bm, b; by eexists.
Qed.

Lemma add_zero_zero (m z : float) b :
  Prim2SF z = S754_zero b → PrimFloat.is_zero m = true →
  PrimFloat.is_zero (m + z)%float = true.
Proof.
  intros Hz [bm Hm]%is_zero_true. apply is_zero_true.
  rewrite FloatAxioms.add_spec. unfold FloatAxioms.SF64add, SpecFloat.SFadd.
  rewrite Hz, Hm. destruct bm, b; by eexists.
Qed.

(** Numbers that are the same are equal with [==], unless they are
    [nan]. *)
Lemma same_value_eqb (a b : float) :
  SensitivityBinary64.same_value a b → PrimFloat.is_nan b = false →
  (a =? b)%float = true.
Proof.
  intros [->|[[sa Ha]%is_zero_true [sb Hb]%is_zero_true]] Hnan.
  - apply is_nan_false in Hnan. rewrite FloatAxioms.eqb_spec.
    destruct (Prim2SF b) as [s|s| |s m e]; [done|by destruct s|done|].
    apply SFeqb_refl_finite.
  - by rewrite FloatAxioms.eqb_spec, Ha, Hb.
Qed.

(** [nan] is not the same as a number that is not [nan]. *)
Lemma same_value_nan (b : float) :
  SensitivityBinary64.same_value PrimFloat.nan b → PrimFloat.is_nan b = true.
Proof. intros [<-|[Hz _]]; [reflexivity|]. vm_compute in Hz. discriminate Hz. Qed.

End Binary64Facts.
(** * The confidence interval of [bootstrapping] on binary64 numbers *)

Module SensitivityBinary64Facts.
Import NumPy NumPyFacts Sensitivity SensitivityFacts.
Import SensitivityBinary64 Binary64Facts.
Import PrimFloat.PrimFloatNotations.

Lemma item_scale64 c (a : ndarray float) idx :
  item (scale c a) idx = PrimFloat.mul c <$> item a idx.
Proof.
  unfold item, scale; simpl. destruct (ravel (shape a) idx) as [o|]; [|done].
  simpl. by rewrite list_lookup_fmap.
Qed.

Lemma wf_scale64 c (a : ndarray float) : wf a → wf (scale c a).
Proof. unfold wf, scale; simpl. by rewrite length_fmap. Qed.

Section statistics.
Context `{Statistics}.

Lemma std_axis1_rows ddof (a : ndarray float) d0 d1 :
  shape a = [d0; d1] → wf a →
  ∃ s, std_axis1 ddof a = Ok s ∧ shape s = [d0] ∧ wf s ∧
       ∀ q, q < d0 →
         ∃ xs, mapM (λ t, item a [q; t]) (seq 0 d1) = Some xs ∧
               item s [q] = Some (np_std ddof xs).
Proof.
  intros Ha Hwa.
  assert (∀ q, q < d0 → is_Some (mapM (λ t, item a [q; t]) (seq 0 d1)))
    as Hxs.
  { intros q Hq. apply mapM_is_Some_2, Forall_forall.
    intros t [_ Ht]%elem_of_seq. simpl. apply item_in_bounds; [done|].
    rewrite Ha. apply ravel_2. exists q, t. split; [done|]. split; [done|]. lia. }
  unfold std_axis1. rewrite Ha.
  destruct (gather_total [d0]
    (λ idx, match idx with
            | [q] => xs ← mapM (λ t, item a [q; t]) (seq 0 d1);
                     Some (np_std ddof xs)
            | _ => None
            end)) as (s & Hs & Hshs & Hwfs & Hitem).
  { intros idx (q & -> & Hq)%ravel_1. destruct (Hxs q Hq) as [xs ->].
    by eexists. }
  exists s. split; [done|]. split; [done|]. split; [done|].
  intros q Hq. destruct (Hxs q Hq) as [xs Hx]. exists xs. split; [done|].
  rewrite Hitem by (apply ravel_1; by exists q). by rewrite Hx.
Qed.

(** ** The loop over the outputs *)

Section confidence.
Context (qoi_mean bq : ndarray float) (n_qois n_outputs n : nat) (delta : float).
Context (Hmean : shape qoi_mean = [n_qois; n_outputs]) (Hwf_mean : wf qoi_mean).
Context (Hbq : shape bq = [n_outputs; n_qois; n]) (Hwf_bq : wf bq).

Local Abbreviation bounds_at := (bounds_at qoi_mean bq n delta).

Lemma interval_step ci j :
  shape ci = [n_outputs; n_qois; 2] → wf ci → j < n_outputs →
  ∃ ci', confidence_interval_step delta qoi_mean bq ci j = Ok ci' ∧
         shape ci' = [n_outputs; n_qois; 2] ∧ wf ci' ∧
         (∀ i q b, i < n_outputs → q < n_qois → b < 2 → i ≠ j →
            item ci' [i; q; b] = item ci [i; q; b]) ∧
         (∀ q, q < n_qois → bounds_at ci' j q).
Proof.
  intros Hci Hwf_ci Hj. unfold confidence_interval_step.
  destruct (row_Ok bq n_outputs [n_qois; n] j Hbq Hwf_bq Hj)
    as (sub & -> & Hsub & Hwf_sub & Hsub_item). simpl.
  destruct (std_axis1_rows 1 sub n_qois n Hsub Hwf_sub)
    as (s & -> & Hs & Hwf_s & Hs_item). simpl.
  destruct (column_Ok qoi_mean n_qois n_outputs j Hmean Hwf_mean Hj)
    as (col & -> & Hcol & Hwf_col & Hcol_item). simpl.
  destruct (map2_Ok_1 PrimFloat.sub col (scale delta s) n_qois)
    as (lo & -> & Hlo & Hwf_lo & Hlo_item);
    [done|done|done|by apply wf_scale64|].
  simpl.
  destruct (map2_Ok_1 PrimFloat.add col (scale delta s) n_qois)
    as (up & -> & Hup & Hwf_up & Hup_item);
    [done|done|done|by apply wf_scale64|].
  simpl.
  destruct (assign_mid_Ok ci lo n_outputs n_qois 2 j 0)
    as (ci1 & -> & Hci1 & Hwf_ci1 & Hci1_item); [done|done|done|done|done|lia|].
  simpl.
  destruct (assign_mid_Ok ci1 up n_outputs n_qois 2 j 1)
    as (ci2 & -> & Hci2 & Hwf_ci2 & Hci2_item); [done|done|done|done|done|lia|].
  exists ci2. split; [done|]. split; [done|]. split; [done|]. split.
  - intros i q b Hi Hq Hb Hij.
    rewrite Hci2_item, decide_False by (done || intros [? _]; done).
    by rewrite Hci1_item, decide_False by (done || intros [? _]; done).
  - intros q Hq.
    destruct (Hs_item q Hq) as (xs & Hxs & Hsq).
    destruct (Hlo_item q Hq) as (m & y & Hm & Hy & Hloq).
    destruct (Hup_item q Hq) as (m' & y' & Hm' & Hy' & Hupq).
    rewrite Hm in Hm'. injection Hm' as <-.
    rewrite Hy in Hy'. injection Hy' as <-.
    rewrite item_scale64, Hsq in Hy. simpl in Hy. injection Hy as <-.
    exists m, xs. split; [by rewrite <- Hcol_item|]. split.
    { unfold bootstrap_values. rewrite <- Hxs. apply mapM_ext.
      intros t. by rewrite Hsub_item. }
    split.
    { apply length_mapM in Hxs. by rewrite <- Hxs, length_seq. }
    split.
    + rewrite Hci2_item, decide_False by (done || lia).
      by rewrite Hci1_item, decide_True by (done || lia).
    + by rewrite Hci2_item, decide_True by (done || lia).
Qed.

Lemma bounds_kept ci ci' j q :
  j < n_outputs → q < n_qois →
  (∀ b, b < 2 → item ci' [j; q; b] = item ci [j; q; b]) →
  bounds_at ci j q → bounds_at ci' j q.
Proof.
  intros Hj Hq Heq (m & xs & Hm & Hxs & Hlen & Hlo & Hup).
  exists m, xs. rewrite !Heq by lia. done.
Qed.

Lemma interval_loop js ci :
  NoDup js → (∀ j, j ∈ js → j < n_outputs) →
  shape ci = [n_outputs; n_qois; 2] → wf ci →
  ∃ ci', for_each js (confidence_interval_step delta qoi_mean bq) ci = Ok ci' ∧
         shape ci' = [n_outputs; n_qois; 2] ∧ wf ci' ∧
         (∀ i q b, i < n_outputs → q < n_qois → b < 2 → i ∉ js →
            item ci' [i; q; b] = item ci [i; q; b]) ∧
         (∀ j q, j ∈ js → q < n_qois → bounds_at ci' j q).
Proof.
  intros Hnd. revert ci. induction Hnd as [|j js Hj Hnd IH]; intros ci Hlt Hci Hwf.
  - exists ci. split; [done|]. split; [done|]. split; [done|].
    split; [done|]. intros j q Hin. by apply elem_of_nil in Hin.
  - simpl.
    destruct (interval_step ci j)
      as (ci1 & -> & Hci1 & Hwf1 & Hother1 & Hat1);
      [done|done|apply Hlt; left|]. simpl.
    destruct (IH ci1) as (ci2 & -> & Hci2 & Hwf2 & Hother2 & Hat2);
      [intros ? ?; apply Hlt; by right|done|done|].
    exists ci2. split; [done|]. split; [done|]. split; [done|]. split.
    + intros i q b Hi Hq Hb Hnotin.
      apply not_elem_of_cons in Hnotin as [Hij Hnotin].
      rewrite Hother2 by done. by apply Hother1.
    + intros i q [->|Hin]%elem_of_cons Hq.
      * apply (bounds_kept ci1); [apply Hlt; left|done| |by apply Hat1].
        intros b Hb. apply Hother2; [apply Hlt; left|done..].
      * by apply Hat2.
Qed.

End confidence.

(** ** A zero standard deviation *)

(** With a finite [delta] and a standard deviation that is a zero, the two
    bounds are the mean. *)
Lemma bounds_of_zero_std (m delta s : float) :
  PrimFloat.is_zero s = true → PrimFloat.is_finite delta = true →
  same_value (m - delta * s)%float m ∧ same_value (m + delta * s)%float m.
Proof.
  intros Hs Hdelta.
  destruct (mul_finite_zero delta s Hdelta Hs) as [b Hb].
  destruct (PrimFloat.is_zero m) eqn:Hm; split.
  - right. split; [by apply (sub_zero_zero m _ b)|done].
  - right. split; [by apply (add_zero_zero m _ b)|done].
  - left. by apply (sub_zero_same m _ b).
  - left. by apply (add_zero_same m _ b).
Qed.

(** They are then equal to the mean with [==] when the mean is not [nan]. *)
Lemma bounds_of_zero_std_eqb (m delta s : float) :
  PrimFloat.is_zero s = true → PrimFloat.is_finite delta = true →
  PrimFloat.is_nan m = false →
  (m - delta * s =? m)%float = true ∧ (m + delta * s =? m)%float = true.
Proof.
  intros Hs Hdelta Hm.
  destruct (bounds_of_zero_std m delta s Hs Hdelta) as [Hlo Hup].
  split; by apply same_value_eqb.
Qed.

Lemma confidence_interval_bounds qoi_mean bq confidence_level
    n_qois n_outputs n :
  shape qoi_mean = [n_qois; n_outputs] → wf qoi_mean →
  shape bq = [n_outputs; n_qois; n] → wf bq →
  ∃ ci, confidence_interval qoi_mean confidence_level n_qois n_outputs bq = Ok ci ∧
        shape ci = (if decide (n_outputs = 1) then [n_qois; 2]
                    else [n_outputs; n_qois; 2]) ∧
        ∀ j q, j < n_outputs → q < n_qois →
          interval_spec qoi_mean bq confidence_level n_outputs n ci j q.
Proof.
  intros Hmean Hwf_mean Hbq Hwf_bq. unfold confidence_interval.
  set (delta := half_width_factor confidence_level).
  destruct (interval_loop qoi_mean bq n_qois n_outputs n delta
              Hmean Hwf_mean Hbq Hwf_bq (seq 0 n_outputs)
              (zeros PrimFloat.zero [n_outputs; n_qois; 2]))
    as (ci & Hloop & Hci & Hwf & _ & Hat).
  { apply NoDup_seq. }
  { intros j [_ Hj]%elem_of_seq. lia. }
  { done. }
  { apply wf_zeros. }
  cbv zeta. rewrite Hloop. simpl.
  assert (∀ ci' : ndarray float,
    (∀ j q b, j < n_outputs → q < n_qois →
       interval_bound ci' n_outputs j q b = item ci [j; q; b]) →
    ∀ j q, j < n_outputs → q < n_qois →
      interval_spec qoi_mean bq confidence_level n_outputs n ci' j q) as Hspec.
  { intros ci' Hci' j q Hj Hq.
    destruct (Hat j q) as (m & xs & Hm & Hxs & Hlen & Hlo & Hup);
      [apply elem_of_seq; lia|done|].
    exists m, xs. split; [done|]. split; [done|]. split; [done|].
    fold delta. cbv zeta.
    rewrite !Hci' by done. split; [done|]. split; [done|].
    apply bounds_of_zero_std. }
  case_decide as Hone.
  - subst n_outputs.
    destruct (row_Ok ci 1 [n_qois; 2] 0 Hci Hwf) as (r & -> & Hr & _ & Hr_item);
      [lia|].
    exists r. split; [done|]. split; [done|].
    apply Hspec. intros j q b Hj Hq. unfold interval_bound.
    rewrite decide_True by done. rewrite Hr_item. by replace j with 0 by lia.
  - exists ci. split; [done|]. split; [done|].
    apply Hspec. intros j q b Hj Hq. unfold interval_bound.
    by rewrite decide_False.
Qed.

End statistics.

(** ** The bootstrap loop *)

Section bootstrapping.
Context `{RandomSource} `{Statistics}.

Lemma bootstrap_step_keeps_shape (estimator : estimator_fn) gens bq j g bq' g' :
  bootstrap_step estimator gens bq j g = (Ok bq', g') →
  shape bq' = shape bq ∧ wf bq'.
Proof.
  unfold bootstrap_step, mbind, rand_bind, lift.
  destruct (generate_samples gens [] g) as [[args|e] g1]; [|done].
  destruct (estimator args) as [qoi|e]; [|done]. simpl.
  destruct (transpose qoi) as [qoi_T|e]; [|done]. simpl.
  intros [= Hassign <-]. by eapply assign_last_shape.
Qed.

Lemma bootstrap_loop_keeps_shape (estimator : estimator_fn) gens js bq g bq' g' :
  wf bq →
  for_each_rand js (bootstrap_step estimator gens) bq g = (Ok bq', g') →
  shape bq' = shape bq ∧ wf bq'.
Proof.
  revert bq g. induction js as [|j js IH]; intros bq g Hwf; simpl.
  - by intros [= <- <-].
  - unfold mbind, rand_bind.
    destruct (bootstrap_step estimator gens bq j g) as [[bq1|e] g1] eqn:Hstep;
      [|done].
    apply bootstrap_step_keeps_shape in Hstep as [Hsh1 Hwf1].
    intros Hloop. apply IH in Hloop as [Hsh Hwf']; [|done].
    by rewrite Hsh, Hsh1.
Qed.

(** C1, as amended.  When the bootstrap loop has filled [bootstrapped_qoi],
    [bootstrapping] returns, for every output and every quantity of
    interest, the two binary64 numbers [qoi_mean - delta * std] and
    [qoi_mean + delta * std], where [std] is [np.std] with [ddof = 1] (the
    divisor [num_bootstrap_samples - 1]) of the bootstrap values and
    [delta = -ppf((1 - confidence_level) / 2)].  When [std] is zero and
    [delta] is finite, both bounds are [qoi_mean]. *)
Theorem bootstrapping_interval_binary64 (estimator : estimator_fn)
    estimator_inputs qoi_mean num_bootstrap_samples confidence_level
    n_qois n_outputs gens bq g g' :
  shape qoi_mean = [n_qois; n_outputs] → wf qoi_mean →
  create_generators 0 estimator_inputs [] = Ok gens →
  for_each_rand (seq 0 num_bootstrap_samples) (bootstrap_step estimator gens)
    (zeros PrimFloat.zero [n_outputs; n_qois; num_bootstrap_samples]) g
    = (Ok bq, g') →
  ∃ ci,
    bootstrapping estimator estimator_inputs qoi_mean num_bootstrap_samples
      confidence_level g = (Ok ci, g') ∧
    shape ci = (if decide (n_outputs = 1) then [n_qois; 2]
                else [n_outputs; n_qois; 2]) ∧
    ∀ j q, j < n_outputs → q < n_qois →
      interval_spec qoi_mean bq confidence_level n_outputs
        num_bootstrap_samples ci j q.
Proof.
  intros Hmean Hwf_mean Hgens Hloop.
  pose proof (bootstrap_loop_keeps_shape _ _ _ _ _ _ _ (wf_zeros _ _) Hloop)
    as [Hbq Hwf_bq].
  destruct (confidence_interval_bounds qoi_mean bq confidence_level n_qois
              n_outputs num_bootstrap_samples Hmean Hwf_mean Hbq Hwf_bq)
    as (ci & Hci & Hshape & Hspec).
  exists ci. split; [|done].
  unfold bootstrapping, mbind, rand_bind, lift, shape_at.
  rewrite Hmean. simpl. rewrite Hgens, Hloop. by rewrite Hci.
Qed.

End bootstrapping.

End SensitivityBinary64Facts.
(** * The confidence interval on binary64 numbers at concrete inputs *)

Module Binary64Checks.
Import NumPy NumPyFacts Sensitivity SensitivityBinary64 SensitivityBinary64Facts.
Import Examples Binary64Examples.

Lemma bootstrapping_interval_binary64_witness :
  shape qoi_mean_half = [1; 1] ∧ wf qoi_mean_half ∧
  create_generators 0 [] [] = Ok ([] : list (option (@generator float))) ∧
  for_each_rand (H := counter_source) (seq 0 2)
    (bootstrap_step half_estimator [])
    (zeros PrimFloat.zero [1; 1; 2]) 5 = (Ok two_halves, 5) ∧
  ∃ ci,
    bootstrapping (H := counter_source) (H0 := two_pass) half_estimator []
      qoi_mean_half 2 level_95 5 = (Ok ci, 5) ∧
    shape ci = [1; 2] ∧
    ∀ j q, j < 1 → q < 1 →
      interval_spec (H0 := two_pass) qoi_mean_half two_halves level_95 1 2 ci j q.
Proof.
  split; [reflexivity|]. split; [reflexivity|]. split; [reflexivity|].
  split; [reflexivity|].
  apply (bootstrapping_interval_binary64 (H := counter_source)
           (H0 := two_pass) half_estimator [] qoi_mean_half 2 level_95 1 1 []
           two_halves 5 5); reflexivity.
Defined.

(** At that level the bounds are the mean: the standard deviation of the two
    values 0.5 is zero, and [delta] is finite. *)
Example interval_at_level_95 :
  bootstrapping (H := counter_source) (H0 := two_pass) half_estimator []
    qoi_mean_half 2 level_95 5 = (Ok (NdArray [1; 2] [half; half]), 5).
Proof. reflexivity. Qed.

(** With [confidence_level = 1.0] they are not.  [(1 - 1.0) / 2] is 0 and
    [ppf(0)] is [-inf], so that [delta] is [inf]; the standard deviation of
    the two values 0.5 is zero; [inf * 0.0] is [nan], and both bounds are
    [nan], which is not equal to the mean 0.5. *)
Lemma unit_confidence_level_gives_nan :
  half_width_factor (H0 := two_pass) PrimFloat.one = PrimFloat.infinity ∧
  np_std (Statistics := two_pass) 1 [half; half] = PrimFloat.zero ∧
  bootstrapping (H := counter_source) (H0 := two_pass) half_estimator []
    qoi_mean_half 2 PrimFloat.one 5
  = (Ok (NdArray [1; 2] [PrimFloat.nan; PrimFloat.nan]), 5) ∧
  ¬ interval_claim (H0 := two_pass) qoi_mean_half two_halves PrimFloat.one 1 2
      (NdArray [1; 2] [PrimFloat.nan; PrimFloat.nan]) 0 0.
Proof.
  split; [reflexivity|]. split; [reflexivity|]. split; [reflexivity|].
  intros (m & xs & Hm & Hxs & _ & _ & _ & Hzero).
  vm_compute in Hm. injection Hm as <-.
  vm_compute in Hxs. injection Hxs as <-.
  destruct Hzero as [Hlower _]; [reflexivity|].
  apply Binary64Facts.same_value_nan in Hlower. discriminate Hlower.
Qed.

End Binary64Checks.
